(** * splasher: bit-banged SPI flash programmer

    A shallow embedding of the protocol engine of splasher
    (src/include/hardware.hpp, src/src/hardware.cpp, the buffered file of
    filemanager.hpp/.cpp and the handling of the arguments and the
    dispatch of src/src/main.cpp), and the properties of its
    specification checked against it.

    Conventions.
    - A C++ integer is a [Z]; where the source can wrap, the wrap-around
      is written out with [mod].  [unsigned int] and [int] are 32 bits
      wide; the width of [unsigned long] depends on the target (32 bits on
      a 32-bit Raspberry Pi OS, 64 bits on a 64-bit one) and is the
      variable [ulong_bits].
    - A [char] is its 8-bit pattern, a [Z] in [0, 256).
    - The pigpio library and the two console streams are the outside
      world: every call to them is an [Event], appended to the [trace] of
      the [World] in program order.  The level of the input line is not
      under the program's control: [miso] gives the level seen by the
      n-th call of [gpioRead].
    - A loop without a static bound takes [fuel]; running out of fuel is
      [None]. *)

From Stdlib Require Import ZArith List Bool String Ascii Lia.
Import ListNotations.
Open Scope Z_scope.

(** ** The outside world *)

Inductive PinMode := PI_INPUT | PI_OUTPUT.

(** The texts written to [std::cout] and [std::cerr], with the values
    printed in them. *)
Inductive Message :=
| MsgDumpUnsupported        (* "Dump only supported for SPI/25-series. ..." *)
| MsgWriteUnsupported       (* "Write only supported for SPI/25-series. ..." *)
| MsgEraseUnsupported       (* "Erase only supported for SPI/25-series. ..." *)
| MsgWriteNeedsReadMode     (* "Write requires a file opened for reading." *)
| MsgReading (bytes offset KHz : Z) (filename : string)
| MsgDumped (KiB : Z)
| MsgDumpFinished (filename : string)
| MsgWriting (bytes : Z) (filename : string) (offset : Z)
| MsgWritten (KiB : Z)
| MsgWriteFinished
| MsgChipEraseStarted
| MsgErased (byteCount offset : Z)
| MsgSpeedNotValid          (* message::speedNotValid *)
| MsgSpeedTooHigh.          (* message::speedTooHigh *)

Inductive Event :=
| GpioSetMode (pin : Z) (mode : PinMode)
| GpioWrite (pin : Z) (level : Z)
| GpioRead (pin : Z) (level : Z)
| GpioDelay (us : Z)
| GpioTerminate
| Cout (m : Message)
| Cerr (m : Message).

Record World := mkWorld {
  miso : nat -> bool;     (* level of the input line at the n-th read *)
  nread : nat;            (* number of reads done so far *)
  trace : list Event      (* everything done so far, oldest first *)
}.

(** The world after [k] more reads and the events [evs]. *)
Definition advance (k : nat) (evs : list Event) (w : World) : World :=
  {| miso := miso w; nread := (nread w + k)%nat; trace := trace w ++ evs |}.

(** The levels seen by the next [n] reads, starting [k] reads from now. *)
Definition samples (w : World) (k n : nat) : list bool :=
  map (fun i => miso w (nread w + k + i)%nat) (seq 0 n).

(** ** A state monad over the world, with fuel exhaustion *)

Definition M (A : Type) : Type := World -> option (A * World).

Definition ret {A} (a : A) : M A := fun w => Some (a, w).

Definition bind {A B} (m : M A) (f : A -> M B) : M B :=
  fun w => match m w with
           | Some (a, w') => f a w'
           | None => None
           end.

Definition out_of_fuel {A} : M A := fun _ => None.

Declare Scope splash_scope.
Delimit Scope splash_scope with splash.
Notation "x <- m ; k" := (bind m (fun x => k))
  (at level 61, m at next level, right associativity) : splash_scope.
Notation "' p <- m ; k" := (bind m (fun x => match x with p => k end))
  (at level 61, p pattern, m at next level, right associativity) : splash_scope.
Notation "m ;; k" := (bind m (fun _ => k))
  (at level 61, right associativity) : splash_scope.
Open Scope splash_scope.

Definition emit (e : Event) : M unit := fun w => Some (tt, advance 0 [e] w).

Definition gpioSetMode (pin : Z) (mode : PinMode) : M unit := emit (GpioSetMode pin mode).
Definition gpioWrite (pin level : Z) : M unit := emit (GpioWrite pin level).
Definition gpioDelay (us : Z) : M unit := emit (GpioDelay us).
Definition gpioTerminate : M unit := emit GpioTerminate.
Definition cout (m : Message) : M unit := emit (Cout m).
Definition cerr (m : Message) : M unit := emit (Cerr m).

Definition gpioRead (pin : Z) : M Z :=
  fun w => let level := if miso w (nread w) then 1 else 0 in
           Some (level, advance 1 [GpioRead pin level] w).

(** ** hardware.hpp: limits, pinout, command bytes, the device *)

Module Limits.
Definition MAX_BYTES : Z := 268435456.
Definition MAX_KHZ : Z := 1000.
Definition S25_PAGE_SIZE : Z := 256.
End Limits.

Module Pinout.
Definition SPI_SCLK : Z := 2.
Definition SPI_MISO : Z := 3.
Definition SPI_MOSI : Z := 4.
Definition SPI_HOLD : Z := 17.
Definition SPI_CS : Z := 27.
Definition SPI_WP : Z := 22.
End Pinout.

Module Cmd.
Module S25.
Definition READ : Z := 0x03.
Definition WRITE_ENABLE : Z := 0x06.
Definition PAGE_PROGRAM : Z := 0x02.
Definition SECTOR_ERASE_4K : Z := 0x20.
Definition BLOCK_ERASE_32K : Z := 0x52.
Definition BLOCK_ERASE_64K : Z := 0xD8.
Definition CHIP_ERASE : Z := 0xC7.
Definition READ_JEDEC_ID : Z := 0x9F.
Definition READ_STATUS : Z := 0x05.
End S25.
End Cmd.

Record ChipId := mkChipId {
  manufacturer : Z;
  memoryType : Z;
  capacity : Z
}.

Inductive IFACE := SPI | DSPI | QSPI | I2C.
Inductive PROT := S24 | S25.

Definition IFACE_eqb (a b : IFACE) : bool :=
  match a, b with
  | SPI, SPI | DSPI, DSPI | QSPI, QSPI | I2C, I2C => true
  | _, _ => false
  end.

Definition PROT_eqb (a b : PROT) : bool :=
  match a, b with
  | S24, S24 | S25, S25 => true
  | _, _ => false
  end.

Record Device := mkDevice {
  interface : IFACE;
  protocol : PROT;
  KHz : Z;              (* int *)
  bytes : Z;            (* unsigned long *)
  offset : Z;           (* unsigned long *)
  jedecId : ChipId;
  jedecValid : bool
}.

Definition set_jedec (dev : Device) (id : ChipId) (valid : bool) : Device :=
  {| interface := interface dev; protocol := protocol dev; KHz := KHz dev;
     bytes := bytes dev; offset := offset dev;
     jedecId := id; jedecValid := valid |}.

(** [static_cast<unsigned int>] of an [int]. *)
Definition to_uint (z : Z) : Z := z mod 2 ^ 32.

(** The argument every operation gives to [setTiming]:
    [dev.KHz == 0 ? 0 : static_cast<unsigned int>(dev.KHz)]. *)
Definition timing_arg (dev : Device) : Z :=
  if KHz dev =? 0 then 0 else to_uint (KHz dev).

(** ** hwSPI *)

Module hwSPI.

Record t := mk {
  io_SCLK : Z; io_MOSI : Z; io_MISO : Z; io_CS : Z; io_WP : Z;
  wait_clk : Z; wait_byte : Z; wait_bit : Z
}.

Definition with_waits (spi : t) (clk byte bit : Z) : t :=
  {| io_SCLK := io_SCLK spi; io_MOSI := io_MOSI spi; io_MISO := io_MISO spi;
     io_CS := io_CS spi; io_WP := io_WP spi;
     wait_clk := clk; wait_byte := byte; wait_bit := bit |}.

(** [if (wait != 0) gpioDelay(wait);] *)
Definition delay (wait : Z) : M unit :=
  if wait =? 0 then ret tt else gpioDelay wait.

Definition stop (spi : t) : M unit :=
  gpioWrite (io_CS spi) 1 ;; delay (wait_byte spi).

Definition start (spi : t) : M unit :=
  gpioWrite (io_CS spi) 0 ;; delay (wait_byte spi).

Definition setWriteProtect (spi : t) (enable : bool) : M unit :=
  gpioWrite (io_WP spi) (if enable then 1 else 0).

Definition init (spi : t) : M unit :=
  gpioSetMode (io_SCLK spi) PI_OUTPUT ;;
  gpioSetMode (io_MOSI spi) PI_OUTPUT ;;
  gpioSetMode (io_CS spi) PI_OUTPUT ;;
  gpioSetMode (io_WP spi) PI_OUTPUT ;;
  gpioSetMode (io_MISO spi) PI_INPUT ;;
  gpioWrite (io_SCLK spi) 0 ;;
  gpioWrite (io_MOSI spi) 0 ;;
  gpioWrite (io_MISO spi) 0 ;;
  stop spi ;;
  setWriteProtect spi true.

(** The constructor: the timing members start at 0. *)
Definition new (SCLK MOSI MISO CS WP : Z) : M t :=
  let spi := {| io_SCLK := SCLK; io_MOSI := MOSI; io_MISO := MISO;
                io_CS := CS; io_WP := WP;
                wait_clk := 0; wait_byte := 0; wait_bit := 0 |} in
  init spi ;; ret spi.

Definition setTiming (spi : t) (KHz : Z) : t :=
  if KHz =? 0 then with_waits spi 0 0 0
  else
    let halfUs := 500 / KHz in
    let halfUs := if halfUs <? 1 then 1 else halfUs in
    with_waits spi halfUs halfUs halfUs.

(** The loop of [tx_byte]; [n] is [bitIndex + 1]. *)
Fixpoint tx_bits (spi : t) (byte : Z) (n : nat) : M unit :=
  match n with
  | O => ret tt
  | S bitIndex =>
      gpioWrite (io_MOSI spi) (Z.land (Z.shiftr byte (Z.of_nat bitIndex)) 1) ;;
      delay (wait_bit spi) ;;
      gpioWrite (io_SCLK spi) 1 ;;
      delay (wait_clk spi) ;;
      gpioWrite (io_SCLK spi) 0 ;;
      delay (wait_clk spi) ;;
      tx_bits spi byte bitIndex
  end.

Definition tx_byte (spi : t) (byte : Z) : M unit :=
  tx_bits spi byte 8 ;; delay (wait_byte spi).

(** The loop of [rx_byte]; [n] is the number of bits still to read. *)
Fixpoint rx_bits (spi : t) (n : nat) (data : Z) : M Z :=
  match n with
  | O => ret data
  | S n' =>
      let data := Z.shiftl data 1 mod 256 in
      level <- gpioRead (io_MISO spi) ;
      let cBit := negb (level =? 0) in
      let data := if cBit then Z.lor data 1 else data in
      delay (wait_bit spi) ;;
      gpioWrite (io_SCLK spi) 1 ;;
      delay (wait_clk spi) ;;
      gpioWrite (io_SCLK spi) 0 ;;
      delay (wait_clk spi) ;;
      rx_bits spi n' data
  end.

Definition rx_byte (spi : t) : M Z :=
  data <- rx_bits spi 8 0 ;
  delay (wait_byte spi) ;;
  ret data.

Definition readByte (spi : t) : M Z := rx_byte spi.
Definition writeByte (spi : t) (byte : Z) : M unit := tx_byte spi byte.

Definition readJedecId (spi : t) (id : ChipId) : M (bool * ChipId) :=
  start spi ;;
  tx_byte spi Cmd.S25.READ_JEDEC_ID ;;
  m <- rx_byte spi ;
  ty <- rx_byte spi ;
  c <- rx_byte spi ;
  stop spi ;;
  ret (true, {| manufacturer := m; memoryType := ty; capacity := c |}).

Definition readId (spi : t) (id : ChipId) : M (bool * ChipId) :=
  readJedecId spi id.

End hwSPI.

(** The transports behind the [FlashInterface] base class. *)
Inductive FlashInterface :=
| IfSPI (spi : hwSPI.t)
| IfI2C
| IfDSPI
| IfQSPI.

(** The virtual [readId]: the three stubs return false and leave [id]. *)
Definition readId (hw : FlashInterface) (id : ChipId) : M (bool * ChipId) :=
  match hw with
  | IfSPI spi => hwSPI.readId spi id
  | IfI2C | IfDSPI | IfQSPI => ret (false, id)
  end.

(** ** filemanager: the buffered binary file *)

Module BinFile.

Definition MAX_RAM_BYTES : Z := 10485760.

(** The file object.  [byteArray] is the heap array behind
    [byteArrayPtr], a function of the index: the cells that were never
    written hold whatever they hold.  The [std::fstream] is the bytes
    not yet read ([unread]), the bytes written so far ([written]) and
    whether the stream is still good: a stream opened with mode 'r'
    cannot be written, and a stream that failed does nothing. *)
Record t := mk {
  filename : string;
  readMode : bool;
  byteArray : Z -> Z;
  byteArrayPos : Z;       (* unsigned int *)
  byteArrayLen : Z;       (* unsigned int *)
  unread : list Z;
  written : list Z;
  good : bool
}.

Definition getFilename (f : t) : string := filename f.
Definition isReadMode (f : t) : bool := readMode f.

(** The cells [0 .. n-1] of the array. *)
Definition cells (a : Z -> Z) (n : Z) : list Z :=
  map (fun i => a (Z.of_nat i)) (seq 0 (Z.to_nat n)).

(** [file.write(byteArrayPtr, byteArrayPos); byteArrayPos = 0;] *)
Definition flushArrayToFile (f : t) : t :=
  if byteArrayPos f =? 0 then f
  else
    let ok := good f && negb (readMode f) in
    {| filename := filename f; readMode := readMode f;
       byteArray := byteArray f;
       byteArrayPos := 0;
       byteArrayLen := byteArrayLen f;
       unread := unread f;
       written := if ok then written f ++ cells (byteArray f) (byteArrayPos f)
                  else written f;
       good := ok |}.

Definition pushByteToArray (f : t) (byte : Z) : t :=
  let f := if byteArrayPos f =? MAX_RAM_BYTES then flushArrayToFile f else f in
  {| filename := filename f; readMode := readMode f;
     byteArray := fun i => if i =? byteArrayPos f then byte else byteArray f i;
     byteArrayPos := to_uint (byteArrayPos f + 1);
     byteArrayLen := byteArrayLen f;
     unread := unread f; written := written f; good := good f |}.

(** The first [n] bytes of a stream, and what is left after them. *)
Fixpoint take (l : list Z) (n : Z) : list Z :=
  match l with
  | [] => []
  | x :: l' => if 0 <? n then x :: take l' (n - 1) else []
  end.

Fixpoint drop (l : list Z) (n : Z) : list Z :=
  match l with
  | [] => []
  | x :: l' => if 0 <? n then drop l' (n - 1) else l
  end.

(** [file.read(byteArrayPtr, MAX_RAM_BYTES)] and [file.gcount()]: the
    bytes taken, the bytes left, and whether the stream is still good
    (a short read sets eofbit and failbit). *)
Definition stream_read (f : t) : list Z * list Z * bool :=
  if good f then
    (take (unread f) MAX_RAM_BYTES, drop (unread f) MAX_RAM_BYTES,
     (Z.of_nat (List.length (unread f)) >=? MAX_RAM_BYTES))
  else ([], unread f, false).

(** Returns the flag, the byte (meaningful when the flag is true) and
    the file. *)
Definition pullByteFromFile (f : t) : bool * Z * t :=
  if negb (readMode f) then (false, 0, f)
  else
    let refill := byteArrayLen f <=? byteArrayPos f in
    let '(got, rest, ok) := if refill then stream_read f
                            else ([], unread f, good f) in
    let arr := if refill
               then fun i => if (0 <=? i) && (i <? Z.of_nat (List.length got))
                             then nth (Z.to_nat i) got 0 else byteArray f i
               else byteArray f in
    let len := if refill then to_uint (Z.of_nat (List.length got)) else byteArrayLen f in
    let pos := if refill then 0 else byteArrayPos f in
    if refill && (len =? 0) then
      (false, 0,
       {| filename := filename f; readMode := readMode f; byteArray := arr;
          byteArrayPos := pos; byteArrayLen := len;
          unread := rest; written := written f; good := ok |})
    else
      (true, arr pos,
       {| filename := filename f; readMode := readMode f; byteArray := arr;
          byteArrayPos := to_uint (pos + 1); byteArrayLen := len;
          unread := rest; written := written f; good := ok |}).

(** What the sink holds: the bytes already written to the file followed
    by the bytes waiting in the array. *)
Definition sunk (f : t) : list Z :=
  written f ++ cells (byteArray f) (byteArrayPos f).

(** The destructor: a file opened for writing with bytes waiting in
    the array is flushed, then the stream is closed.  The result is the
    file as it is left on disk. *)
Definition destroy (f : t) : t :=
  if negb (readMode f) && negb (byteArrayPos f =? 0) then flushArrayToFile f else f.

End BinFile.

(** ** namespace splasher *)

Module splasher.

Definition unsupported (dev : Device) : bool :=
  negb (IFACE_eqb (interface dev) SPI) || negb (PROT_eqb (protocol dev) S25).

(** [dynamic_cast<hwSPI*>(&hw)] succeeds on [IfSPI] only; the transport
    is passed by reference, so the one with the new timing is returned. *)
Definition initRead (dev : Device) (hw : FlashInterface) : M (Device * FlashInterface) :=
  match hw with
  | IfSPI spi =>
      let spi := hwSPI.setTiming spi (timing_arg dev) in
      '(valid, id) <- readId (IfSPI spi) (jedecId dev) ;
      ret (set_jedec dev id valid, IfSPI spi)
  | _ => ret (dev, hw)
  end.

Definition initWrite (dev : Device) (hw : FlashInterface) : M unit :=
  match hw with
  | IfSPI spi => hwSPI.setWriteProtect spi false
  | _ => ret tt
  end.

Definition new_dut : M hwSPI.t :=
  hwSPI.new Pinout.SPI_SCLK Pinout.SPI_MOSI Pinout.SPI_MISO
            Pinout.SPI_CS Pinout.SPI_WP.

Definition readJedecId (dev : Device) : M (bool * Device) :=
  if negb (IFACE_eqb (interface dev) SPI) then ret (false, dev)
  else
    dut <- new_dut ;
    let dut := hwSPI.setTiming dut (timing_arg dev) in
    '(valid, id) <- hwSPI.readJedecId dut (jedecId dev) ;
    ret (valid, set_jedec dev id valid).

(** [while (true)] of [s25_waitBusy]: one poll per unit of fuel. *)
Fixpoint s25_waitBusy (fuel : nat) (dut : hwSPI.t) : M unit :=
  match fuel with
  | O => out_of_fuel
  | S fuel' =>
      hwSPI.start dut ;;
      hwSPI.tx_byte dut Cmd.S25.READ_STATUS ;;
      st <- hwSPI.rx_byte dut ;
      hwSPI.stop dut ;;
      if Z.land st 1 =? 0 then ret tt else s25_waitBusy fuel' dut
  end.

(** The inner [for] of [writeFileToFlash]; [n] is [chunk - i], and the
    [break] leaves the loop with the rest of the chunk unsent. *)
Fixpoint page_data (dut : hwSPI.t) (n : nat) (file : BinFile.t) : M BinFile.t :=
  match n with
  | O => ret file
  | S n' =>
      let '(ok, b, file) := BinFile.pullByteFromFile file in
      if ok then hwSPI.tx_byte dut b ;; page_data dut n' file
      else ret file
  end.

Section Target.

Variable ulong_bits : Z.

(** Arithmetic on [unsigned long]. *)
Definition ulong (z : Z) : Z := z mod 2 ^ ulong_bits.

(** The [for] of [dumpFlashToFile]. *)
Fixpoint dump_loop (n : nat) (dut : hwSPI.t) (maxByte cByte KiBDone : Z)
         (file : BinFile.t) : M BinFile.t :=
  if cByte <? maxByte then
    match n with
    | O => out_of_fuel
    | S n' =>
        b <- hwSPI.readByte dut ;
        let file := BinFile.pushByteToArray file b in
        if cByte mod 1024 =? 0 then
          let KiBDone := ulong (KiBDone + 1) in
          cout (MsgDumped KiBDone) ;;
          dump_loop n' dut maxByte (ulong (cByte + 1)) KiBDone file
        else
          dump_loop n' dut maxByte (ulong (cByte + 1)) KiBDone file
    end
  else ret file.

(** The loop runs [maxByte - 1] times at most, so [maxByte] is fuel
    enough. *)
Definition dumpFlashToFile (dev : Device) (file : BinFile.t)
  : M (Device * BinFile.t) :=
  if unsupported dev then
    cerr MsgDumpUnsupported ;; ret (dev, file)
  else
    cout (MsgReading (bytes dev) (offset dev) (KHz dev) (BinFile.getFilename file)) ;;
    dut <- new_dut ;
    let dut := hwSPI.setTiming dut (timing_arg dev) in
    '(dev, hw) <- initRead dev (IfSPI dut) ;
    let dut := match hw with IfSPI spi => spi | _ => dut end in
    hwSPI.start dut ;;
    hwSPI.tx_byte dut Cmd.S25.READ ;;
    hwSPI.tx_byte dut (Z.land (Z.shiftr (offset dev) 16) 0xFF) ;;
    hwSPI.tx_byte dut (Z.land (Z.shiftr (offset dev) 8) 0xFF) ;;
    hwSPI.tx_byte dut (Z.land (offset dev) 0xFF) ;;
    let KiBDone := 0 in
    let maxByte := ulong (bytes dev + 1) in
    file <- dump_loop (Z.to_nat maxByte) dut maxByte 1 KiBDone file ;
    cout (MsgDumpFinished (BinFile.getFilename file)) ;;
    hwSPI.stop dut ;;
    ret (dev, file).

(** The [while (remaining > 0)] of [writeFileToFlash]; [total] is
    [dev.bytes].  [n] bounds the pages, [fuel] each busy-wait. *)
Fixpoint write_loop (fuel n : nat) (dut : hwSPI.t)
         (total addr remaining KiBDone : Z) (file : BinFile.t) : M BinFile.t :=
  if 0 <? remaining then
    match n with
    | O => out_of_fuel
    | S n' =>
        let chunk := to_uint (if Limits.S25_PAGE_SIZE <? remaining
                              then Limits.S25_PAGE_SIZE else remaining) in
        hwSPI.start dut ;;
        hwSPI.tx_byte dut Cmd.S25.WRITE_ENABLE ;;
        hwSPI.stop dut ;;
        hwSPI.start dut ;;
        hwSPI.tx_byte dut Cmd.S25.PAGE_PROGRAM ;;
        hwSPI.tx_byte dut (Z.land (Z.shiftr addr 16) 0xFF) ;;
        hwSPI.tx_byte dut (Z.land (Z.shiftr addr 8) 0xFF) ;;
        hwSPI.tx_byte dut (Z.land addr 0xFF) ;;
        file <- page_data dut (Z.to_nat chunk) file ;
        hwSPI.stop dut ;;
        s25_waitBusy fuel dut ;;
        let addr := ulong (addr + chunk) in
        let remaining := ulong (remaining - chunk) in
        if KiBDone <? ulong (total - remaining) / 1024 then
          let KiBDone := ulong (total - remaining) / 1024 in
          cout (MsgWritten KiBDone) ;;
          write_loop fuel n' dut total addr remaining KiBDone file
        else
          write_loop fuel n' dut total addr remaining KiBDone file
    end
  else ret file.

(** Every page takes at least one byte off [remaining], so
    [dev.bytes] pages are enough. *)
Definition writeFileToFlash (fuel : nat) (dev : Device) (file : BinFile.t)
  : M BinFile.t :=
  if unsupported dev then
    cerr MsgWriteUnsupported ;; ret file
  else if negb (BinFile.isReadMode file) then
    cerr MsgWriteNeedsReadMode ;; ret file
  else
    cout (MsgWriting (bytes dev) (BinFile.getFilename file) (offset dev)) ;;
    dut <- new_dut ;
    let dut := hwSPI.setTiming dut (timing_arg dev) in
    initWrite dev (IfSPI dut) ;;
    let addr := offset dev in
    let remaining := bytes dev in
    let KiBDone := 0 in
    file <- write_loop fuel (Z.to_nat (bytes dev)) dut (bytes dev)
                       addr remaining KiBDone file ;
    cout MsgWriteFinished ;;
    ret file.

(** The [while (addr < end)] of [eraseFlash]. *)
Fixpoint erase_loop (fuel n : nat) (dut : hwSPI.t) (addr end_ : Z) : M unit :=
  if addr <? end_ then
    match n with
    | O => out_of_fuel
    | S n' =>
        hwSPI.start dut ;;
        hwSPI.tx_byte dut Cmd.S25.WRITE_ENABLE ;;
        hwSPI.stop dut ;;
        hwSPI.start dut ;;
        hwSPI.tx_byte dut Cmd.S25.SECTOR_ERASE_4K ;;
        hwSPI.tx_byte dut (Z.land (Z.shiftr addr 16) 0xFF) ;;
        hwSPI.tx_byte dut (Z.land (Z.shiftr addr 8) 0xFF) ;;
        hwSPI.tx_byte dut (Z.land addr 0xFF) ;;
        hwSPI.stop dut ;;
        s25_waitBusy fuel dut ;;
        erase_loop fuel n' dut (ulong (addr + 4096)) end_
    end
  else ret tt.

Definition eraseFlash (fuel : nat) (dev : Device) (byteCount : Z) : M unit :=
  if unsupported dev then
    cerr MsgEraseUnsupported ;; ret tt
  else
    dut <- new_dut ;
    let dut := hwSPI.setTiming dut (timing_arg dev) in
    initWrite dev (IfSPI dut) ;;
    hwSPI.start dut ;;
    hwSPI.tx_byte dut Cmd.S25.WRITE_ENABLE ;;
    hwSPI.stop dut ;;
    hwSPI.start dut ;;
    (if byteCount =? 0 then
       hwSPI.tx_byte dut Cmd.S25.CHIP_ERASE ;;
       cout MsgChipEraseStarted
     else
       let addr := offset dev in
       let end_ := ulong (offset dev + byteCount) in
       erase_loop fuel fuel dut addr end_ ;;
       cout (MsgErased byteCount (offset dev))) ;;
    hwSPI.stop dut.

End Target.

End splasher.

(** ** main.cpp: the speed argument *)

Inductive Exn := invalid_argument | out_of_range.

(** What a call that may throw gives back. *)
Inductive Outcome (A : Type) :=
| Returned (a : A)
| Thrown (e : Exn).
Arguments Returned {A} a.
Arguments Thrown {A} e.

Definition INT_MAX : Z := 2147483647.

Definition is_digit (c : ascii) : bool :=
  let n := nat_of_ascii c in (48 <=? n)%nat && (n <=? 57)%nat.

(** [s.find_first_not_of("0123456789") == std::string::npos] *)
Fixpoint all_digits (s : string) : bool :=
  match s with
  | EmptyString => true
  | String c s' => is_digit c && all_digits s'
  end.

Fixpoint decimal_value (s : string) (acc : Z) : Z :=
  match s with
  | EmptyString => acc
  | String c s' => decimal_value s' (10 * acc + (Z.of_nat (nat_of_ascii c) - 48))
  end.

(** [std::stoi] on a string of decimal digits, the only strings
    [convertKHz] gives it: no digit at all is [invalid_argument], a value
    that does not fit an [int] is [out_of_range]. *)
Definition stoi (s : string) : Outcome Z :=
  match s with
  | EmptyString => Thrown invalid_argument
  | _ => let v := decimal_value s 0 in
         if INT_MAX <? v then Thrown out_of_range else Returned v
  end.

Definition convertKHz (speedString : string) : M (Outcome Z) :=
  if String.eqb speedString "max" then ret (Returned 0)
  else if negb (all_digits speedString) then
    cerr MsgSpeedNotValid ;; ret (Returned (-1))
  else
    match stoi speedString with
    | Thrown e => ret (Thrown e)
    | Returned speedInt =>
        if 1000 <? speedInt then
          cerr MsgSpeedTooHigh ;; ret (Returned (-2))
        else ret (Returned speedInt)
    end.

(** How [main] goes on after a step: with a value, by [exit], or by an
    exception nobody catches. *)
Inductive Flow (A : Type) :=
| Continue (a : A)
| Exit (status : Z)
| Uncaught (e : Exn).
Arguments Continue {A} a.
Arguments Exit {A} status.
Arguments Uncaught {A} e.

Definition EXIT_FAILURE : Z := 1.

(** The speed handling of [main] (the [if (CLIah::isDetected("Speed"))]
    before the byte count is read): [speed] is the sub-string of the
    speed argument when it was given; the result is [priDev.KHz]. *)
Definition main_speed (speed : option string) : M (Flow Z) :=
  match speed with
  | Some speedString =>
      r <- convertKHz speedString ;
      match r with
      | Thrown e => ret (Uncaught e)
      | Returned KHzVal =>
          if KHzVal <? 0 then gpioTerminate ;; ret (Exit EXIT_FAILURE)
          else ret (Continue KHzVal)
      end
  | None => ret (Continue 100)
  end.

(** ** What the pins show: the events of each transport primitive *)

Module Wire.
Import hwSPI.

Definition tr_delay (wait : Z) : list Event :=
  if wait =? 0 then [] else [GpioDelay wait].

Definition tr_start (spi : t) : list Event :=
  GpioWrite (io_CS spi) 0 :: tr_delay (wait_byte spi).

Definition tr_stop (spi : t) : list Event :=
  GpioWrite (io_CS spi) 1 :: tr_delay (wait_byte spi).

Definition tr_pulse (spi : t) : list Event :=
  GpioWrite (io_SCLK spi) 1 :: tr_delay (wait_clk spi)
  ++ GpioWrite (io_SCLK spi) 0 :: tr_delay (wait_clk spi).

(** One bit out: the level on data-out, then the pulse. *)
Definition tr_tx_bit (spi : t) (level : Z) : list Event :=
  GpioWrite (io_MOSI spi) level :: tr_delay (wait_bit spi) ++ tr_pulse spi.

(** One bit in: the sample of data-in, then the pulse. *)
Definition tr_rx_bit (spi : t) (level : bool) : list Event :=
  GpioRead (io_MISO spi) (if level then 1 else 0)
  :: tr_delay (wait_bit spi) ++ tr_pulse spi.

(** Bit [i] of a byte, as a level. *)
Definition bit (byte : Z) (i : nat) : Z := if Z.testbit byte (Z.of_nat i) then 1 else 0.

(** The bits [n-1 .. 0] of [byte], one after the other. *)
Definition tr_tx_bits (spi : t) (byte : Z) (n : nat) : list Event :=
  flat_map (fun i => tr_tx_bit spi (bit byte i)) (rev (seq 0 n)).

(** A byte out: bit 7 first, bit 0 last. *)
Definition tr_tx (spi : t) (byte : Z) : list Event :=
  tr_tx_bits spi byte 8 ++ tr_delay (wait_byte spi).

(** A byte in, from the eight levels sampled. *)
Definition tr_rx (spi : t) (levels : list bool) : list Event :=
  flat_map (tr_rx_bit spi) levels ++ tr_delay (wait_byte spi).

(** The number whose binary digits are [levels], the first one the most
    significant. *)
Definition byte_of_bits (levels : list bool) : Z :=
  fold_left (fun acc (b : bool) => 2 * acc + (if b then 1 else 0)) levels 0.

(** One turn of the loop of [rx_byte] on the accumulator. *)
Definition rx_acc (data : Z) (level : bool) : Z :=
  let data := Z.shiftl data 1 mod 256 in
  if level then Z.lor data 1 else data.

(** The eight bits of a byte, the most significant first. *)
Definition bits_of_byte (byte : Z) : list bool :=
  map (fun i => Z.testbit byte (Z.of_nat i)) (rev (seq 0 8)).

(** The byte that eight reads of the input line [inp] give, from read
    [n] on, and [cnt] such bytes one after the other. *)
Definition byte_at (inp : nat -> bool) (n : nat) : Z :=
  byte_of_bits (map (fun i => inp (n + i)%nat) (seq 0 8)).

Definition bytes_at (inp : nat -> bool) (n cnt : nat) : list Z :=
  map (fun j => byte_at inp (n + 8 * j)%nat) (seq 0 cnt).

(** The [cnt] bytes the input line of [w] will give, [k] reads from now. *)
Definition input_bytes (w : World) (k cnt : nat) : list Z :=
  bytes_at (miso w) (nread w + k) cnt.

Definition tr_init (spi : t) : list Event :=
  [ GpioSetMode (io_SCLK spi) PI_OUTPUT; GpioSetMode (io_MOSI spi) PI_OUTPUT;
    GpioSetMode (io_CS spi) PI_OUTPUT; GpioSetMode (io_WP spi) PI_OUTPUT;
    GpioSetMode (io_MISO spi) PI_INPUT;
    GpioWrite (io_SCLK spi) 0; GpioWrite (io_MOSI spi) 0;
    GpioWrite (io_MISO spi) 0 ]
  ++ tr_stop spi ++ [GpioWrite (io_WP spi) 1].

(** The levels driven on [pin], oldest first. *)
Definition driven (pin : Z) (evs : list Event) : list bool :=
  flat_map (fun e => match e with
                     | GpioWrite p level =>
                         if p =? pin then [negb (level =? 0)] else []
                     | _ => []
                     end) evs.

(** A loop-backed line: data-in presents the levels that were driven
    on data-out by [evs], one per sample, in the order they were
    driven. *)
Definition loop_back (spi : t) (evs : list Event) : World :=
  {| miso := fun n => nth n (driven (io_MOSI spi) evs) false;
     nread := 0; trace := [] |}.

(** A line merely tied: data-in shows the level data-out holds, which
    is the last one driven by [evs] for as long as nothing else is
    driven. *)
Definition tied (spi : t) (evs : list Event) : World :=
  {| miso := fun _ => last (driven (io_MOSI spi) evs) false;
     nread := 0; trace := [] |}.

End Wire.

(** ** What the chip sees: the bus, decoded from the pins *)

Module Bus.

Inductive BusEvent :=
| Select                (* chip-select driven low *)
| Deselect              (* chip-select driven high *)
| Sent (byte : Z)       (* eight bits clocked out on data-out *)
| Received (byte : Z).  (* eight bits clocked in from data-in *)

(** A probe on the default pinout.  [pending] is the bit on the data
    line waiting for its clock edge, with its direction ([true]: out);
    [shift] holds the bits of the byte under way. *)
Record Probe := mkProbe {
  pending : option (bool * bool);
  shift : list bool;
  seen : list BusEvent
}.

Definition probe_clock (st : Probe) : Probe :=
  match pending st with
  | None => st
  | Some (out, level) =>
      let bits := shift st ++ [level] in
      if (List.length bits =? 8)%nat then
        mkProbe None []
                (seen st ++ [if out then Sent (Wire.byte_of_bits bits)
                             else Received (Wire.byte_of_bits bits)])
      else mkProbe None bits (seen st)
  end.

Definition probe_step (st : Probe) (e : Event) : Probe :=
  match e with
  | GpioWrite pin level =>
      if pin =? Pinout.SPI_CS then
        mkProbe (pending st) (shift st)
                (seen st ++ [if level =? 0 then Select else Deselect])
      else if pin =? Pinout.SPI_SCLK then
        (if level =? 0 then st else probe_clock st)
      else if pin =? Pinout.SPI_MOSI then
        mkProbe (Some (true, negb (level =? 0))) (shift st) (seen st)
      else st
  | GpioRead pin level =>
      if pin =? Pinout.SPI_MISO then
        mkProbe (Some (false, negb (level =? 0))) (shift st) (seen st)
      else st
  | _ => st
  end.

Definition probe (st : Probe) (evs : list Event) : Probe :=
  fold_left probe_step evs st.

Definition bus_view (evs : list Event) : list BusEvent :=
  seen (probe (mkProbe None [] []) evs).

(** [evs] shows [out] on the bus, whatever was seen before, and ends
    between two bytes as it began. *)
Definition decodes (evs : list Event) (out : list BusEvent) : Prop :=
  forall st, shift st = [] ->
    shift (probe st evs) = [] /\ seen (probe st evs) = seen st ++ out.

(** No select while the chip is selected.  [open] tells whether it is. *)
Fixpoint frames_ok (open : bool) (l : list BusEvent) : bool :=
  match l with
  | [] => true
  | Select :: l' => if open then false else frames_ok true l'
  | Deselect :: l' => frames_ok false l'
  | _ :: l' => frames_ok open l'
  end.

Definition BusEvent_eqb (a b : BusEvent) : bool :=
  match a, b with
  | Select, Select | Deselect, Deselect => true
  | Sent x, Sent y | Received x, Received y => x =? y
  | _, _ => false
  end.

(** How many times [e] shows on the bus. *)
Definition count (e : BusEvent) (l : list BusEvent) : nat :=
  List.length (filter (BusEvent_eqb e) l).

End Bus.

(** ** Inputs to run the operations on *)

(** An input line that stays low: every identity and status byte reads
    0, so the chip is never busy. *)
Definition quiet : World :=
  {| miso := fun _ => false; nread := 0; trace := [] |}.

(** An input line that stays high: every byte reads 0xFF, so the chip
    is busy for ever. *)
Definition high : World :=
  {| miso := fun _ => true; nread := 0; trace := [] |}.

(** The device as its constructor leaves it, with the identity bytes,
    which the constructor does not initialise, at 0. *)
Definition default_Device : Device :=
  {| interface := SPI; protocol := S25; KHz := 100; bytes := 0; offset := 0;
     jedecId := {| manufacturer := 0; memoryType := 0; capacity := 0 |};
     jedecValid := false |}.

Definition with_range (dev : Device) (count start : Z) : Device :=
  {| interface := interface dev; protocol := protocol dev; KHz := KHz dev;
     bytes := count; offset := start;
     jedecId := jedecId dev; jedecValid := jedecValid dev |}.

Definition with_KHz (dev : Device) (khz : Z) : Device :=
  {| interface := interface dev; protocol := protocol dev; KHz := khz;
     bytes := bytes dev; offset := offset dev;
     jedecId := jedecId dev; jedecValid := jedecValid dev |}.

Definition with_pairing (dev : Device) (i : IFACE) (p : PROT) : Device :=
  {| interface := i; protocol := p; KHz := KHz dev;
     bytes := bytes dev; offset := offset dev;
     jedecId := jedecId dev; jedecValid := jedecValid dev |}.

(** A file as [BinFile(name, 'r')] leaves it, the file on disk holding
    [content], and as [BinFile(name, 'w')] leaves it. *)
Definition opened_for_read (name : string) (content : list Z) : BinFile.t :=
  {| BinFile.filename := name; BinFile.readMode := true;
     BinFile.byteArray := fun _ => 0;
     BinFile.byteArrayPos := 0; BinFile.byteArrayLen := 0;
     BinFile.unread := content; BinFile.written := []; BinFile.good := true |}.

Definition opened_for_write (name : string) : BinFile.t :=
  {| BinFile.filename := name; BinFile.readMode := false;
     BinFile.byteArray := fun _ => 0;
     BinFile.byteArrayPos := 0; BinFile.byteArrayLen := 0;
     BinFile.unread := []; BinFile.written := []; BinFile.good := true |}.

(** The events an operation added to the world. *)
Definition events_since (w w' : World) : list Event :=
  skipn (List.length (trace w)) (trace w').

(** [m] run in [w] returns [r], after [k] reads and the events [evs]. *)
Definition Run {A} (m : M A) (w : World) (r : A) (k : nat) (evs : list Event) : Prop :=
  m w = Some (r, advance k evs w).

(** The same, with the events as the bus shows them, in every world
    whose input line is [inp] and that has done [n] reads. *)
Definition Shows {A} (m : M A) (inp : nat -> bool) (n : nat) (r : A) (k : nat)
           (out : list Bus.BusEvent) : Prop :=
  forall w, miso w = inp -> nread w = n ->
    exists evs, Run m w r k evs /\ Bus.decodes evs out.

(** The transport is wired to the default pinout. *)
Definition default_pins (spi : hwSPI.t) : Prop :=
  hwSPI.io_SCLK spi = Pinout.SPI_SCLK /\ hwSPI.io_MOSI spi = Pinout.SPI_MOSI /\
  hwSPI.io_MISO spi = Pinout.SPI_MISO /\ hwSPI.io_CS spi = Pinout.SPI_CS /\
  hwSPI.io_WP spi = Pinout.SPI_WP.

(** The transport every operation builds, before its timing is set. *)
Definition dut0 : hwSPI.t :=
  hwSPI.mk Pinout.SPI_SCLK Pinout.SPI_MOSI Pinout.SPI_MISO
           Pinout.SPI_CS Pinout.SPI_WP 0 0 0.

(** The transport an operation on [dev] works with. *)
Definition dut_of (dev : Device) : hwSPI.t :=
  hwSPI.setTiming dut0 (timing_arg dev).

(** A file that takes what is pushed to it: opened for writing, the
    stream good, the array position within the array. *)
Definition sink_ready (f : BinFile.t) : Prop :=
  BinFile.readMode f = false /\ BinFile.good f = true /\
  0 <= BinFile.byteArrayPos f <= BinFile.MAX_RAM_BYTES.

(** What the bus showed during a run. *)
Definition bus_of {A} (r : option (A * World)) : option (list Bus.BusEvent) :=
  match r with
  | Some (_, w) => Some (Bus.bus_view (trace w))
  | None => None
  end.

(** The diagnostics a run wrote to [std::cerr]. *)
Definition diagnostics (evs : list Event) : list Message :=
  flat_map (fun e => match e with Cerr m => [m] | _ => [] end) evs.

(** The calls to pigpio among the events. *)
Definition pin_accesses (evs : list Event) : list Event :=
  filter (fun e => match e with Cout _ | Cerr _ => false | _ => true end) evs.

(** All the commands of a run are in one transaction: the chip is
    selected once. *)
Definition in_one_transaction (out : list Bus.BusEvent) : Prop :=
  Bus.count Bus.Select out = 1%nat.

(** What one turn of the sector loop of [eraseFlash] shows for the
    sector at [addr], the chip answering the poll with [status]; and
    [cnt] turns from [addr] on, the polls reading the input line [inp]
    from read [pos] on. *)
Definition sector_erase (addr status : Z) : list Bus.BusEvent :=
  [Bus.Select; Bus.Sent 0x06; Bus.Deselect;
   Bus.Select; Bus.Sent 0x20;
   Bus.Sent (Z.land (Z.shiftr addr 16) 0xFF);
   Bus.Sent (Z.land (Z.shiftr addr 8) 0xFF);
   Bus.Sent (Z.land addr 0xFF); Bus.Deselect;
   Bus.Select; Bus.Sent 0x05; Bus.Received status; Bus.Deselect].

Fixpoint sector_erases (inp : nat -> bool) (pos : nat) (addr : Z) (cnt : nat)
  : list Bus.BusEvent :=
  match cnt with
  | O => []
  | S cnt' =>
      sector_erase addr (Wire.byte_at inp pos)
      ++ sector_erases inp (pos + 8) (addr + 4096) cnt'
  end.

(** The chip is never busy: every byte the input line gives has bit 0
    clear. *)
Definition never_busy (inp : nat -> bool) : Prop :=
  forall n : nat, Z.land (Wire.byte_at inp n) 1 = 0.

(** The number of 4096-byte sectors the loop of [eraseFlash] goes
    through for [byteCount] bytes. *)
Definition sectors (byteCount : Z) : nat := Z.to_nat ((byteCount + 4095) / 4096).

(** ** Views of the buffered file *)

(** The cells [pos .. len-1] of the array. *)
Definition slice (a : Z -> Z) (pos len : Z) : list Z :=
  map (fun i => a (pos + Z.of_nat i)) (seq 0 (Z.to_nat (len - pos))).

(** What a file opened for reading has still to give: the bytes left in
    the array, then the bytes not yet read from the stream. *)
Definition unpulled (f : BinFile.t) : list Z :=
  slice (BinFile.byteArray f) (BinFile.byteArrayPos f) (BinFile.byteArrayLen f)
  ++ BinFile.unread f.

(** A file that gives bytes: opened for reading, the position within
    the filled part of the array, and a stream that failed only at its
    end. *)
Definition source_ready (f : BinFile.t) : Prop :=
  BinFile.readMode f = true /\
  0 <= BinFile.byteArrayPos f <= BinFile.byteArrayLen f /\
  BinFile.byteArrayLen f <= BinFile.MAX_RAM_BYTES /\
  (BinFile.good f = false -> BinFile.unread f = []).

(** Up to [n] calls of [pullByteFromFile], stopping at the first that
    returns false: the bytes given and the file after them. *)
Fixpoint pull_many (n : nat) (f : BinFile.t) : list Z * BinFile.t :=
  match n with
  | O => ([], f)
  | S n' =>
      let '(ok, b, f') := BinFile.pullByteFromFile f in
      if ok then
        let '(bs, f'') := pull_many n' f' in (b :: bs, f'')
      else ([], f')
  end.


(** ** Views of the bus *)

(** [k] polls of the status register, the input line [inp] read from
    read [pos] on. *)
Fixpoint status_polls (inp : nat -> bool) (pos k : nat) : list Bus.BusEvent :=
  match k with
  | O => []
  | S k' =>
      [Bus.Select; Bus.Sent 0x05; Bus.Received (Wire.byte_at inp pos); Bus.Deselect]
      ++ status_polls inp (pos + 8) k'
  end.

(** The first [k] status bytes have the busy bit set, the next one has
    it clear. *)
Definition busy_for (inp : nat -> bool) (pos k : nat) : Prop :=
  (forall j, (j < k)%nat -> Z.land (Wire.byte_at inp (pos + 8 * j)) 1 <> 0) /\
  Z.land (Wire.byte_at inp (pos + 8 * k)) 1 = 0.






(** The delays asked of pigpio by the events, in microseconds, oldest
    first. *)
Definition delays (evs : list Event) : list Z :=
  flat_map (fun e => match e with GpioDelay us => [us] | _ => [] end) evs.

(** The half period [setTiming] works out for a rate. *)
Definition half_period (khz : Z) : Z :=
  if khz =? 0 then 0 else Z.max 1 (500 / khz).

(** ** main.cpp: the byte count, the offset, the interface, the dispatch *)

(** What these parts of [main] write to [std::cerr]. *)
Inductive Diagnostic :=
| bytesNotValid             (* message::bytesNotValid *)
| bytesTooLarge             (* message::bytesTooLarge *)
| bytesNotSpecified         (* message::bytesNotSpecified *)
| offsetNotValid            (* message::offsetNotValid *)
| unknownInterface (iface : string).   (* "Unknown interface: ..." *)

(** [s.find_first_not_of("0123456789")], [None] for [npos]. *)
Fixpoint find_first_not_of_digits (s : string) : option nat :=
  match s with
  | EmptyString => None
  | String c s' =>
      if is_digit c then option_map S (find_first_not_of_digits s') else Some 0%nat
  end.

(** [s.pop_back()] on a string that is not empty. *)
Definition pop_back (s : string) : string :=
  String.substring 0 (String.length s - 1) s.

(** [std::stoi(byteString) * multiplier] and what follows it: the
    product of an [int] and an [unsigned int] is an [unsigned int]. *)
Definition convert_digits (byteString : string) (multiplier : Z)
  : list Diagnostic * Outcome Z :=
  match stoi byteString with
  | Thrown e => ([], Thrown e)
  | Returned v =>
      let bytes := to_uint (v * multiplier) in
      if 268435456 <? bytes then ([bytesTooLarge], Returned 0)
      else ([], Returned bytes)
  end.

(** The diagnostics written and the value returned.  [lastIndx] is
    [length() - 1]; it is looked at only when the string holds a
    character that is not a digit, so when the string is not empty and
    [byteString[lastIndx]] is a character of it. *)
Definition convertBytes (byteString : string) : list Diagnostic * Outcome Z :=
  let notNumeral := find_first_not_of_digits byteString in
  let lastIndx := (String.length byteString - 1)%nat in
  match notNumeral with
  | Some i =>
      if negb (i =? lastIndx)%nat then ([bytesNotValid], Returned 0)
      else
        match String.get lastIndx byteString with
        | Some lastChar =>
            if Ascii.eqb lastChar "K" then
              convert_digits (pop_back byteString) 1024
            else if Ascii.eqb lastChar "M" then
              convert_digits (pop_back byteString) 1048576
            else ([bytesNotValid], Returned 0)
        | None => ([bytesNotValid], Returned 0)
        end
  | None => convert_digits byteString 1
  end.

(** The handling of the byte count in [main]: [Erase] and [Write] tell
    whether the flags were given, [Bytes] is the sub-string of the byte
    argument when it was given, [unset] is what [priDev.bytes] holds
    otherwise.  [Exit] stands for [gpioTerminate(); exit(status)]. *)
Definition main_bytes (Erase Write : bool) (Bytes : option string) (unset : Z)
  : list Diagnostic * Flow Z :=
  let needBytes := negb Erase || Write in
  match Bytes with
  | Some byteString =>
      match convertBytes byteString with
      | (said, Thrown e) => (said, Uncaught e)
      | (said, Returned byteVal) =>
          if byteVal =? 0 then (said, Exit EXIT_FAILURE)
          else (said, Continue byteVal)
      end
  | None =>
      if needBytes then ([bytesNotSpecified], Exit EXIT_FAILURE)
      else ([], Continue unset)
  end.

(** The handling of the offset: [priDev.offset] is 0 unless the
    argument is given. *)
Definition main_offset (Offset : option string) : list Diagnostic * Flow Z :=
  match Offset with
  | Some offsetString =>
      match convertBytes offsetString with
      | (said, Thrown e) => (said, Uncaught e)
      | (said, Returned offsetVal) =>
          if offsetVal =? 0 then (said ++ [offsetNotValid], Exit EXIT_FAILURE)
          else (said, Continue offsetVal)
      end
  | None => ([], Continue 0)
  end.



(** Whenever [m] returns, its result satisfies [post] and the levels it
    has written on [pin] are [levels], in that order. *)
Definition Drives {A} (pin : Z) (m : M A) (levels : list bool) (post : A -> Prop)
  : Prop :=
  forall (w : World) (r : A) (w' : World),
    m w = Some (r, w') ->
    post r /\ exists evs : list Event,
                trace w' = trace w ++ evs /\ Wire.driven pin evs = levels.

Definition anything {A} (_ : A) : Prop := True.

(** * Properties *)

(** ** Running a computation: result, reads consumed, events added *)

Lemma advance_advance (k1 k2 : nat) (e1 e2 : list Event) (w : World) :
  advance k2 e2 (advance k1 e1 w) = advance (k1 + k2) (e1 ++ e2) w.
Proof.
  unfold advance; simpl.
  now rewrite Nat.add_assoc, app_assoc.
Qed.

Lemma advance_0_nil (w : World) : advance 0 [] w = w.
Proof.
  destruct w as [m n t]; unfold advance; simpl.
  now rewrite Nat.add_0_r, app_nil_r.
Qed.

Lemma trace_advance (k : nat) (evs : list Event) (w : World) :
  trace (advance k evs w) = trace w ++ evs.
Proof. reflexivity. Qed.

Lemma events_since_advance (k : nat) (evs : list Event) (w : World) :
  events_since w (advance k evs w) = evs.
Proof.
  unfold events_since; rewrite trace_advance.
  rewrite skipn_app, skipn_all, Nat.sub_diag; reflexivity.
Qed.

Lemma samples_advance (k1 : nat) (evs : list Event) (w : World) (k n : nat) :
  samples (advance k1 evs w) k n = samples w (k1 + k) n.
Proof.
  unfold samples; simpl.
  apply map_ext; intro i; f_equal; lia.
Qed.

Lemma samples_S (w : World) (k n : nat) :
  samples w k (S n) = miso w (nread w + k)%nat :: samples w (S k) n.
Proof.
  unfold samples; simpl.
  rewrite Nat.add_0_r; f_equal.
  rewrite <- seq_shift, map_map.
  apply map_ext; intro i; f_equal; lia.
Qed.

Lemma samples_length (w : World) (k n : nat) : List.length (samples w k n) = n.
Proof. unfold samples; now rewrite length_map, length_seq. Qed.

Lemma Run_ret {A} (a : A) (w : World) : Run (ret a) w a 0 [].
Proof. unfold Run, ret; now rewrite advance_0_nil. Qed.

Lemma Run_bind {A B} (m : M A) (f : A -> M B) (w : World)
      (a : A) (k1 : nat) (e1 : list Event) (b : B) (k2 : nat) (e2 : list Event) :
  Run m w a k1 e1 ->
  Run (f a) (advance k1 e1 w) b k2 e2 ->
  Run (bind m f) w b (k1 + k2) (e1 ++ e2).
Proof.
  unfold Run, bind; intros -> ->.
  now rewrite advance_advance.
Qed.

Lemma Run_emit (e : Event) (w : World) : Run (emit e) w tt 0 [e].
Proof. reflexivity. Qed.

Lemma Run_gpioRead (pin : Z) (w : World) :
  Run (gpioRead pin) w (if miso w (nread w) then 1 else 0) 1
      [GpioRead pin (if miso w (nread w) then 1 else 0)].
Proof. reflexivity. Qed.

(** A step that only emits, followed by the rest. *)
Lemma Run_seq {B} (m : M unit) (f : M B) (w : World)
      (e1 : list Event) (b : B) (k2 : nat) (e2 : list Event) :
  Run m w tt 0 e1 ->
  Run f (advance 0 e1 w) b k2 e2 ->
  Run (bind m (fun _ => f)) w b k2 (e1 ++ e2).
Proof.
  intros H1 H2.
  exact (Run_bind m (fun _ => f) w tt 0 e1 b k2 e2 H1 H2).
Qed.

Lemma Run_emit_seq {B} (e : Event) (f : M B) (w : World)
      (b : B) (k : nat) (evs : list Event) :
  Run f (advance 0 [e] w) b k evs ->
  Run (bind (emit e) (fun _ => f)) w b k (e :: evs).
Proof.
  intro H.
  exact (Run_seq (emit e) f w [e] b k evs (Run_emit e w) H).
Qed.

Lemma bind_Run {A B} (m : M A) (f : A -> M B) (w : World)
      (a : A) (k : nat) (evs : list Event) :
  Run m w a k evs -> bind m f w = f a (advance k evs w).
Proof. unfold Run, bind; intros ->; reflexivity. Qed.

Lemma Run_eq {A} (m : M A) (w : World) (r : A) (k k' : nat) (evs evs' : list Event) :
  Run m w r k evs -> k = k' -> evs = evs' -> Run m w r k' evs'.
Proof. intros H -> ->; exact H. Qed.

(** ** The transport primitives on the pins *)

Section Transport.
Import hwSPI Wire.
Variable spi : hwSPI.t.

Lemma Run_delay (wait : Z) (w : World) : Run (delay wait) w tt 0 (tr_delay wait).
Proof.
  unfold delay, tr_delay; destruct (wait =? 0).
  - apply Run_ret.
  - apply Run_emit.
Qed.

Lemma Run_start (w : World) : Run (start spi) w tt 0 (tr_start spi).
Proof.
  apply (Run_emit_seq (GpioWrite (io_CS spi) 0)), Run_delay.
Qed.

Lemma Run_stop (w : World) : Run (stop spi) w tt 0 (tr_stop spi).
Proof.
  apply (Run_emit_seq (GpioWrite (io_CS spi) 1)), Run_delay.
Qed.

(** The clock pulse that ends a bit, and what follows it. *)
Lemma Run_pulse_then {B} (f : M B) (w : World) (b : B) (k : nat) (evs : list Event) :
  Run f (advance 0 (tr_pulse spi) w) b k evs ->
  Run (bind (gpioWrite (io_SCLK spi) 1)
         (fun _ => bind (delay (wait_clk spi))
            (fun _ => bind (gpioWrite (io_SCLK spi) 0)
               (fun _ => bind (delay (wait_clk spi)) (fun _ => f)))))
      w b k (tr_pulse spi ++ evs).
Proof.
  intro H.
  unfold tr_pulse; cbn [app].
  apply (Run_emit_seq (GpioWrite (io_SCLK spi) 1)).
  rewrite <- app_assoc.
  apply Run_seq; [apply Run_delay|].
  cbn [app].
  apply (Run_emit_seq (GpioWrite (io_SCLK spi) 0)).
  apply Run_seq; [apply Run_delay|].
  rewrite !advance_advance; cbn [Nat.add app].
  exact H.
Qed.

(** [(byte >> i) & 0x01] is bit [i] of the byte. *)
Lemma shift_mask_bit (byte : Z) (i : nat) :
  Z.land (Z.shiftr byte (Z.of_nat i)) 1 = bit byte i.
Proof.
  unfold bit.
  change 1 with (Z.ones 1) at 1.
  rewrite Z.land_ones by lia.
  rewrite Z.testbit_odd.
  change (2 ^ 1) with 2.
  rewrite Zmod_odd.
  destruct (Z.odd (Z.shiftr byte (Z.of_nat i))); reflexivity.
Qed.

Lemma tr_tx_bits_S (byte : Z) (n : nat) :
  tr_tx_bits spi byte (S n) = tr_tx_bit spi (bit byte n) ++ tr_tx_bits spi byte n.
Proof.
  unfold tr_tx_bits.
  rewrite seq_S, rev_app_distr; reflexivity.
Qed.

Lemma Run_tx_bit (level : Z) {B} (f : M B) (w : World) (b : B) (k : nat) (evs : list Event) :
  Run f (advance 0 (tr_tx_bit spi level) w) b k evs ->
  Run (bind (gpioWrite (io_MOSI spi) level)
         (fun _ => bind (delay (wait_bit spi))
            (fun _ => bind (gpioWrite (io_SCLK spi) 1)
               (fun _ => bind (delay (wait_clk spi))
                  (fun _ => bind (gpioWrite (io_SCLK spi) 0)
                     (fun _ => bind (delay (wait_clk spi)) (fun _ => f)))))))
      w b k (tr_tx_bit spi level ++ evs).
Proof.
  intro H.
  unfold tr_tx_bit; cbn [app].
  apply (Run_emit_seq (GpioWrite (io_MOSI spi) level)).
  rewrite <- app_assoc.
  apply Run_seq; [apply Run_delay|].
  apply Run_pulse_then.
  rewrite !advance_advance; cbn [Nat.add app].
  exact H.
Qed.

Lemma Run_tx_bits (byte : Z) (n : nat) (w : World) :
  Run (tx_bits spi byte n) w tt 0 (tr_tx_bits spi byte n).
Proof.
  revert w; induction n as [|n IH]; intro w.
  - apply Run_ret.
  - rewrite tr_tx_bits_S.
    cbn [tx_bits].
    rewrite shift_mask_bit.
    apply Run_tx_bit, IH.
Qed.

Lemma Run_tx_byte (byte : Z) (w : World) :
  Run (tx_byte spi byte) w tt 0 (tr_tx spi byte).
Proof.
  unfold tx_byte, tr_tx.
  apply Run_seq; [apply Run_tx_bits | apply Run_delay].
Qed.

Lemma Run_rx_bits (n : nat) : forall (data : Z) (w : World),
  Run (rx_bits spi n data) w (fold_left Wire.rx_acc (samples w 0 n) data) n
      (flat_map (tr_rx_bit spi) (samples w 0 n)).
Proof.
  induction n as [|n IH]; intros data w.
  - apply Run_ret.
  - rewrite samples_S, Nat.add_0_r.
    cbn [rx_bits fold_left flat_map].
    set (lv := miso w (nread w)).
    change (S n) with (1 + n)%nat.
    unfold tr_rx_bit at 1; cbn [app].
    change (GpioRead (io_MISO spi) (if lv then 1 else 0)
              :: (tr_delay (wait_bit spi) ++ tr_pulse spi)
                 ++ flat_map (tr_rx_bit spi) (samples w 1 n))
      with ([GpioRead (io_MISO spi) (if lv then 1 else 0)]
              ++ (tr_delay (wait_bit spi) ++ tr_pulse spi)
                 ++ flat_map (tr_rx_bit spi) (samples w 1 n)).
    eapply Run_bind; [apply Run_gpioRead|].
    fold lv.
    rewrite <- app_assoc.
    apply Run_seq; [apply Run_delay|].
    apply Run_pulse_then.
    rewrite !advance_advance.
    match goal with
    | |- Run _ (advance ?k ?e w) _ _ _ =>
        replace (samples w 1 n) with (samples (advance k e w) 0 n)
          by (rewrite samples_advance; reflexivity)
    end.
    replace (Wire.rx_acc data lv)
      with (if negb ((if lv then 1 else 0) =? 0)
            then Z.lor (Z.shiftl data 1 mod 256) 1 else Z.shiftl data 1 mod 256)
      by (unfold Wire.rx_acc; destruct lv; reflexivity).
    apply IH.
Qed.

End Transport.

(** ** Bytes and their bits *)

Lemma byte_of_bits_of_byte (b : Z) :
  0 <= b < 256 -> Wire.byte_of_bits (Wire.bits_of_byte b) = b.
Proof.
  intro Hb.
  assert (Hall : forallb (fun n => Wire.byte_of_bits (Wire.bits_of_byte (Z.of_nat n))
                                   =? Z.of_nat n) (seq 0 256) = true)
    by (vm_compute; reflexivity).
  rewrite forallb_forall in Hall.
  specialize (Hall (Z.to_nat b)).
  rewrite Z2Nat.id in Hall by lia.
  apply Z.eqb_eq, Hall, in_seq; lia.
Qed.

Lemma rx_acc_byte_of_bits (l : list bool) :
  List.length l = 8%nat -> fold_left Wire.rx_acc l 0 = Wire.byte_of_bits l.
Proof.
  intro H.
  repeat (destruct l as [|? l]; [discriminate H|]).
  destruct l; [|discriminate H].
  repeat match goal with b : bool |- _ => destruct b end; reflexivity.
Qed.

Lemma level_of_bit (byte : Z) (i : nat) :
  negb (Wire.bit byte i =? 0) = Z.testbit byte (Z.of_nat i).
Proof. unfold Wire.bit; destruct (Z.testbit byte (Z.of_nat i)); reflexivity. Qed.

Lemma Run_rx_byte (spi : hwSPI.t) (w : World) :
  Run (hwSPI.rx_byte spi) w (Wire.byte_of_bits (samples w 0 8)) 8
      (Wire.tr_rx spi (samples w 0 8)).
Proof.
  unfold hwSPI.rx_byte, Wire.tr_rx.
  rewrite <- rx_acc_byte_of_bits by apply samples_length.
  change 8%nat with (8 + (0 + 0))%nat at 3.
  eapply Run_bind; [apply Run_rx_bits|].
  rewrite <- (app_nil_r (Wire.tr_delay (hwSPI.wait_byte spi))).
  apply Run_seq; [apply Run_delay | apply Run_ret].
Qed.

(** ** Decoding the pins into bus events *)

Section Decoding.
Import hwSPI Wire Bus.
Variable spi : hwSPI.t.
Hypothesis pins : default_pins spi.

Lemma probe_app (st : Probe) (e1 e2 : list Event) :
  probe st (e1 ++ e2) = probe (probe st e1) e2.
Proof. apply fold_left_app. Qed.

Lemma probe_delay (st : Probe) (wait : Z) : probe st (tr_delay wait) = st.
Proof. unfold tr_delay; destruct (wait =? 0); reflexivity. Qed.

Lemma probe_pulse (st : Probe) : probe st (tr_pulse spi) = probe_clock st.
Proof.
  destruct pins as (Hc & _).
  unfold tr_pulse.
  change (GpioWrite (io_SCLK spi) 1 :: tr_delay (wait_clk spi)
          ++ GpioWrite (io_SCLK spi) 0 :: tr_delay (wait_clk spi))
    with ([GpioWrite (io_SCLK spi) 1] ++ tr_delay (wait_clk spi)
          ++ [GpioWrite (io_SCLK spi) 0] ++ tr_delay (wait_clk spi)).
  rewrite !probe_app, !probe_delay, Hc.
  reflexivity.
Qed.

Lemma probe_tx_bit (st : Probe) (level : Z) :
  probe st (tr_tx_bit spi level)
  = probe_clock (mkProbe (Some (true, negb (level =? 0))) (shift st) (seen st)).
Proof.
  destruct pins as (_ & Hm & _).
  unfold tr_tx_bit.
  change (GpioWrite (io_MOSI spi) level :: tr_delay (wait_bit spi) ++ tr_pulse spi)
    with ([GpioWrite (io_MOSI spi) level] ++ tr_delay (wait_bit spi) ++ tr_pulse spi).
  rewrite !probe_app, probe_delay, probe_pulse, Hm.
  reflexivity.
Qed.

Lemma probe_rx_bit (st : Probe) (level : bool) :
  probe st (tr_rx_bit spi level)
  = probe_clock (mkProbe (Some (false, level)) (shift st) (seen st)).
Proof.
  destruct pins as (_ & _ & Hi & _).
  unfold tr_rx_bit.
  change (GpioRead (io_MISO spi) (if level then 1 else 0)
            :: tr_delay (wait_bit spi) ++ tr_pulse spi)
    with ([GpioRead (io_MISO spi) (if level then 1 else 0)]
            ++ tr_delay (wait_bit spi) ++ tr_pulse spi).
  rewrite !probe_app, probe_delay, probe_pulse, Hi.
  destruct level; reflexivity.
Qed.

Lemma decodes_nil : decodes [] [].
Proof. intros st H; split; [exact H | now rewrite app_nil_r]. Qed.

Lemma decodes_app (e1 e2 : list Event) (o1 o2 : list BusEvent) :
  decodes e1 o1 -> decodes e2 o2 -> decodes (e1 ++ e2) (o1 ++ o2).
Proof.
  intros H1 H2 st Hst.
  rewrite probe_app.
  destruct (H1 st Hst) as [Hs1 Ho1].
  destruct (H2 _ Hs1) as [Hs2 Ho2].
  split; [exact Hs2|].
  now rewrite Ho2, Ho1, app_assoc.
Qed.

Lemma decodes_silent (e : Event) (o : list BusEvent) (evs : list Event) :
  (forall st, probe_step st e = st) -> decodes evs o -> decodes (e :: evs) o.
Proof.
  intros He H st Hst.
  unfold probe; simpl; rewrite He.
  apply H, Hst.
Qed.

Lemma decodes_delay (wait : Z) : decodes (tr_delay wait) [].
Proof. intros st H; rewrite probe_delay; split; [exact H | now rewrite app_nil_r]. Qed.

Lemma decodes_cout (m : Message) : decodes [Cout m] [].
Proof. apply decodes_silent; [reflexivity | apply decodes_nil]. Qed.

Lemma decodes_start : decodes (tr_start spi) [Select].
Proof.
  destruct pins as (_ & _ & _ & Hs & _).
  intros st Hst; unfold tr_start.
  change (GpioWrite (io_CS spi) 0 :: tr_delay (wait_byte spi))
    with ([GpioWrite (io_CS spi) 0] ++ tr_delay (wait_byte spi)).
  rewrite probe_app, probe_delay, Hs.
  split; [exact Hst | reflexivity].
Qed.

Lemma decodes_stop : decodes (tr_stop spi) [Deselect].
Proof.
  destruct pins as (_ & _ & _ & Hs & _).
  intros st Hst; unfold tr_stop.
  change (GpioWrite (io_CS spi) 1 :: tr_delay (wait_byte spi))
    with ([GpioWrite (io_CS spi) 1] ++ tr_delay (wait_byte spi)).
  rewrite probe_app, probe_delay, Hs.
  split; [exact Hst | reflexivity].
Qed.

Lemma decodes_wp (level : Z) : decodes [GpioWrite (io_WP spi) level] [].
Proof.
  destruct pins as (_ & _ & _ & _ & Hw).
  rewrite Hw; apply decodes_silent; [reflexivity | apply decodes_nil].
Qed.

Lemma decodes_init : decodes (tr_init spi) [Deselect].
Proof.
  destruct pins as (Hc & Hm & Hi & Hs & Hw).
  unfold tr_init.
  change [Deselect] with ([] ++ [Deselect] ++ @nil BusEvent).
  apply decodes_app; [|apply decodes_app; [apply decodes_stop | apply decodes_wp]].
  intros st Hst; rewrite Hc, Hm, Hi, Hs, Hw; simpl.
  split; [exact Hst | now rewrite app_nil_r].
Qed.

Lemma probe_clock_partial (d level : bool) (sh : list bool) (sn : list BusEvent) :
  (List.length sh < 7)%nat ->
  probe_clock (mkProbe (Some (d, level)) sh sn) = mkProbe None (sh ++ [level]) sn.
Proof.
  intro H; unfold probe_clock; cbn [pending shift seen].
  destruct (Nat.eqb_spec (List.length (sh ++ [level])) 8) as [E|E]; [|reflexivity].
  rewrite length_app in E; simpl in E; lia.
Qed.

Lemma probe_clock_last (d level : bool) (sh : list bool) (sn : list BusEvent) :
  List.length sh = 7%nat ->
  probe_clock (mkProbe (Some (d, level)) sh sn)
  = mkProbe None [] (sn ++ [if d then Sent (byte_of_bits (sh ++ [level]))
                            else Received (byte_of_bits (sh ++ [level]))]).
Proof.
  intro H; unfold probe_clock; cbn [pending shift seen].
  destruct (Nat.eqb_spec (List.length (sh ++ [level])) 8) as [E|E]; [reflexivity|].
  rewrite length_app in E; simpl in E; lia.
Qed.

(** A bit out or in, on a probe between two bytes or within one. *)
Lemma probe_tx_bit_partial (p : option (bool * bool)) (sh : list bool)
      (sn : list BusEvent) (level : Z) (rest : list Event) :
  (List.length sh < 7)%nat ->
  probe (mkProbe p sh sn) (tr_tx_bit spi level ++ rest)
  = probe (mkProbe None (sh ++ [negb (level =? 0)]) sn) rest.
Proof.
  intro H; rewrite probe_app, probe_tx_bit; cbn [shift seen].
  now rewrite probe_clock_partial.
Qed.

Lemma probe_rx_bit_partial (p : option (bool * bool)) (sh : list bool)
      (sn : list BusEvent) (level : bool) (rest : list Event) :
  (List.length sh < 7)%nat ->
  probe (mkProbe p sh sn) (tr_rx_bit spi level ++ rest)
  = probe (mkProbe None (sh ++ [level]) sn) rest.
Proof.
  intro H; rewrite probe_app, probe_rx_bit; cbn [shift seen].
  now rewrite probe_clock_partial.
Qed.

Lemma decodes_tx (byte : Z) : 0 <= byte < 256 -> decodes (tr_tx spi byte) [Sent byte].
Proof.
  intros Hb [p sh sn] Hst; cbn [shift seen] in *; subst sh.
  unfold tr_tx, tr_tx_bits; simpl rev; cbn [flat_map].
  rewrite <- !app_assoc.
  do 7 (rewrite probe_tx_bit_partial by (cbn [List.length app]; lia); cbn [app]).
  rewrite ?app_nil_l, probe_app, probe_delay, probe_tx_bit; cbn [shift seen].
  rewrite probe_clock_last by reflexivity.
  cbn [shift seen app].
  rewrite !level_of_bit.
  split; [reflexivity|].
  do 3 f_equal.
  exact (byte_of_bits_of_byte byte Hb).
Qed.

Lemma decodes_rx (levels : list bool) :
  List.length levels = 8%nat ->
  decodes (tr_rx spi levels) [Received (byte_of_bits levels)].
Proof.
  intros H [p sh sn] Hst; cbn [shift seen] in *; subst sh.
  repeat (destruct levels as [|? levels]; [discriminate H|]).
  destruct levels; [|discriminate H].
  unfold tr_rx; cbn [flat_map].
  rewrite <- !app_assoc.
  do 7 (rewrite probe_rx_bit_partial by (cbn [List.length app]; lia); cbn [app]).
  rewrite ?app_nil_l, probe_app, probe_delay, probe_rx_bit; cbn [shift seen].
  rewrite probe_clock_last by reflexivity.
  split; reflexivity.
Qed.

End Decoding.

Lemma bus_view_decodes (evs : list Event) (out : list Bus.BusEvent) :
  Bus.decodes evs out -> Bus.bus_view evs = out.
Proof.
  intro H; unfold Bus.bus_view.
  destruct (H (Bus.mkProbe None [] []) eq_refl) as [_ ->]; reflexivity.
Qed.

Lemma default_pins_setTiming (spi : hwSPI.t) (khz : Z) :
  default_pins spi -> default_pins (hwSPI.setTiming spi khz).
Proof.
  unfold hwSPI.setTiming.
  destruct (khz =? 0); intro H; exact H.
Qed.

Lemma default_pins_dut0 : default_pins dut0.
Proof. repeat split. Qed.

Lemma default_pins_dut_of (dev : Device) : default_pins (dut_of dev).
Proof. apply default_pins_setTiming, default_pins_dut0. Qed.

(** ** Operations on the bus *)

Lemma Shows_ret {A} (a : A) (inp : nat -> bool) (n : nat) : Shows (ret a) inp n a 0 [].
Proof.
  intros w _ _; exists []; split; [apply Run_ret | apply decodes_nil].
Qed.

Lemma Shows_bind {A B} (m : M A) (f : A -> M B) (inp : nat -> bool) (n : nat)
      (a : A) (k1 : nat) (o1 : list Bus.BusEvent)
      (b : B) (k2 : nat) (o2 : list Bus.BusEvent) :
  Shows m inp n a k1 o1 ->
  Shows (f a) inp (n + k1) b k2 o2 ->
  Shows (bind m f) inp n b (k1 + k2) (o1 ++ o2).
Proof.
  intros H1 H2 w Hm Hn.
  destruct (H1 w Hm Hn) as (e1 & R1 & D1).
  destruct (H2 (advance k1 e1 w)) as (e2 & R2 & D2).
  - exact Hm.
  - simpl; now rewrite Hn.
  - exists (e1 ++ e2); split.
    + eapply Run_bind; eassumption.
    + apply decodes_app; assumption.
Qed.

Lemma Shows_seq {B} (m : M unit) (f : M B) (inp : nat -> bool) (n : nat)
      (o1 : list Bus.BusEvent) (b : B) (k : nat) (o2 : list Bus.BusEvent) :
  Shows m inp n tt 0 o1 ->
  Shows f inp n b k o2 ->
  Shows (bind m (fun _ => f)) inp n b k (o1 ++ o2).
Proof.
  intros H1 H2.
  apply (Shows_bind m (fun _ => f) inp n tt 0 o1 b k o2 H1).
  now rewrite Nat.add_0_r.
Qed.

Lemma Shows_Run {A} (m : M A) (inp : nat -> bool) (n : nat) (r : A) (k : nat)
      (evs : list Event) (out : list Bus.BusEvent) :
  (forall w, Run m w r k evs) -> Bus.decodes evs out -> Shows m inp n r k out.
Proof. intros H D w _ _; exists evs; split; [apply H | exact D]. Qed.

Lemma Shows_eq {A} (m : M A) (inp : nat -> bool) (n : nat) (r r' : A) (k k' : nat)
      (out out' : list Bus.BusEvent) :
  Shows m inp n r k out -> r = r' -> k = k' -> out = out' ->
  Shows m inp n r' k' out'.
Proof. intros H -> -> ->; exact H. Qed.

Lemma Shows_cout (m : Message) (inp : nat -> bool) (n : nat) :
  Shows (cout m) inp n tt 0 [].
Proof. apply (Shows_Run _ _ _ _ _ [Cout m]); [apply Run_emit | apply decodes_cout]. Qed.

Section OnTheBus.
Import hwSPI Bus.
Variable spi : hwSPI.t.
Hypothesis pins : default_pins spi.
Variable inp : nat -> bool.

Lemma Shows_start (n : nat) : Shows (start spi) inp n tt 0 [Select].
Proof. eapply Shows_Run; [apply Run_start | now apply decodes_start]. Qed.

Lemma Shows_stop (n : nat) : Shows (stop spi) inp n tt 0 [Deselect].
Proof. eapply Shows_Run; [apply Run_stop | now apply decodes_stop]. Qed.

Lemma Shows_tx_byte (byte : Z) (n : nat) :
  0 <= byte < 256 -> Shows (tx_byte spi byte) inp n tt 0 [Sent byte].
Proof.
  intro H; eapply Shows_Run; [apply Run_tx_byte | now apply decodes_tx].
Qed.

Lemma Shows_setWriteProtect (enable : bool) (n : nat) :
  Shows (setWriteProtect spi enable) inp n tt 0 [].
Proof.
  eapply Shows_Run; [intro w; apply Run_emit | now apply decodes_wp].
Qed.

Lemma Shows_rx_byte (n : nat) :
  Shows (rx_byte spi) inp n (Wire.byte_at inp n) 8 [Received (Wire.byte_at inp n)].
Proof.
  intros w Hm Hn.
  exists (Wire.tr_rx spi (samples w 0 8)); split.
  - replace (Wire.byte_at inp n) with (Wire.byte_of_bits (samples w 0 8)).
    + apply Run_rx_byte.
    + unfold Wire.byte_at, samples; rewrite Hm, Hn, Nat.add_0_r; reflexivity.
  - replace (Wire.byte_at inp n) with (Wire.byte_of_bits (samples w 0 8)).
    + apply decodes_rx; [exact pins | apply samples_length].
    + unfold Wire.byte_at, samples; rewrite Hm, Hn, Nat.add_0_r; reflexivity.
Qed.

End OnTheBus.

(** ** Construction and identification *)

Lemma Run_init (spi : hwSPI.t) (w : World) :
  Run (hwSPI.init spi) w tt 0 (Wire.tr_init spi).
Proof.
  unfold hwSPI.init, Wire.tr_init; cbn [app].
  do 8 (apply Run_emit_seq).
  apply Run_seq; [apply Run_stop | apply Run_emit].
Qed.

Lemma Run_new_dut (w : World) :
  Run splasher.new_dut w dut0 0 (Wire.tr_init dut0).
Proof.
  unfold splasher.new_dut, hwSPI.new.
  rewrite <- (app_nil_r (Wire.tr_init dut0)).
  apply Run_seq; [apply Run_init | apply Run_ret].
Qed.

Lemma Shows_new_dut (inp : nat -> bool) (n : nat) :
  Shows splasher.new_dut inp n dut0 0 [Bus.Deselect].
Proof.
  eapply Shows_Run; [apply Run_new_dut | apply decodes_init, default_pins_dut0].
Qed.

Lemma command_byte_range :
  (0 <= Cmd.S25.READ < 256) /\ (0 <= Cmd.S25.WRITE_ENABLE < 256) /\
  (0 <= Cmd.S25.PAGE_PROGRAM < 256) /\ (0 <= Cmd.S25.SECTOR_ERASE_4K < 256) /\
  (0 <= Cmd.S25.CHIP_ERASE < 256) /\ (0 <= Cmd.S25.READ_JEDEC_ID < 256) /\
  (0 <= Cmd.S25.READ_STATUS < 256).
Proof. vm_compute; intuition congruence. Qed.

(** The identity the input line gives, from read [n] on. *)
Lemma Shows_readJedecId (spi : hwSPI.t) (id : ChipId) (inp : nat -> bool) (n : nat) :
  default_pins spi ->
  Shows (hwSPI.readJedecId spi id) inp n
        (true, {| manufacturer := Wire.byte_at inp n;
                  memoryType := Wire.byte_at inp (n + 8);
                  capacity := Wire.byte_at inp (n + 16) |})
        24
        [Bus.Select; Bus.Sent Cmd.S25.READ_JEDEC_ID;
         Bus.Received (Wire.byte_at inp n);
         Bus.Received (Wire.byte_at inp (n + 8));
         Bus.Received (Wire.byte_at inp (n + 16)); Bus.Deselect].
Proof.
  intro pins.
  unfold hwSPI.readJedecId.
  eapply Shows_eq.
  - eapply Shows_seq; [apply Shows_start, pins|].
    eapply Shows_seq; [apply Shows_tx_byte; [exact pins | apply command_byte_range]|].
    eapply Shows_bind; [apply Shows_rx_byte, pins|].
    eapply Shows_bind; [apply Shows_rx_byte, pins|].
    eapply Shows_bind; [apply Shows_rx_byte, pins|].
    eapply Shows_seq; [apply Shows_stop, pins|].
    apply Shows_ret.
  - replace (n + 8 + 8)%nat with (n + 16)%nat by lia; reflexivity.
  - reflexivity.
  - replace (n + 8 + 8)%nat with (n + 16)%nat by lia; reflexivity.
Qed.

Lemma setTiming_idempotent (spi : hwSPI.t) (khz : Z) :
  hwSPI.setTiming (hwSPI.setTiming spi khz) khz = hwSPI.setTiming spi khz.
Proof.
  unfold hwSPI.setTiming; destruct (khz =? 0); reflexivity.
Qed.

Lemma Shows_initRead (dev : Device) (inp : nat -> bool) (n : nat) :
  Shows (splasher.initRead dev (IfSPI (dut_of dev))) inp n
        (set_jedec dev {| manufacturer := Wire.byte_at inp n;
                          memoryType := Wire.byte_at inp (n + 8);
                          capacity := Wire.byte_at inp (n + 16) |} true,
         IfSPI (dut_of dev))
        24
        [Bus.Select; Bus.Sent Cmd.S25.READ_JEDEC_ID;
         Bus.Received (Wire.byte_at inp n);
         Bus.Received (Wire.byte_at inp (n + 8));
         Bus.Received (Wire.byte_at inp (n + 16)); Bus.Deselect].
Proof.
  unfold splasher.initRead, readId, hwSPI.readId.
  unfold dut_of at 1 2; rewrite setTiming_idempotent; fold (dut_of dev).
  eapply Shows_eq.
  - eapply Shows_bind; [apply Shows_readJedecId, default_pins_dut_of|].
    cbv beta iota.
    apply Shows_ret.
  - reflexivity.
  - reflexivity.
  - now rewrite app_nil_r.
Qed.

Lemma Shows_initWrite (dev : Device) (inp : nat -> bool) (n : nat) :
  Shows (splasher.initWrite dev (IfSPI (dut_of dev))) inp n tt 0 [].
Proof. apply Shows_setWriteProtect, default_pins_dut_of. Qed.

(** ** The sequential read *)

Lemma bytes_at_S (inp : nat -> bool) (n cnt : nat) :
  Wire.bytes_at inp n (S cnt)
  = Wire.byte_at inp n :: Wire.bytes_at inp (n + 8) cnt.
Proof.
  unfold Wire.bytes_at; simpl map.
  f_equal.
  - f_equal; lia.
  - rewrite <- seq_shift, map_map.
    apply map_ext; intro j; f_equal; lia.
Qed.

Lemma Shows_dump_loop (ulong_bits : Z) (spi : hwSPI.t) (inp : nat -> bool)
      (maxByte : Z) (cnt : nat) :
  default_pins spi -> maxByte < 2 ^ ulong_bits ->
  forall (fuel : nat) (cByte KiBDone : Z) (file : BinFile.t) (n : nat),
    0 <= cByte -> cByte + Z.of_nat cnt = maxByte -> (cnt <= fuel)%nat ->
    Shows (splasher.dump_loop ulong_bits fuel spi maxByte cByte KiBDone file) inp n
          (fold_left BinFile.pushByteToArray (Wire.bytes_at inp n cnt) file)
          (8 * cnt)
          (map Bus.Received (Wire.bytes_at inp n cnt)).
Proof.
  intros pins Hmax.
  induction cnt as [|cnt IH]; intros fuel cByte KiBDone file n Hc Hsum Hfuel.
  - assert (Hlt : (cByte <? maxByte) = false) by (apply Z.ltb_ge; lia).
    destruct fuel; simpl; rewrite Hlt; apply Shows_ret.
  - assert (Hlt : (cByte <? maxByte) = true) by (apply Z.ltb_lt; lia).
    destruct fuel as [|fuel]; [lia|].
    rewrite bytes_at_S.
    cbn [splasher.dump_loop fold_left map]; rewrite Hlt.
    assert (Hnext : splasher.ulong ulong_bits (cByte + 1) = cByte + 1)
      by (apply Z.mod_small; lia).
    rewrite Hnext.
    eapply Shows_eq.
    + eapply Shows_bind; [apply Shows_rx_byte, pins|].
      cbv beta zeta.
      destruct (cByte mod 1024 =? 0).
      * eapply Shows_seq; [apply Shows_cout|].
        apply IH; lia.
      * apply (Shows_seq (ret tt)); [apply Shows_ret|].
        apply IH; lia.
    + reflexivity.
    + lia.
    + reflexivity.
Qed.

(** From the bus judgement to a run in a given world. *)
Lemma Shows_world {A} (m : M A) (w : World) (r : A) (k : nat)
      (out : list Bus.BusEvent) :
  Shows m (miso w) (nread w) r k out ->
  exists w', m w = Some (r, w') /\ nread w' = (nread w + k)%nat /\
             Bus.bus_view (events_since w w') = out.
Proof.
  intro H.
  destruct (H w eq_refl eq_refl) as (evs & R & D).
  exists (advance k evs w); repeat split.
  - exact R.
  - rewrite events_since_advance; apply bus_view_decodes, D.
Qed.

(** ** The sink *)

Lemma cells_snoc (a : Z -> Z) (n b : Z) :
  0 <= n ->
  BinFile.cells (fun i => if i =? n then b else a i) (n + 1) = BinFile.cells a n ++ [b].
Proof.
  intro Hn; unfold BinFile.cells.
  rewrite Z2Nat.inj_add by lia.
  change (Z.to_nat 1) with 1%nat.
  rewrite Nat.add_1_r, seq_S, map_app; simpl.
  rewrite Z2Nat.id, Z.eqb_refl by lia.
  f_equal.
  apply map_ext_in; intros i Hi.
  apply in_seq in Hi.
  destruct (Z.of_nat i =? n) eqn:E; [apply Z.eqb_eq in E; lia | reflexivity].
Qed.

Lemma pushByteToArray_sunk (f : BinFile.t) (b : Z) :
  sink_ready f ->
  BinFile.sunk (BinFile.pushByteToArray f b) = BinFile.sunk f ++ [b] /\
  sink_ready (BinFile.pushByteToArray f b).
Proof.
  intros (Hr & Hg & Hp).
  assert (HM : BinFile.MAX_RAM_BYTES = 10485760) by reflexivity.
  unfold BinFile.pushByteToArray.
  destruct (BinFile.byteArrayPos f =? BinFile.MAX_RAM_BYTES) eqn:E.
  - apply Z.eqb_eq in E.
    unfold BinFile.flushArrayToFile.
    destruct (BinFile.byteArrayPos f =? 0) eqn:E0; [apply Z.eqb_eq in E0; lia|].
    rewrite Hr, Hg; unfold BinFile.sunk, sink_ready; cbn -[BinFile.cells BinFile.MAX_RAM_BYTES].
    split; [reflexivity | repeat split; rewrite ?HM; lia].
  - apply Z.eqb_neq in E.
    unfold BinFile.sunk, sink_ready; cbn -[BinFile.cells BinFile.MAX_RAM_BYTES to_uint].
    assert (Hu : to_uint (BinFile.byteArrayPos f + 1) = BinFile.byteArrayPos f + 1)
      by (apply Z.mod_small; lia).
    rewrite Hu, cells_snoc by lia.
    split; [now rewrite app_assoc | repeat split; try assumption; lia].
Qed.

Lemma fold_push_sunk (data : list Z) : forall (f : BinFile.t),
  sink_ready f ->
  BinFile.sunk (fold_left BinFile.pushByteToArray data f) = BinFile.sunk f ++ data.
Proof.
  induction data as [|b data IH]; intros f Hf; simpl.
  - now rewrite app_nil_r.
  - destruct (pushByteToArray_sunk f b Hf) as [Hs Hf'].
    rewrite IH, Hs, <- app_assoc by exact Hf'; reflexivity.
Qed.

(** ** The operations, on the bus *)

Lemma masked_byte_range (x : Z) : 0 <= Z.land x 0xFF < 256.
Proof.
  change 0xFF with (Z.ones 8); rewrite Z.land_ones by lia.
  apply Z.mod_pos_bound; lia.
Qed.

Lemma unsupported_false (dev : Device) :
  interface dev = SPI -> protocol dev = S25 -> splasher.unsupported dev = false.
Proof. unfold splasher.unsupported; intros -> ->; reflexivity. Qed.

Lemma Shows_dumpFlashToFile (ulong_bits : Z) (dev : Device) (file : BinFile.t)
      (inp : nat -> bool) (n : nat) :
  splasher.unsupported dev = false ->
  0 <= bytes dev -> bytes dev + 1 < 2 ^ ulong_bits ->
  Shows (splasher.dumpFlashToFile ulong_bits dev file) inp n
        (set_jedec dev {| manufacturer := Wire.byte_at inp n;
                          memoryType := Wire.byte_at inp (n + 8);
                          capacity := Wire.byte_at inp (n + 16) |} true,
         fold_left BinFile.pushByteToArray
                   (Wire.bytes_at inp (n + 24) (Z.to_nat (bytes dev))) file)
        (24 + 8 * Z.to_nat (bytes dev))
        ([Bus.Deselect;
          Bus.Select; Bus.Sent Cmd.S25.READ_JEDEC_ID;
          Bus.Received (Wire.byte_at inp n);
          Bus.Received (Wire.byte_at inp (n + 8));
          Bus.Received (Wire.byte_at inp (n + 16)); Bus.Deselect;
          Bus.Select; Bus.Sent Cmd.S25.READ;
          Bus.Sent (Z.land (Z.shiftr (offset dev) 16) 0xFF);
          Bus.Sent (Z.land (Z.shiftr (offset dev) 8) 0xFF);
          Bus.Sent (Z.land (offset dev) 0xFF)]
         ++ map Bus.Received (Wire.bytes_at inp (n + 24) (Z.to_nat (bytes dev)))
         ++ [Bus.Deselect]).
Proof.
  intros Hsup Hb Hmax.
  assert (pins := default_pins_dut_of dev).
  unfold splasher.dumpFlashToFile; rewrite Hsup.
  assert (Hul : splasher.ulong ulong_bits (bytes dev + 1) = bytes dev + 1)
    by (apply Z.mod_small; lia).
  eapply Shows_eq.
  - eapply Shows_seq; [apply Shows_cout|].
    eapply Shows_bind; [apply Shows_new_dut|].
    cbv beta zeta; fold (dut_of dev).
    eapply Shows_bind; [apply Shows_initRead|].
    cbv beta iota zeta; cbn [bytes offset set_jedec]; rewrite Hul.
    eapply Shows_seq; [apply Shows_start, pins|].
    eapply Shows_seq; [apply Shows_tx_byte; [exact pins | apply command_byte_range]|].
    eapply Shows_seq; [apply Shows_tx_byte; [exact pins | apply masked_byte_range]|].
    eapply Shows_seq; [apply Shows_tx_byte; [exact pins | apply masked_byte_range]|].
    eapply Shows_seq; [apply Shows_tx_byte; [exact pins | apply masked_byte_range]|].
    eapply Shows_bind.
    { apply (Shows_dump_loop ulong_bits (dut_of dev) inp (bytes dev + 1)
                             (Z.to_nat (bytes dev)) pins Hmax); lia. }
    cbv beta.
    eapply Shows_seq; [apply Shows_cout|].
    eapply Shows_seq; [apply Shows_stop, pins|].
    apply Shows_ret.
  - rewrite !Nat.add_0_r; reflexivity.
  - lia.
  - rewrite !Nat.add_0_r.
    cbn [app]; rewrite ?app_nil_r; reflexivity.
Qed.

(** ** The busy-poll *)

(** A status byte with bit 0 clear ends the wait at once. *)
Lemma Shows_waitBusy_idle (fuel : nat) (spi : hwSPI.t) (inp : nat -> bool) (n : nat) :
  default_pins spi ->
  Z.land (Wire.byte_at inp n) 1 = 0 ->
  Shows (splasher.s25_waitBusy (S fuel) spi) inp n tt 8
        [Bus.Select; Bus.Sent Cmd.S25.READ_STATUS;
         Bus.Received (Wire.byte_at inp n); Bus.Deselect].
Proof.
  intros pins Hidle.
  cbn [splasher.s25_waitBusy].
  eapply Shows_eq.
  - eapply Shows_seq; [apply Shows_start, pins|].
    eapply Shows_seq; [apply Shows_tx_byte; [exact pins | apply command_byte_range]|].
    eapply Shows_bind; [apply Shows_rx_byte, pins|].
    cbv beta.
    eapply Shows_seq; [apply Shows_stop, pins|].
    rewrite Hidle; change (0 =? 0) with true; cbv iota.
    apply Shows_ret.
  - reflexivity.
  - reflexivity.
  - reflexivity.
Qed.

(** On a chip that never clears its busy bit the wait has no end: no
    amount of fuel gives a result. *)
Lemma s25_waitBusy_stuck (fuel : nat) (spi : hwSPI.t) : forall w : World,
  (forall i, miso w i = true) -> splasher.s25_waitBusy fuel spi w = None.
Proof.
  induction fuel as [|fuel IH]; intros w Hhigh; [reflexivity|].
  cbn [splasher.s25_waitBusy].
  erewrite bind_Run by apply Run_start.
  erewrite bind_Run by apply Run_tx_byte.
  erewrite bind_Run by apply Run_rx_byte.
  erewrite bind_Run by apply Run_stop.
  rewrite !advance_advance.
  match goal with |- context [samples ?w2 0 8] =>
    assert (Hs : samples w2 0 8 = repeat true 8)
      by (unfold samples; cbn [map seq repeat miso advance]; rewrite !Hhigh;
          reflexivity)
  end.
  rewrite Hs.
  change (Z.land (Wire.byte_of_bits (repeat true 8)) 1 =? 0) with false; cbv iota.
  apply IH; exact Hhigh.
Qed.

(** ** The erase of a range, on a chip that is never busy *)

Lemma Shows_erase_loop (ulong_bits : Z) (spi : hwSPI.t) (inp : nat -> bool)
      (end_ : Z) (fuel : nat) :
  default_pins spi -> never_busy inp ->
  forall (cnt n pos : nat) (addr : Z),
    (cnt <= n)%nat -> 0 <= addr ->
    addr + 4096 * Z.of_nat cnt < 2 ^ ulong_bits ->
    end_ <= addr + 4096 * Z.of_nat cnt ->
    (cnt = 0%nat \/ addr + 4096 * (Z.of_nat cnt - 1) < end_) ->
    Shows (splasher.erase_loop ulong_bits (S fuel) n spi addr end_) inp pos tt
          (8 * cnt) (sector_erases inp pos addr cnt).
Proof.
  intros pins Hidle.
  induction cnt as [|cnt IH]; intros n pos addr Hn Haddr Hmax Hend Hlast.
  - assert (Hlt : (addr <? end_) = false) by (apply Z.ltb_ge; lia).
    destruct n; cbn [splasher.erase_loop]; rewrite Hlt; apply Shows_ret.
  - assert (Hlt : (addr <? end_) = true) by (apply Z.ltb_lt; lia).
    destruct n as [|n]; [lia|].
    cbn [splasher.erase_loop sector_erases]; rewrite Hlt.
    assert (Hnext : splasher.ulong ulong_bits (addr + 4096) = addr + 4096)
      by (apply Z.mod_small; lia).
    rewrite Hnext.
    eapply Shows_eq.
    + eapply Shows_seq; [apply Shows_start, pins|].
      eapply Shows_seq; [apply Shows_tx_byte; [exact pins | apply command_byte_range]|].
      eapply Shows_seq; [apply Shows_stop, pins|].
      eapply Shows_seq; [apply Shows_start, pins|].
      eapply Shows_seq; [apply Shows_tx_byte; [exact pins | apply command_byte_range]|].
      eapply Shows_seq; [apply Shows_tx_byte; [exact pins | apply masked_byte_range]|].
      eapply Shows_seq; [apply Shows_tx_byte; [exact pins | apply masked_byte_range]|].
      eapply Shows_seq; [apply Shows_tx_byte; [exact pins | apply masked_byte_range]|].
      eapply Shows_seq; [apply Shows_stop, pins|].
      eapply Shows_bind; [apply (Shows_waitBusy_idle fuel spi inp pos pins (Hidle pos))|].
      cbv beta.
      apply IH; lia.
    + reflexivity.
    + lia.
    + reflexivity.
Qed.

Lemma sectors_cover (byteCount : Z) :
  0 < byteCount ->
  byteCount <= 4096 * Z.of_nat (sectors byteCount) < byteCount + 4096.
Proof.
  intro H; unfold sectors.
  rewrite Z2Nat.id by (apply Z.div_pos; lia).
  assert (Hd := Z.div_mod (byteCount + 4095) 4096 ltac:(lia)).
  assert (Hm := Z.mod_pos_bound (byteCount + 4095) 4096 ltac:(lia)).
  lia.
Qed.

Lemma Shows_erase_range (ulong_bits : Z) (fuel : nat) (dev : Device)
      (byteCount : Z) (inp : nat -> bool) (pos : nat) :
  splasher.unsupported dev = false -> never_busy inp ->
  0 <= offset dev -> 0 < byteCount ->
  offset dev + byteCount + 4096 <= 2 ^ ulong_bits ->
  (sectors byteCount <= S fuel)%nat ->
  Shows (splasher.eraseFlash ulong_bits (S fuel) dev byteCount) inp pos tt
        (8 * sectors byteCount)
        ([Bus.Deselect;
          Bus.Select; Bus.Sent Cmd.S25.WRITE_ENABLE; Bus.Deselect;
          Bus.Select]
         ++ sector_erases inp pos (offset dev) (sectors byteCount)
         ++ [Bus.Deselect]).
Proof.
  intros Hsup Hidle Hoff Hcount Hmax Hfuel.
  assert (pins := default_pins_dut_of dev).
  assert (Hcover := sectors_cover byteCount Hcount).
  unfold splasher.eraseFlash; rewrite Hsup.
  destruct (byteCount =? 0) eqn:E; [apply Z.eqb_eq in E; lia|].
  assert (Hend : splasher.ulong ulong_bits (offset dev + byteCount)
                 = offset dev + byteCount)
    by (apply Z.mod_small; lia).
  eapply Shows_eq.
  - eapply Shows_bind; [apply Shows_new_dut|].
    cbv beta zeta; fold (dut_of dev); rewrite Hend.
    eapply Shows_seq; [apply Shows_initWrite|].
    eapply Shows_seq; [apply Shows_start, pins|].
    eapply Shows_seq; [apply Shows_tx_byte; [exact pins | apply command_byte_range]|].
    eapply Shows_seq; [apply Shows_stop, pins|].
    eapply Shows_seq; [apply Shows_start, pins|].
    eapply Shows_bind.
    { eapply Shows_bind.
      - apply (Shows_erase_loop ulong_bits (dut_of dev) inp
                 (offset dev + byteCount) fuel pins Hidle
                 (sectors byteCount) (S fuel) (pos + 0) (offset dev)); lia.
      - apply Shows_cout. }
    apply Shows_stop, pins.
  - reflexivity.
  - lia.
  - rewrite Nat.add_0_r, !app_nil_r; reflexivity.
Qed.

(** * The claims *)

(** ** Sequential read *)

(** C3: for a device with the supported pairing and a byte count N within
    the range of the counter, dumpFlashToFile, after the identification
    that initRead does, performs one transaction that sends the read
    opcode 0x03 and the three low bytes of the offset, most significant
    first, then reads exactly N bytes, each pushed to the file in the
    order read, and deselects; with N = 0 the transaction is the opcode
    and the address only.  A file ready to take bytes holds the N bytes
    after what it held. *)
Theorem dumpFlashToFile_sequential_read
        (ulong_bits : Z) (dev : Device) (file : BinFile.t) (w : World) :
  interface dev = SPI -> protocol dev = S25 ->
  0 <= bytes dev -> bytes dev + 1 < 2 ^ ulong_bits ->
  let N := Z.to_nat (bytes dev) in
  let data := Wire.input_bytes w 24 N in
  let file' := fold_left BinFile.pushByteToArray data file in
  exists (id : ChipId) (w' : World),
    splasher.dumpFlashToFile ulong_bits dev file w
    = Some ((set_jedec dev id true, file'), w')
    /\ nread w' = (nread w + (24 + 8 * N))%nat
    /\ Bus.bus_view (events_since w w')
       = [Bus.Deselect;
          Bus.Select; Bus.Sent 0x9F; Bus.Received (manufacturer id);
          Bus.Received (memoryType id); Bus.Received (capacity id); Bus.Deselect;
          Bus.Select; Bus.Sent 0x03;
          Bus.Sent (Z.land (Z.shiftr (offset dev) 16) 0xFF);
          Bus.Sent (Z.land (Z.shiftr (offset dev) 8) 0xFF);
          Bus.Sent (Z.land (offset dev) 0xFF)]
         ++ map Bus.Received data ++ [Bus.Deselect]
    /\ (sink_ready file -> BinFile.sunk file' = BinFile.sunk file ++ data).
Proof.
  intros Hi Hp Hb Hmax N data file'.
  destruct (Shows_world _ w _ _ _
              (Shows_dumpFlashToFile ulong_bits dev file (miso w) (nread w)
                 (unsupported_false dev Hi Hp) Hb Hmax))
    as (w' & Hrun & Hn & Hbus).
  eexists; exists w'; repeat split.
  - exact Hrun.
  - exact Hn.
  - exact Hbus.
  - apply fold_push_sunk.
Qed.

Lemma dumpFlashToFile_sequential_read_witness :
  interface (with_range default_Device 2 0x010203) = SPI /\
  protocol (with_range default_Device 2 0x010203) = S25 /\
  0 <= bytes (with_range default_Device 2 0x010203) /\
  bytes (with_range default_Device 2 0x010203) + 1 < 2 ^ 32 /\
  exists (id : ChipId) (w' : World),
    splasher.dumpFlashToFile 32 (with_range default_Device 2 0x010203)
                             (opened_for_write "dump.bin") quiet
    = Some ((set_jedec (with_range default_Device 2 0x010203) id true,
             fold_left BinFile.pushByteToArray (Wire.input_bytes quiet 24 2)
                       (opened_for_write "dump.bin")), w')
    /\ Bus.bus_view (events_since quiet w')
       = [Bus.Deselect;
          Bus.Select; Bus.Sent 0x9F; Bus.Received (manufacturer id);
          Bus.Received (memoryType id); Bus.Received (capacity id); Bus.Deselect;
          Bus.Select; Bus.Sent 0x03; Bus.Sent 1; Bus.Sent 2; Bus.Sent 3]
         ++ map Bus.Received (Wire.input_bytes quiet 24 2) ++ [Bus.Deselect].
Proof.
  assert (H0 : 0 <= bytes (with_range default_Device 2 0x010203))
    by (simpl; lia).
  assert (H1 : bytes (with_range default_Device 2 0x010203) + 1 < 2 ^ 32)
    by (simpl; lia).
  repeat split; try assumption.
  destruct (dumpFlashToFile_sequential_read
              32 (with_range default_Device 2 0x010203)
              (opened_for_write "dump.bin") quiet eq_refl eq_refl H0 H1)
    as (id & w' & Hrun & _ & Hbus & _).
  exists id, w'; split; [exact Hrun | exact Hbus].
Defined.

(** With no byte asked for, the read transaction holds the command and
    the address and nothing else, and the input line is read for the
    identification only. *)
Example dump_of_no_byte :
  bus_of (splasher.dumpFlashToFile 32 (with_range default_Device 0 0x010203)
                                   (opened_for_write "dump.bin") high)
  = Some [Bus.Deselect;
          Bus.Select; Bus.Sent 0x9F; Bus.Received 0xFF; Bus.Received 0xFF;
          Bus.Received 0xFF; Bus.Deselect;
          Bus.Select; Bus.Sent 0x03; Bus.Sent 1; Bus.Sent 2; Bus.Sent 3;
          Bus.Deselect].
Proof. vm_compute; reflexivity. Qed.

(** ** Timing *)

(** C4: for every khz in [1,1000], setTiming sets the three delay quanta
    to max(1, 500 / khz) with integer division; the value does not grow
    when khz grows; and setTiming(0) sets the three quanta to 0. *)
Theorem setTiming_half_period (spi : hwSPI.t) (khz : Z) :
  1 <= khz <= 1000 ->
  (hwSPI.wait_bit (hwSPI.setTiming spi khz) = Z.max 1 (500 / khz) /\
   hwSPI.wait_clk (hwSPI.setTiming spi khz) = Z.max 1 (500 / khz) /\
   hwSPI.wait_byte (hwSPI.setTiming spi khz) = Z.max 1 (500 / khz)) /\
  (forall khz', khz <= khz' <= 1000 ->
     hwSPI.wait_clk (hwSPI.setTiming spi khz')
     <= hwSPI.wait_clk (hwSPI.setTiming spi khz)) /\
  (hwSPI.wait_bit (hwSPI.setTiming spi 0) = 0 /\
   hwSPI.wait_clk (hwSPI.setTiming spi 0) = 0 /\
   hwSPI.wait_byte (hwSPI.setTiming spi 0) = 0).
Proof.
  intro Hk.
  assert (Hquanta : forall k, 1 <= k ->
            hwSPI.setTiming spi k
            = hwSPI.with_waits spi (Z.max 1 (500 / k)) (Z.max 1 (500 / k))
                               (Z.max 1 (500 / k))).
  { intros k Hk1; unfold hwSPI.setTiming.
    destruct (k =? 0) eqn:E; [apply Z.eqb_eq in E; lia|].
    destruct (500 / k <? 1) eqn:E1.
    - apply Z.ltb_lt in E1; rewrite Z.max_l by lia; reflexivity.
    - apply Z.ltb_ge in E1; rewrite Z.max_r by lia; reflexivity. }
  split; [|split].
  - rewrite Hquanta by lia; simpl; auto.
  - intros khz' Hk'.
    rewrite !Hquanta by lia; simpl.
    apply Z.max_le_compat_l.
    apply Z.div_le_compat_l; lia.
  - repeat split.
Qed.

Lemma setTiming_half_period_witness :
  1 <= 100 <= 1000 /\
  hwSPI.wait_clk (hwSPI.setTiming dut0 100) = Z.max 1 (500 / 100) /\
  hwSPI.wait_clk (hwSPI.setTiming dut0 1000) <= hwSPI.wait_clk (hwSPI.setTiming dut0 100) /\
  hwSPI.wait_clk (hwSPI.setTiming dut0 0) = 0.
Proof.
  assert (H : 1 <= 100 <= 1000) by lia.
  destruct (setTiming_half_period dut0 100 H) as ((_ & Hc & _) & Hmono & (_ & Hz & _)).
  split; [exact H|].
  split; [exact Hc|].
  split; [apply Hmono; lia | exact Hz].
Defined.

(** ** Unsupported pairings *)

(** C7: when the pairing of interface and protocol is not SPI with the
    25 series, dumpFlashToFile, writeFileToFlash and eraseFlash each
    write their diagnostic to the error stream and return: the device
    and the file are as they were, no pin is set up, written or read,
    and nothing else is done. *)
Theorem unsupported_pairing_rejected
        (ulong_bits : Z) (fuel : nat) (dev : Device) (file : BinFile.t)
        (byteCount : Z) (w : World) :
  interface dev <> SPI \/ protocol dev <> S25 ->
  splasher.dumpFlashToFile ulong_bits dev file w
  = Some ((dev, file), advance 0 [Cerr MsgDumpUnsupported] w) /\
  splasher.writeFileToFlash ulong_bits fuel dev file w
  = Some (file, advance 0 [Cerr MsgWriteUnsupported] w) /\
  splasher.eraseFlash ulong_bits fuel dev byteCount w
  = Some (tt, advance 0 [Cerr MsgEraseUnsupported] w) /\
  pin_accesses (events_since w (advance 0 [Cerr MsgDumpUnsupported] w)) = [] /\
  pin_accesses (events_since w (advance 0 [Cerr MsgWriteUnsupported] w)) = [] /\
  pin_accesses (events_since w (advance 0 [Cerr MsgEraseUnsupported] w)) = [].
Proof.
  intro H.
  assert (Hu : splasher.unsupported dev = true).
  { unfold splasher.unsupported.
    destruct (interface dev), (protocol dev); try reflexivity;
      destruct H as [H|H]; exfalso; apply H; reflexivity. }
  unfold splasher.dumpFlashToFile, splasher.writeFileToFlash, splasher.eraseFlash.
  rewrite Hu, !events_since_advance.
  repeat split.
  all: rewrite <- (app_nil_r [Cerr _]);
       apply Run_seq; [apply Run_emit | apply Run_ret].
Qed.

Lemma unsupported_pairing_rejected_witness :
  (interface (with_pairing default_Device I2C S25) <> SPI \/
   protocol (with_pairing default_Device I2C S25) <> S25) /\
  splasher.eraseFlash 32 1 (with_pairing default_Device I2C S25) 4096 quiet
  = Some (tt, advance 0 [Cerr MsgEraseUnsupported] quiet).
Proof.
  assert (H : interface (with_pairing default_Device I2C S25) <> SPI \/
              protocol (with_pairing default_Device I2C S25) <> S25)
    by (left; discriminate).
  split; [exact H|].
  exact (proj1 (proj2 (proj2
           (unsupported_pairing_rejected
              32 1 (with_pairing default_Device I2C S25)
              (opened_for_write "unused") 4096 quiet H)))).
Defined.

(** ** Identification *)

Lemma readJedecId_runs (spi : hwSPI.t) (id : ChipId) (w : World) :
  exists (id' : ChipId) (evs : list Event),
    Run (hwSPI.readJedecId spi id) w (true, id') 24 evs.
Proof.
  unfold hwSPI.readJedecId.
  do 2 eexists.
  apply Run_seq; [apply Run_start|].
  apply Run_seq; [apply Run_tx_byte|].
  eapply (Run_bind _ _ _ _ 8 _ _ 16); [apply Run_rx_byte|].
  eapply (Run_bind _ _ _ _ 8 _ _ 8); [apply Run_rx_byte|].
  eapply (Run_bind _ _ _ _ 8 _ _ 0); [apply Run_rx_byte|].
  apply Run_seq; [apply Run_stop|].
  apply Run_ret.
Qed.

(** C10: whatever the input line gives, hwSPI::readJedecId and
    hwSPI::readId return true, and so initRead on an SPI transport
    leaves dev.jedecValid true; in particular when the three identity
    bytes read are all 0 (a line that stays low) or all 0xFF (a line that
    stays high). *)
Theorem spi_identify_never_fails
        (spi : hwSPI.t) (id : ChipId) (dev : Device) (w : World) :
  (exists id' w', hwSPI.readJedecId spi id w = Some ((true, id'), w')) /\
  (exists id' w', hwSPI.readId spi id w = Some ((true, id'), w')) /\
  (exists dev' hw' w',
      splasher.initRead dev (IfSPI spi) w = Some ((dev', hw'), w') /\
      jedecValid dev' = true) /\
  (exists hw' w',
      splasher.initRead default_Device (IfSPI dut0) quiet
      = Some ((set_jedec default_Device (mkChipId 0 0 0) true, hw'), w')) /\
  (exists hw' w',
      splasher.initRead default_Device (IfSPI dut0) high
      = Some ((set_jedec default_Device (mkChipId 0xFF 0xFF 0xFF) true, hw'), w')).
Proof.
  assert (Hread : forall s i w0, exists id' w',
             hwSPI.readJedecId s i w0 = Some ((true, id'), w')).
  { intros s i w0.
    destruct (readJedecId_runs s i w0) as (id' & evs & R).
    exists id', (advance 24 evs w0); exact R. }
  split; [apply Hread|].
  split; [apply Hread|].
  split; [|split].
  - unfold splasher.initRead, readId, hwSPI.readId.
    destruct (Hread (hwSPI.setTiming spi (timing_arg dev)) (jedecId dev) w)
      as (id' & w' & R).
    exists (set_jedec dev id' true), (IfSPI (hwSPI.setTiming spi (timing_arg dev))), w'.
    unfold bind; rewrite R; split; reflexivity.
  - do 2 eexists; vm_compute; reflexivity.
  - do 2 eexists; vm_compute; reflexivity.
Qed.

(** ** Whole-chip erase *)

Lemma Shows_chip_erase (ulong_bits : Z) (fuel : nat) (dev : Device)
      (inp : nat -> bool) (n : nat) :
  splasher.unsupported dev = false ->
  Shows (splasher.eraseFlash ulong_bits fuel dev 0) inp n tt 0
        [Bus.Deselect;
         Bus.Select; Bus.Sent Cmd.S25.WRITE_ENABLE; Bus.Deselect;
         Bus.Select; Bus.Sent Cmd.S25.CHIP_ERASE; Bus.Deselect].
Proof.
  intro Hsup.
  assert (pins := default_pins_dut_of dev).
  unfold splasher.eraseFlash; rewrite Hsup.
  change (0 =? 0) with true; cbv iota.
  eapply Shows_eq.
  - eapply Shows_bind; [apply Shows_new_dut|].
    cbv beta zeta; fold (dut_of dev).
    eapply Shows_seq; [apply Shows_initWrite|].
    eapply Shows_seq; [apply Shows_start, pins|].
    eapply Shows_seq; [apply Shows_tx_byte; [exact pins | apply command_byte_range]|].
    eapply Shows_seq; [apply Shows_stop, pins|].
    eapply Shows_seq; [apply Shows_start, pins|].
    eapply Shows_seq.
    { eapply Shows_seq; [apply Shows_tx_byte; [exact pins | apply command_byte_range]|].
      apply Shows_cout. }
    apply Shows_stop, pins.
  - reflexivity.
  - reflexivity.
  - reflexivity.
Qed.

(** The whole-chip erase on the pins. *)
Lemma Run_chip_erase (ulong_bits : Z) (fuel : nat) (dev : Device) (w : World) :
  splasher.unsupported dev = false ->
  Run (splasher.eraseFlash ulong_bits fuel dev 0) w tt 0
      (Wire.tr_init dut0
       ++ [GpioWrite Pinout.SPI_WP 0]
       ++ Wire.tr_start (dut_of dev)
       ++ Wire.tr_tx (dut_of dev) Cmd.S25.WRITE_ENABLE
       ++ Wire.tr_stop (dut_of dev)
       ++ Wire.tr_start (dut_of dev)
       ++ Wire.tr_tx (dut_of dev) Cmd.S25.CHIP_ERASE
       ++ [Cout MsgChipEraseStarted]
       ++ Wire.tr_stop (dut_of dev)).
Proof.
  intro Hsup.
  unfold splasher.eraseFlash; rewrite Hsup.
  change (0 =? 0) with true; cbv iota.
  eapply Run_eq.
  - eapply Run_bind; [apply Run_new_dut|].
    cbv beta zeta; fold (dut_of dev).
    eapply Run_seq; [apply Run_emit|].
    eapply Run_seq; [apply Run_start|].
    eapply Run_seq; [apply Run_tx_byte|].
    eapply Run_seq; [apply Run_stop|].
    eapply Run_seq; [apply Run_start|].
    eapply Run_seq.
    { eapply Run_seq; [apply Run_tx_byte | apply Run_emit]. }
    apply Run_stop.
  - reflexivity.
  - destruct (default_pins_dut_of dev) as (_ & _ & _ & _ & ->).
    rewrite <- !app_assoc; reflexivity.
Qed.

(** The claim C8 as it is worded has the write-enable and the chip-erase
    in a single transaction; the chip is selected twice. *)
Lemma chip_erase_two_transactions :
  bus_of (splasher.eraseFlash 32 1 default_Device 0 quiet)
  = Some [Bus.Deselect;
          Bus.Select; Bus.Sent 0x06; Bus.Deselect;
          Bus.Select; Bus.Sent 0xC7; Bus.Deselect]
  /\ ~ (exists w' : World,
          splasher.eraseFlash 32 1 default_Device 0 quiet = Some (tt, w') /\
          in_one_transaction (Bus.bus_view (events_since quiet w'))).
Proof.
  split; [vm_compute; reflexivity|].
  intros (w' & Hrun & Hone).
  destruct (Shows_world _ quiet _ _ _
              (Shows_chip_erase 32 1 default_Device (miso quiet) (nread quiet) eq_refl))
    as (w1 & Hrun1 & _ & Hbus).
  rewrite Hrun in Hrun1; injection Hrun1 as ->.
  rewrite Hbus in Hone.
  vm_compute in Hone; discriminate Hone.
Qed.

(** C8, amended: for a device with the supported pairing, eraseFlash
    with byteCount = 0 issues exactly one write-enable command, in a
    transaction of its own, then exactly one chip-erase command, in a
    second transaction, with no address byte and no busy-poll (the input
    line is not read), and returns once the chip-erase transaction is
    closed. *)
Theorem eraseFlash_whole_chip
        (ulong_bits : Z) (fuel : nat) (dev : Device) (w : World) :
  interface dev = SPI -> protocol dev = S25 ->
  exists w' : World,
    splasher.eraseFlash ulong_bits fuel dev 0 w = Some (tt, w')
    /\ nread w' = nread w
    /\ Bus.bus_view (events_since w w')
       = [Bus.Deselect;
          Bus.Select; Bus.Sent 0x06; Bus.Deselect;
          Bus.Select; Bus.Sent 0xC7; Bus.Deselect]
    /\ events_since w w'
       = Wire.tr_init dut0
         ++ [GpioWrite Pinout.SPI_WP 0]
         ++ Wire.tr_start (dut_of dev)
         ++ Wire.tr_tx (dut_of dev) 0x06
         ++ Wire.tr_stop (dut_of dev)
         ++ Wire.tr_start (dut_of dev)
         ++ Wire.tr_tx (dut_of dev) 0xC7
         ++ [Cout MsgChipEraseStarted]
         ++ Wire.tr_stop (dut_of dev).
Proof.
  intros Hi Hp.
  assert (Hsup := unsupported_false dev Hi Hp).
  destruct (Shows_world _ w _ _ _
              (Shows_chip_erase ulong_bits fuel dev (miso w) (nread w) Hsup))
    as (w' & Hrun & Hn & Hbus).
  assert (Hpins := Run_chip_erase ulong_bits fuel dev w Hsup).
  unfold Run in Hpins.
  exists w'; split; [exact Hrun|].
  split; [now rewrite Hn, Nat.add_0_r|].
  split; [exact Hbus|].
  rewrite Hrun in Hpins; injection Hpins as ->.
  apply events_since_advance.
Qed.

Lemma eraseFlash_whole_chip_witness :
  interface default_Device = SPI /\ protocol default_Device = S25 /\
  exists w' : World,
    splasher.eraseFlash 64 0 default_Device 0 high = Some (tt, w')
    /\ nread w' = nread high
    /\ Bus.bus_view (events_since high w')
       = [Bus.Deselect;
          Bus.Select; Bus.Sent 0x06; Bus.Deselect;
          Bus.Select; Bus.Sent 0xC7; Bus.Deselect].
Proof.
  split; [reflexivity|].
  split; [reflexivity|].
  destruct (eraseFlash_whole_chip 64 0 default_Device high eq_refl eq_refl)
    as (w' & Hrun & Hn & Hbus & _).
  exists w'; split; [exact Hrun|].
  split; [exact Hn | exact Hbus].
Defined.

(** ** Bit order *)

Section BitOrder.
Import hwSPI Wire.
Variable spi : hwSPI.t.
Hypothesis clock_apart : io_SCLK spi <> io_MOSI spi.

Lemma driven_app (pin : Z) (e1 e2 : list Event) :
  driven pin (e1 ++ e2) = driven pin e1 ++ driven pin e2.
Proof. apply flat_map_app. Qed.

Lemma driven_delay (pin wait : Z) : driven pin (tr_delay wait) = [].
Proof. unfold tr_delay; destruct (wait =? 0); reflexivity. Qed.

Lemma driven_tx_bit (level : Z) :
  driven (io_MOSI spi) (tr_tx_bit spi level) = [negb (level =? 0)].
Proof.
  unfold tr_tx_bit, tr_pulse.
  change (GpioWrite (io_MOSI spi) level
            :: tr_delay (wait_bit spi)
               ++ GpioWrite (io_SCLK spi) 1
                  :: tr_delay (wait_clk spi)
                     ++ GpioWrite (io_SCLK spi) 0 :: tr_delay (wait_clk spi))
    with ([GpioWrite (io_MOSI spi) level]
            ++ tr_delay (wait_bit spi)
               ++ [GpioWrite (io_SCLK spi) 1]
                  ++ tr_delay (wait_clk spi)
                     ++ [GpioWrite (io_SCLK spi) 0] ++ tr_delay (wait_clk spi)).
  rewrite !driven_app, !driven_delay.
  apply Z.eqb_neq in clock_apart.
  simpl; rewrite Z.eqb_refl, clock_apart; reflexivity.
Qed.

Lemma driven_tx (byte : Z) :
  driven (io_MOSI spi) (tr_tx spi byte) = bits_of_byte byte.
Proof.
  unfold tr_tx, tr_tx_bits; simpl rev; cbn [flat_map].
  rewrite !driven_app, driven_delay, !driven_tx_bit, !level_of_bit.
  reflexivity.
Qed.

End BitOrder.

(** [rx_byte] drives nothing on data-out, so a tied line holds its level
    while a byte is read. *)
Lemma rx_byte_drives_nothing (spi : hwSPI.t) (levels : list bool) :
  hwSPI.io_SCLK spi <> hwSPI.io_MOSI spi ->
  Wire.driven (hwSPI.io_MOSI spi) (Wire.tr_rx spi levels) = [].
Proof.
  intro Hpins; apply Z.eqb_neq in Hpins.
  unfold Wire.tr_rx.
  rewrite driven_app, driven_delay, app_nil_r.
  induction levels as [|l levels IH]; [reflexivity|].
  cbn [flat_map]; rewrite driven_app, IH, app_nil_r.
  unfold Wire.tr_rx_bit, Wire.tr_pulse.
  change (GpioRead (hwSPI.io_MISO spi) (if l then 1 else 0)
            :: Wire.tr_delay (hwSPI.wait_bit spi)
               ++ GpioWrite (hwSPI.io_SCLK spi) 1
                  :: Wire.tr_delay (hwSPI.wait_clk spi)
                     ++ GpioWrite (hwSPI.io_SCLK spi) 0
                        :: Wire.tr_delay (hwSPI.wait_clk spi))
    with ([GpioRead (hwSPI.io_MISO spi) (if l then 1 else 0)]
            ++ Wire.tr_delay (hwSPI.wait_bit spi)
               ++ [GpioWrite (hwSPI.io_SCLK spi) 1]
                  ++ Wire.tr_delay (hwSPI.wait_clk spi)
                     ++ [GpioWrite (hwSPI.io_SCLK spi) 0]
                        ++ Wire.tr_delay (hwSPI.wait_clk spi)).
  rewrite !driven_app, !driven_delay.
  simpl; rewrite Hpins; reflexivity.
Qed.

(** The claim C5 as it is worded, on a line merely tied: after
    tx_byte(0x01) data-out holds the level of bit 0, rx_byte samples it
    eight times and returns 0xFF. *)
Lemma tx_rx_on_tied_line :
  exists (w1 w2 : World),
    hwSPI.tx_byte dut0 0x01 quiet = Some (tt, w1)
    /\ hwSPI.rx_byte dut0 (Wire.tied dut0 (events_since quiet w1)) = Some (0xFF, w2)
    /\ 0xFF <> 0x01.
Proof.
  exists (advance 0 (Wire.tr_tx dut0 0x01) quiet).
  rewrite events_since_advance.
  eexists; split; [apply Run_tx_byte|].
  split; [apply (Run_rx_byte dut0 (Wire.tied dut0 (Wire.tr_tx dut0 1))) | discriminate].
Qed.

(** C5, amended: for every byte b, tx_byte(b) drives the eight bits of b
    on data-out, bit 7 first; rx_byte assembles the eight levels it
    samples on data-in, the first one as bit 7; so rx_byte after
    tx_byte(b) returns b on a line where data-in presents the levels
    driven on data-out one per sample, in the order driven. *)
Theorem tx_rx_round_trip (spi : hwSPI.t) (b : Z) (w : World) :
  0 <= b < 256 -> hwSPI.io_SCLK spi <> hwSPI.io_MOSI spi ->
  exists (w1 w2 : World),
    hwSPI.tx_byte spi b w = Some (tt, w1)
    /\ Wire.driven (hwSPI.io_MOSI spi) (events_since w w1) = Wire.bits_of_byte b
    /\ hwSPI.rx_byte spi (Wire.loop_back spi (events_since w w1)) = Some (b, w2)
    /\ (forall w0 : World, exists w0' : World,
          hwSPI.rx_byte spi w0 = Some (Wire.byte_of_bits (samples w0 0 8), w0')).
Proof.
  intros Hb Hpins.
  exists (advance 0 (Wire.tr_tx spi b) w).
  rewrite events_since_advance.
  assert (Hdriven := driven_tx spi Hpins b).
  eexists; split; [|split; [|split]].
  - apply Run_tx_byte.
  - exact Hdriven.
  - assert (Hs : samples (Wire.loop_back spi (Wire.tr_tx spi b)) 0 8
                 = Wire.bits_of_byte b)
      by (unfold samples, Wire.loop_back; cbn [miso nread]; rewrite Hdriven;
          reflexivity).
    assert (R := Run_rx_byte spi (Wire.loop_back spi (Wire.tr_tx spi b))).
    unfold Run in R.
    rewrite Hs, (byte_of_bits_of_byte b Hb) in R.
    exact R.
  - intro w0; eexists; apply Run_rx_byte.
Qed.

Lemma tx_rx_round_trip_witness :
  0 <= 0xA5 < 256 /\ hwSPI.io_SCLK dut0 <> hwSPI.io_MOSI dut0 /\
  exists (w1 w2 : World),
    hwSPI.tx_byte dut0 0xA5 quiet = Some (tt, w1)
    /\ hwSPI.rx_byte dut0 (Wire.loop_back dut0 (events_since quiet w1)) = Some (0xA5, w2).
Proof.
  assert (Hb : 0 <= 0xA5 < 256) by lia.
  assert (Hp : hwSPI.io_SCLK dut0 <> hwSPI.io_MOSI dut0) by discriminate.
  split; [exact Hb|].
  split; [exact Hp|].
  destruct (tx_rx_round_trip dut0 0xA5 quiet Hb Hp) as (w1 & w2 & Htx & _ & Hrx & _).
  exists w1, w2; split; [exact Htx | exact Hrx].
Defined.

(** ** Rates above 1000 KHz *)

Lemma all_digits_not_max (s : string) :
  all_digits s = true -> String.eqb s "max" = false.
Proof.
  destruct s as [|c s]; [reflexivity|].
  simpl; intro H; apply andb_prop in H; destruct H as [Hc _].
  destruct (Ascii.eqb c "m") eqn:E; [|reflexivity].
  apply Ascii.eqb_eq in E; subst c; discriminate Hc.
Qed.

Lemma setTiming_above_500 (spi : hwSPI.t) (khz : Z) :
  500 < khz -> hwSPI.setTiming spi khz = hwSPI.with_waits spi 1 1 1.
Proof.
  intro H; unfold hwSPI.setTiming.
  destruct (khz =? 0) eqn:E; [apply Z.eqb_eq in E; lia|].
  rewrite Z.div_small by lia; reflexivity.
Qed.

(** The claim C9 as it is worded, at 2000 KHz: setTiming gives the
    profile of 1000 KHz, and an operation on a device with that rate
    writes no diagnostic and goes through (here the whole-chip erase is
    issued, with delays of one microsecond). *)
Lemma rate_above_1000_is_clamped :
  hwSPI.setTiming dut0 2000 = hwSPI.setTiming dut0 1000
  /\ hwSPI.wait_clk (hwSPI.setTiming dut0 2000) = 1
  /\ exists w' : World,
       splasher.eraseFlash 32 1 (with_KHz default_Device 2000) 0 quiet = Some (tt, w')
       /\ diagnostics (trace w') = []
       /\ Bus.bus_view (trace w')
          = [Bus.Deselect;
             Bus.Select; Bus.Sent 0x06; Bus.Deselect;
             Bus.Select; Bus.Sent 0xC7; Bus.Deselect]
       /\ In (GpioDelay 1) (trace w').
Proof.
  split; [reflexivity|].
  split; [reflexivity|].
  eexists; split; [vm_compute; reflexivity|].
  split; [vm_compute; reflexivity|].
  split; [vm_compute; reflexivity|].
  vm_compute; tauto.
Qed.

(** C9, amended: a rate above 1000 KHz is an error only where main
    converts the speed argument.  For every speed string made of digits
    whose value is above 1000, main stops before any operation: when the
    value fits an int, convertKHz writes the too-high diagnostic and
    returns -2, and main terminates pigpio and exits with EXIT_FAILURE;
    when it does not, std::stoi throws out_of_range and nothing catches
    it.  hwSPI::setTiming does not check its argument: every rate above
    500, those above 1000 included, gives the quanta of one
    microsecond. *)
Theorem rate_above_1000 (speedString : string) (spi : hwSPI.t) (khz : Z) (w : World) :
  all_digits speedString = true ->
  1000 < decimal_value speedString 0 ->
  1000 < khz ->
  (decimal_value speedString 0 <= INT_MAX ->
     convertKHz speedString w
     = Some (Returned (-2), advance 0 [Cerr MsgSpeedTooHigh] w) /\
     main_speed (Some speedString) w
     = Some (Exit EXIT_FAILURE, advance 0 [Cerr MsgSpeedTooHigh; GpioTerminate] w)) /\
  (INT_MAX < decimal_value speedString 0 ->
     main_speed (Some speedString) w = Some (Uncaught out_of_range, w)) /\
  hwSPI.setTiming spi khz = hwSPI.with_waits spi 1 1 1.
Proof.
  intros Hd Hv Hk.
  assert (Hmax := all_digits_not_max speedString Hd).
  assert (Hne : speedString <> EmptyString)
    by (intro E; subst; simpl in Hv; lia).
  assert (Hconv : decimal_value speedString 0 <= INT_MAX ->
            convertKHz speedString w
            = Some (Returned (-2), advance 0 [Cerr MsgSpeedTooHigh] w)).
  { intro Hfit.
    unfold convertKHz; rewrite Hmax, Hd; simpl negb; cbv iota.
    unfold stoi; destruct speedString as [|c s]; [congruence|].
    destruct (INT_MAX <? decimal_value (String c s) 0) eqn:E;
      [apply Z.ltb_lt in E; lia|].
    destruct (1000 <? decimal_value (String c s) 0) eqn:E1;
      [|apply Z.ltb_ge in E1; lia].
    rewrite <- (app_nil_r [Cerr MsgSpeedTooHigh]).
    apply Run_seq; [apply Run_emit | apply Run_ret]. }
  split; [|split].
  - intro Hfit; split; [exact (Hconv Hfit)|].
    unfold main_speed, bind at 1; rewrite (Hconv Hfit).
    change (-2 <? 0) with true; cbv iota.
    change [Cerr MsgSpeedTooHigh; GpioTerminate]
      with ([Cerr MsgSpeedTooHigh] ++ ([GpioTerminate] ++ [])).
    rewrite <- (advance_advance 0 0).
    apply Run_seq; [apply Run_emit | apply Run_ret].
  - intro Hbig.
    unfold main_speed, bind, convertKHz; rewrite Hmax, Hd; simpl negb; cbv iota.
    unfold stoi; destruct speedString as [|c s]; [congruence|].
    destruct (INT_MAX <? decimal_value (String c s) 0) eqn:E;
      [reflexivity | apply Z.ltb_ge in E; lia].
  - apply setTiming_above_500; lia.
Qed.

Lemma rate_above_1000_witness :
  all_digits "2000" = true /\ 1000 < decimal_value "2000" 0 /\ 1000 < 2000 /\
  main_speed (Some "2000"%string) quiet
  = Some (Exit EXIT_FAILURE, advance 0 [Cerr MsgSpeedTooHigh; GpioTerminate] quiet) /\
  hwSPI.setTiming dut0 2000 = hwSPI.with_waits dut0 1 1 1.
Proof.
  assert (Hd : all_digits "2000" = true) by reflexivity.
  assert (Hv : 1000 < decimal_value "2000" 0) by reflexivity.
  assert (Hk : 1000 < 2000) by reflexivity.
  destruct (rate_above_1000 "2000" dut0 2000 quiet Hd Hv Hk) as (Hfit & _ & Ht).
  split; [exact Hd|].
  split; [exact Hv|].
  split; [exact Hk|].
  split; [apply Hfit; vm_compute; discriminate | exact Ht].
Defined.

(** ** Page program from a source that runs out *)

(** C1: writeFileToFlash asked for 512 bytes from offset 0, the file
    holding three bytes.  The first page-program command carries the
    three bytes and no padding; the loop then goes on: the address moves
    on by the whole chunk, 256, not by the three bytes written, and a
    second write-enable, a second page-program command at address
    0x000100 with no data at all and a second busy-poll are issued. *)
Theorem writeFileToFlash_source_exhausted :
  forall ulong_bits : Z, ulong_bits = 32 \/ ulong_bits = 64 ->
  bus_of (splasher.writeFileToFlash ulong_bits 1 (with_range default_Device 512 0)
            (opened_for_read "fw.bin" [0xAA; 0xBB; 0xCC]) quiet)
  = Some [Bus.Deselect;
          Bus.Select; Bus.Sent 0x06; Bus.Deselect;
          Bus.Select; Bus.Sent 0x02; Bus.Sent 0; Bus.Sent 0; Bus.Sent 0;
          Bus.Sent 0xAA; Bus.Sent 0xBB; Bus.Sent 0xCC; Bus.Deselect;
          Bus.Select; Bus.Sent 0x05; Bus.Received 0; Bus.Deselect;
          Bus.Select; Bus.Sent 0x06; Bus.Deselect;
          Bus.Select; Bus.Sent 0x02; Bus.Sent 0; Bus.Sent 1; Bus.Sent 0;
          Bus.Deselect;
          Bus.Select; Bus.Sent 0x05; Bus.Received 0; Bus.Deselect].
Proof.
  intros ulong_bits [-> | ->]; vm_compute; reflexivity.
Qed.

Lemma writeFileToFlash_source_exhausted_witness :
  (32 = 32 \/ 32 = 64) /\
  Bus.count (Bus.Sent 0x02)
    (match bus_of (splasher.writeFileToFlash 32 1 (with_range default_Device 512 0)
                     (opened_for_read "fw.bin" [0xAA; 0xBB; 0xCC]) quiet) with
     | Some out => out
     | None => []
     end) = 2%nat.
Proof.
  split; [left; reflexivity|].
  rewrite (writeFileToFlash_source_exhausted 32 (or_introl eq_refl)).
  reflexivity.
Defined.

(** ** Erase of a range *)

(** C2: eraseFlash with byteCount = 8192 on a device with offset 0 and
    the supported pairing, the chip never busy.  Before the two
    (write-enable, sector-erase, busy-poll) triples at addresses 0 and
    4096, the bus shows a third write-enable in a transaction of its own
    and a select with no command; after them, one more deselect. *)
Theorem eraseFlash_two_sectors
        (ulong_bits : Z) (fuel : nat) (dev : Device) (w : World) :
  interface dev = SPI -> protocol dev = S25 -> offset dev = 0 ->
  never_busy (miso w) -> 8192 + 4096 <= 2 ^ ulong_bits -> (2 <= fuel)%nat ->
  exists w' : World,
    splasher.eraseFlash ulong_bits fuel dev 8192 w = Some (tt, w')
    /\ Bus.bus_view (events_since w w')
       = [Bus.Deselect;
          Bus.Select; Bus.Sent 0x06; Bus.Deselect;
          Bus.Select;
          Bus.Select; Bus.Sent 0x06; Bus.Deselect;
          Bus.Select; Bus.Sent 0x20; Bus.Sent 0; Bus.Sent 0; Bus.Sent 0;
          Bus.Deselect;
          Bus.Select; Bus.Sent 0x05;
          Bus.Received (Wire.byte_at (miso w) (nread w)); Bus.Deselect;
          Bus.Select; Bus.Sent 0x06; Bus.Deselect;
          Bus.Select; Bus.Sent 0x20; Bus.Sent 0; Bus.Sent 0x10; Bus.Sent 0;
          Bus.Deselect;
          Bus.Select; Bus.Sent 0x05;
          Bus.Received (Wire.byte_at (miso w) (nread w + 8)); Bus.Deselect;
          Bus.Deselect]
    /\ Bus.count (Bus.Sent 0x06) (Bus.bus_view (events_since w w')) = 3%nat.
Proof.
  intros Hi Hp Hoff Hidle Hmax Hfuel.
  destruct fuel as [|fuel]; [lia|].
  destruct (Shows_world _ w _ _ _
              (Shows_erase_range ulong_bits fuel dev 8192 (miso w) (nread w)
                 (unsupported_false dev Hi Hp) Hidle
                 ltac:(lia) ltac:(lia) ltac:(lia)
                 ltac:(change (sectors 8192) with 2%nat; lia)))
    as (w' & Hrun & _ & Hbus).
  rewrite Hoff in Hbus.
  exists w'; split; [exact Hrun|].
  split; [exact Hbus|].
  rewrite Hbus; reflexivity.
Qed.

Lemma never_busy_quiet : never_busy (miso quiet).
Proof. intro n; reflexivity. Qed.

Lemma eraseFlash_two_sectors_witness :
  interface default_Device = SPI /\ protocol default_Device = S25 /\
  offset default_Device = 0 /\ never_busy (miso quiet) /\
  8192 + 4096 <= 2 ^ 32 /\ (2 <= 2)%nat /\
  exists w' : World,
    splasher.eraseFlash 32 2 default_Device 8192 quiet = Some (tt, w')
    /\ Bus.count (Bus.Sent 0x06) (Bus.bus_view (events_since quiet w')) = 3%nat.
Proof.
  assert (Hmax : 8192 + 4096 <= 2 ^ 32) by lia.
  assert (Hfuel : (2 <= 2)%nat) by lia.
  repeat (split; [first [reflexivity | exact never_busy_quiet | assumption]|]).
  destruct (eraseFlash_two_sectors 32 2 default_Device quiet
              eq_refl eq_refl eq_refl never_busy_quiet Hmax Hfuel)
    as (w' & Hrun & _ & Hcount).
  exists w'; split; [exact Hrun | exact Hcount].
Defined.

(** The same run, decoded from the pins of the model by evaluation. *)
Example eraseFlash_two_sectors_run :
  bus_of (splasher.eraseFlash 64 2 default_Device 8192 quiet)
  = Some [Bus.Deselect;
          Bus.Select; Bus.Sent 0x06; Bus.Deselect;
          Bus.Select;
          Bus.Select; Bus.Sent 0x06; Bus.Deselect;
          Bus.Select; Bus.Sent 0x20; Bus.Sent 0; Bus.Sent 0; Bus.Sent 0;
          Bus.Deselect;
          Bus.Select; Bus.Sent 0x05; Bus.Received 0; Bus.Deselect;
          Bus.Select; Bus.Sent 0x06; Bus.Deselect;
          Bus.Select; Bus.Sent 0x20; Bus.Sent 0; Bus.Sent 0x10; Bus.Sent 0;
          Bus.Deselect;
          Bus.Select; Bus.Sent 0x05; Bus.Received 0; Bus.Deselect;
          Bus.Deselect].
Proof. vm_compute; reflexivity. Qed.

(** ** One transaction at a time *)

Lemma frames_ok_received (data : list Z) (open : bool) (rest : list Bus.BusEvent) :
  Bus.frames_ok open (map Bus.Received data ++ rest) = Bus.frames_ok open rest.
Proof. induction data as [|b data IH]; [reflexivity | exact IH]. Qed.

(** The dump, the identification in it and the whole-chip erase never
    select the chip while it is selected. *)
Lemma dump_frames_ok (ulong_bits : Z) (dev : Device) (file : BinFile.t) (w : World) :
  interface dev = SPI -> protocol dev = S25 ->
  0 <= bytes dev -> bytes dev + 1 < 2 ^ ulong_bits ->
  exists r w', splasher.dumpFlashToFile ulong_bits dev file w = Some (r, w') /\
               Bus.frames_ok false (Bus.bus_view (events_since w w')) = true.
Proof.
  intros Hi Hp Hb Hmax.
  destruct (Shows_world _ w _ _ _
              (Shows_dumpFlashToFile ulong_bits dev file (miso w) (nread w)
                 (unsupported_false dev Hi Hp) Hb Hmax))
    as (w' & Hrun & _ & Hbus).
  eexists; exists w'; split; [exact Hrun|].
  rewrite Hbus; cbn [app Bus.frames_ok].
  rewrite frames_ok_received; reflexivity.
Qed.

Lemma chip_erase_frames_ok (ulong_bits : Z) (fuel : nat) (dev : Device) (w : World) :
  interface dev = SPI -> protocol dev = S25 ->
  exists w', splasher.eraseFlash ulong_bits fuel dev 0 w = Some (tt, w') /\
             Bus.frames_ok false (Bus.bus_view (events_since w w')) = true.
Proof.
  intros Hi Hp.
  destruct (Shows_world _ w _ _ _
              (Shows_chip_erase ulong_bits fuel dev (miso w) (nread w)
                 (unsupported_false dev Hi Hp)))
    as (w' & Hrun & _ & Hbus).
  exists w'; split; [exact Hrun | rewrite Hbus; reflexivity].
Qed.

(** So do the identification on its own and the page program, here on
    the inputs used above. *)
Example identify_and_write_frames_ok :
  option_map (Bus.frames_ok false) (bus_of (splasher.readJedecId default_Device high))
  = Some true
  /\ option_map (Bus.frames_ok false)
       (bus_of (splasher.writeFileToFlash 32 1 (with_range default_Device 512 0)
                  (opened_for_read "fw.bin" [0xAA; 0xBB; 0xCC]) quiet))
     = Some true.
Proof. split; vm_compute; reflexivity. Qed.

(** C6: every erase of a range, the chip never busy.  The transaction
    that eraseFlash opens before the branch on byteCount is still open
    when the loop selects the chip for its first write-enable: two
    selects follow each other with no deselect between them (and the
    run ends with a deselect that closes nothing). *)
Theorem eraseFlash_selects_twice
        (ulong_bits : Z) (fuel : nat) (dev : Device) (byteCount : Z) (w : World) :
  interface dev = SPI -> protocol dev = S25 ->
  never_busy (miso w) ->
  0 <= offset dev -> 0 < byteCount ->
  offset dev + byteCount + 4096 <= 2 ^ ulong_bits ->
  (sectors byteCount <= fuel)%nat ->
  exists (w' : World) (rest : list Bus.BusEvent),
    splasher.eraseFlash ulong_bits fuel dev byteCount w = Some (tt, w')
    /\ Bus.bus_view (events_since w w')
       = [Bus.Deselect;
          Bus.Select; Bus.Sent 0x06; Bus.Deselect;
          Bus.Select;
          Bus.Select; Bus.Sent 0x06; Bus.Deselect] ++ rest
    /\ Bus.frames_ok false (Bus.bus_view (events_since w w')) = false.
Proof.
  intros Hi Hp Hidle Hoff Hcount Hmax Hfuel.
  assert (Hcover := sectors_cover byteCount Hcount).
  destruct fuel as [|fuel]; [lia|].
  destruct (Shows_world _ w _ _ _
              (Shows_erase_range ulong_bits fuel dev byteCount (miso w) (nread w)
                 (unsupported_false dev Hi Hp) Hidle Hoff Hcount Hmax Hfuel))
    as (w' & Hrun & _ & Hbus).
  destruct (sectors byteCount) as [|cnt]; [lia|].
  cbn [sector_erases sector_erase app] in Hbus.
  exists w'; eexists; split; [exact Hrun|].
  split; [exact Hbus|].
  rewrite Hbus; reflexivity.
Qed.

Lemma eraseFlash_selects_twice_witness :
  interface default_Device = SPI /\ protocol default_Device = S25 /\
  never_busy (miso quiet) /\ 0 <= offset default_Device /\ 0 < 4096 /\
  offset default_Device + 4096 + 4096 <= 2 ^ 32 /\ (sectors 4096 <= 1)%nat /\
  exists w' : World,
    splasher.eraseFlash 32 1 default_Device 4096 quiet = Some (tt, w')
    /\ Bus.frames_ok false (Bus.bus_view (events_since quiet w')) = false.
Proof.
  assert (Hoff : 0 <= offset default_Device) by (simpl; lia).
  assert (Hcount : 0 < 4096) by lia.
  assert (Hmax : offset default_Device + 4096 + 4096 <= 2 ^ 32) by (simpl; lia).
  assert (Hfuel : (sectors 4096 <= 1)%nat) by (vm_compute; lia).
  repeat (split; [first [reflexivity | exact never_busy_quiet | assumption]|]).
  destruct (eraseFlash_selects_twice 32 1 default_Device 4096 quiet
              eq_refl eq_refl never_busy_quiet Hoff Hcount Hmax Hfuel)
    as (w' & rest & Hrun & _ & Hframes).
  exists w'; split; [exact Hrun | exact Hframes].
Defined.

(** The same run, decoded from the pins of the model by evaluation. *)
Example eraseFlash_one_sector_run :
  bus_of (splasher.eraseFlash 32 1 default_Device 4096 quiet)
  = Some [Bus.Deselect;
          Bus.Select; Bus.Sent 0x06; Bus.Deselect;
          Bus.Select;
          Bus.Select; Bus.Sent 0x06; Bus.Deselect;
          Bus.Select; Bus.Sent 0x20; Bus.Sent 0; Bus.Sent 0; Bus.Sent 0;
          Bus.Deselect;
          Bus.Select; Bus.Sent 0x05; Bus.Received 0; Bus.Deselect;
          Bus.Deselect].
Proof. vm_compute; reflexivity. Qed.

(** * More of the code *)

(** ** The buffered file as a source *)

Lemma take_drop (l : list Z) : forall n : Z,
  BinFile.take l n ++ BinFile.drop l n = l.
Proof.
  induction l as [|x l IH]; intro n; [reflexivity|].
  cbn [BinFile.take BinFile.drop].
  destruct (0 <? n); [cbn [app]; now rewrite IH | reflexivity].
Qed.

Lemma take_length (l : list Z) : forall n : Z,
  0 <= n -> Z.of_nat (List.length (BinFile.take l n)) <= n.
Proof.
  induction l as [|x l IH]; intros n Hn; [simpl; lia|].
  cbn [BinFile.take].
  destruct (0 <? n) eqn:E; [|simpl; lia].
  apply Z.ltb_lt in E.
  cbn [List.length]; specialize (IH (n - 1) ltac:(lia)); lia.
Qed.

Lemma drop_short (l : list Z) : forall n : Z,
  Z.of_nat (List.length l) <= n -> BinFile.drop l n = [].
Proof.
  induction l as [|x l IH]; intros n Hn; [reflexivity|].
  cbn [BinFile.drop]; cbn [List.length] in Hn.
  destruct (0 <? n) eqn:E; [apply IH; lia | apply Z.ltb_ge in E; lia].
Qed.

Lemma slice_nil (a : Z -> Z) (pos len : Z) : len <= pos -> slice a pos len = [].
Proof.
  intro H; unfold slice.
  replace (Z.to_nat (len - pos)) with 0%nat by lia; reflexivity.
Qed.

Lemma slice_cons (a : Z -> Z) (pos len : Z) :
  pos < len -> slice a pos len = a pos :: slice a (pos + 1) len.
Proof.
  intro H; unfold slice.
  replace (Z.to_nat (len - pos)) with (S (Z.to_nat (len - (pos + 1)))) by lia.
  cbn [seq map]; f_equal.
  - f_equal; lia.
  - rewrite <- seq_shift, map_map.
    apply map_ext; intro i; f_equal; lia.
Qed.

Lemma nth_map_seq (f : nat -> Z) (len n : nat) (d : Z) :
  (n < len)%nat -> nth n (map f (seq 0 len)) d = f n.
Proof.
  intro H.
  rewrite (nth_indep _ d (f 0%nat)) by now rewrite length_map, length_seq.
  rewrite (map_nth f (seq 0 len) 0%nat n), seq_nth by exact H.
  reflexivity.
Qed.

(** The array after a read that put [got] at its start. *)
Lemma slice_filled (got : list Z) (a : Z -> Z) :
  slice (fun i => if (0 <=? i) && (i <? Z.of_nat (List.length got))
                  then nth (Z.to_nat i) got 0 else a i)
        0 (Z.of_nat (List.length got))
  = got.
Proof.
  unfold slice.
  rewrite Z.sub_0_r, Nat2Z.id.
  apply (nth_ext _ _ 0 0).
  - now rewrite length_map, length_seq.
  - intros n Hn; rewrite length_map, length_seq in Hn.
    rewrite nth_map_seq by exact Hn.
    rewrite Z.add_0_l, Nat2Z.id.
    destruct (Z.leb_spec 0 (Z.of_nat n)); [|lia].
    destruct (Z.ltb_spec (Z.of_nat n) (Z.of_nat (List.length got))); [reflexivity | lia].
Qed.

(** One call of [pullByteFromFile] on a file that gives bytes: the next
    byte, or false when none is left; the file goes on giving the
    rest. *)
Lemma pullByteFromFile_next (f : BinFile.t) :
  source_ready f ->
  match unpulled f with
  | [] => exists f', BinFile.pullByteFromFile f = (false, 0, f')
                     /\ source_ready f' /\ unpulled f' = []
  | x :: rest => exists f', BinFile.pullByteFromFile f = (true, x, f')
                            /\ source_ready f' /\ unpulled f' = rest
  end.
Proof.
  intros (Hr & Hpos & Hlen & Hgood).
  assert (HM : BinFile.MAX_RAM_BYTES = 10485760) by reflexivity.
  unfold unpulled, BinFile.pullByteFromFile.
  rewrite Hr; cbn [negb].
  destruct (Z.leb_spec (BinFile.byteArrayLen f) (BinFile.byteArrayPos f)) as [Hfull|Hmore].
  - (* the array is used up: read from the stream *)
    rewrite slice_nil by exact Hfull; cbn [app].
    unfold BinFile.stream_read.
    destruct (BinFile.good f) eqn:Hg.
    + destruct (BinFile.unread f) as [|x U] eqn:HU.
      * cbn [BinFile.take BinFile.drop List.length].
        eexists; split; [reflexivity|].
        unfold source_ready, unpulled; cbn.
        repeat split; try lia; try reflexivity; try exact Hr.
      * cbn [BinFile.take BinFile.drop].
        change (0 <? BinFile.MAX_RAM_BYTES) with true; cbv iota.
        set (got := x :: BinFile.take U (BinFile.MAX_RAM_BYTES - 1)).
        assert (Hgot : 1 <= Z.of_nat (List.length got) <= BinFile.MAX_RAM_BYTES).
        { subst got; cbn [List.length].
          assert (H := take_length U (BinFile.MAX_RAM_BYTES - 1) ltac:(lia)); lia. }
        assert (Hu : to_uint (Z.of_nat (List.length got)) = Z.of_nat (List.length got))
          by (apply Z.mod_small; lia).
        cbv zeta; rewrite Hu.
        destruct (Z.eqb_spec (Z.of_nat (List.length got)) 0) as [E|_]; [lia|].
        cbn [andb].
        eexists; split; [|split].
        -- assert (H0 : ((0 <=? 0) && (0 <? Z.of_nat (List.length got))) = true)
             by (apply andb_true_intro; split; [reflexivity | apply Z.ltb_lt; lia]).
           rewrite H0; reflexivity.
        -- unfold source_ready; cbn [BinFile.readMode BinFile.byteArrayPos
                                     BinFile.byteArrayLen BinFile.good BinFile.unread].
           change (to_uint (0 + 1)) with 1.
           repeat split; try lia; try exact Hr.
           intro Hshort.
           apply drop_short.
           destruct (Z.geb_spec (Z.of_nat (List.length (x :: U))) BinFile.MAX_RAM_BYTES);
             [discriminate Hshort|].
           cbn [List.length] in *; lia.
        -- unfold unpulled; cbn [BinFile.byteArray BinFile.byteArrayPos
                                 BinFile.byteArrayLen BinFile.unread].
           change (to_uint (0 + 1)) with 1.
           assert (Hs := slice_filled got (BinFile.byteArray f)).
           rewrite slice_cons in Hs by lia.
           change (0 + 1) with 1 in Hs.
           apply (f_equal (@tl Z)) in Hs; cbn [tl] in Hs.
           rewrite Hs; subst got; cbn [tl].
           apply take_drop.
    + rewrite (Hgood eq_refl).
      cbn [List.length].
      eexists; split; [reflexivity|].
      unfold source_ready, unpulled; cbn.
      repeat split; try lia; try reflexivity; try exact Hr.
  - (* a byte is waiting in the array *)
    rewrite (slice_cons _ _ _ Hmore); cbn [app].
    assert (Hu : to_uint (BinFile.byteArrayPos f + 1) = BinFile.byteArrayPos f + 1)
      by (apply Z.mod_small; lia).
    eexists; split; [reflexivity|].
    unfold source_ready, unpulled; cbn -[to_uint slice]; rewrite Hu.
    repeat split; try lia; try assumption.
Qed.

Lemma pull_many_gives (n : nat) : forall f : BinFile.t,
  source_ready f ->
  fst (pull_many n f) = firstn n (unpulled f) /\
  unpulled (snd (pull_many n f)) = skipn n (unpulled f) /\
  source_ready (snd (pull_many n f)).
Proof.
  induction n as [|n IH]; intros f Hf;
    [split; [reflexivity | split; [reflexivity | exact Hf]]|].
  assert (Hnext := pullByteFromFile_next f Hf).
  cbn [pull_many].
  destruct (unpulled f) as [|x rest].
  - destruct Hnext as (f' & -> & Hf' & Hrest).
    cbn [fst snd firstn skipn]; rewrite Hrest.
    split; [reflexivity | split; [reflexivity | exact Hf']].
  - destruct Hnext as (f' & -> & Hf' & Hrest).
    destruct (IH f' Hf') as (H1 & H2 & H3).
    destruct (pull_many n f') as [bs f''].
    cbn [fst snd firstn skipn] in *.
    rewrite H1, H2, Hrest.
    split; [reflexivity | split; [reflexivity | exact H3]].
Qed.

Lemma source_ready_opened (name : string) (content : list Z) :
  source_ready (opened_for_read name content)
  /\ unpulled (opened_for_read name content) = content.
Proof.
  split; [|reflexivity].
  unfold source_ready; cbn.
  repeat split; try lia; try discriminate.
Qed.

(** X1: a file opened for reading gives its bytes, in order, one per
    call of pullByteFromFile, whatever their number and however many
    times the array has to be refilled; once they are all given, the
    call returns false and goes on returning false. *)
Theorem pullByteFromFile_gives_the_file
        (name : string) (content : list Z) (n extra : nat) :
  let file := opened_for_read name content in
  let drained := snd (pull_many (List.length content + n) file) in
  fst (pull_many n file) = firstn n content
  /\ fst (fst (BinFile.pullByteFromFile drained)) = false
  /\ fst (pull_many extra drained) = [].
Proof.
  intros file drained.
  destruct (source_ready_opened name content) as [Hready Hcontent].
  fold file in Hready, Hcontent.
  destruct (pull_many_gives n _ Hready) as (Hgot & _).
  destruct (pull_many_gives (List.length content + n) _ Hready) as (_ & Hleft & Hready').
  fold drained in Hleft, Hready'.
  rewrite Hcontent in *.
  rewrite skipn_all2 in Hleft by lia.
  split; [exact Hgot | split].
  - assert (Hnext := pullByteFromFile_next _ Hready').
    rewrite Hleft in Hnext.
    destruct Hnext as (f' & -> & _); reflexivity.
  - destruct (pull_many_gives extra _ Hready') as (Hgot' & _).
    rewrite Hgot', Hleft; apply firstn_nil.
Qed.

(** ** The buffered file as a sink *)

Lemma fold_push_ready (data : list Z) : forall f : BinFile.t,
  sink_ready f -> sink_ready (fold_left BinFile.pushByteToArray data f).
Proof.
  induction data as [|b data IH]; intros f Hf; [exact Hf|].
  cbn [fold_left]; apply IH, (pushByteToArray_sunk f b Hf).
Qed.

Lemma destroy_writes_sunk (f : BinFile.t) :
  sink_ready f -> BinFile.written (BinFile.destroy f) = BinFile.sunk f.
Proof.
  intros (Hr & Hg & Hp).
  unfold BinFile.destroy, BinFile.sunk, BinFile.flushArrayToFile.
  rewrite Hr; cbn [negb andb].
  destruct (Z.eqb_spec (BinFile.byteArrayPos f) 0) as [E|E]; cbn [negb].
  - rewrite E; unfold BinFile.cells; cbn; now rewrite app_nil_r.
  - rewrite Hg; reflexivity.
Qed.

(** X2: what is pushed to a file opened for writing is what the file
    holds once the object is destroyed: the bytes it already held, then
    the pushed bytes in the order pushed, none lost or repeated where
    the array is flushed. *)
Theorem pushed_bytes_reach_the_file (f : BinFile.t) (data : list Z) :
  sink_ready f ->
  BinFile.written (BinFile.destroy (fold_left BinFile.pushByteToArray data f))
  = BinFile.sunk f ++ data.
Proof.
  intro Hf.
  rewrite destroy_writes_sunk by (apply fold_push_ready, Hf).
  apply fold_push_sunk, Hf.
Qed.

Lemma sink_ready_opened (name : string) : sink_ready (opened_for_write name).
Proof.
  split; [reflexivity | split; [reflexivity|]].
  unfold BinFile.MAX_RAM_BYTES; cbn [opened_for_write BinFile.byteArrayPos]; lia.
Qed.

Lemma pushed_bytes_reach_the_file_witness :
  sink_ready (opened_for_write "out.bin") /\
  BinFile.written (BinFile.destroy
                     (fold_left BinFile.pushByteToArray [1; 2; 3]
                                (opened_for_write "out.bin")))
  = [1; 2; 3].
Proof.
  split; [exact (sink_ready_opened "out.bin")|].
  exact (pushed_bytes_reach_the_file (opened_for_write "out.bin") [1; 2; 3]
           (sink_ready_opened "out.bin")).
Defined.

(** X3: a dump into a file just opened for writing leaves on disk,
    once the file object is destroyed, exactly the N bytes the chip gave
    after the identification, in the order read. *)
Theorem dump_reaches_the_disk
        (ulong_bits : Z) (dev : Device) (name : string) (w : World) :
  interface dev = SPI -> protocol dev = S25 ->
  0 <= bytes dev -> bytes dev + 1 < 2 ^ ulong_bits ->
  exists (dev' : Device) (file' : BinFile.t) (w' : World),
    splasher.dumpFlashToFile ulong_bits dev (opened_for_write name) w
    = Some ((dev', file'), w')
    /\ BinFile.written (BinFile.destroy file')
       = Wire.input_bytes w 24 (Z.to_nat (bytes dev))
    /\ List.length (BinFile.written (BinFile.destroy file')) = Z.to_nat (bytes dev).
Proof.
  intros Hi Hp Hb Hmax.
  destruct (Shows_world _ w _ _ _
              (Shows_dumpFlashToFile ulong_bits dev (opened_for_write name)
                 (miso w) (nread w) (unsupported_false dev Hi Hp) Hb Hmax))
    as (w' & Hrun & _ & _).
  do 2 eexists; exists w'; split; [exact Hrun|].
  rewrite destroy_writes_sunk by (apply fold_push_ready, sink_ready_opened).
  rewrite fold_push_sunk by apply sink_ready_opened.
  split; [reflexivity|].
  change (BinFile.sunk (opened_for_write name)) with (@nil Z); cbn [app].
  unfold Wire.bytes_at; now rewrite length_map, length_seq.
Qed.

Lemma dump_reaches_the_disk_witness :
  interface (with_range default_Device 3 0) = SPI /\
  protocol (with_range default_Device 3 0) = S25 /\
  0 <= bytes (with_range default_Device 3 0) /\
  bytes (with_range default_Device 3 0) + 1 < 2 ^ 32 /\
  exists (dev' : Device) (file' : BinFile.t) (w' : World),
    splasher.dumpFlashToFile 32 (with_range default_Device 3 0)
                             (opened_for_write "dump.bin") high
    = Some ((dev', file'), w')
    /\ BinFile.written (BinFile.destroy file') = Wire.input_bytes high 24 3.
Proof.
  assert (H0 : 0 <= bytes (with_range default_Device 3 0)) by (simpl; lia).
  assert (H1 : bytes (with_range default_Device 3 0) + 1 < 2 ^ 32) by (simpl; lia).
  split; [reflexivity|].
  split; [reflexivity|].
  split; [exact H0|].
  split; [exact H1|].
  destruct (dump_reaches_the_disk 32 (with_range default_Device 3 0) "dump.bin" high
              eq_refl eq_refl H0 H1)
    as (dev' & file' & w' & Hrun & Hdisk & _).
  exists dev', file', w'; split; [exact Hrun | exact Hdisk].
Defined.

(** ** The busy-poll, in general *)

Lemma status_byte_read (evs : list Event) (w : World) :
  Wire.byte_of_bits (samples (advance 0 evs w) 0 8) = Wire.byte_at (miso w) (nread w).
Proof.
  unfold samples, Wire.byte_at; cbn [miso nread advance].
  f_equal; apply map_ext; intro i; f_equal; lia.
Qed.

Lemma busy_for_next (inp : nat -> bool) (pos k : nat) :
  busy_for inp pos (S k) ->
  Z.land (Wire.byte_at inp pos) 1 <> 0 /\ busy_for inp (pos + 8) k.
Proof.
  intros [Hbusy Hclear]; split; [|split].
  - specialize (Hbusy 0%nat ltac:(lia)).
    now replace (pos + 8 * 0)%nat with pos in Hbusy by lia.
  - intros j Hj; specialize (Hbusy (S j) ltac:(lia)).
    now replace (pos + 8 * S j)%nat with (pos + 8 + 8 * j)%nat in Hbusy by lia.
  - now replace (pos + 8 * S k)%nat with (pos + 8 + 8 * k)%nat in Hclear by lia.
Qed.

Lemma Shows_waitBusy (spi : hwSPI.t) (inp : nat -> bool) (k : nat) :
  default_pins spi ->
  forall (fuel pos : nat),
    busy_for inp pos k -> (k < fuel)%nat ->
    Shows (splasher.s25_waitBusy fuel spi) inp pos tt (8 * S k)
          (status_polls inp pos (S k)).
Proof.
  intro pins.
  induction k as [|k IH]; intros fuel pos Hbusy Hfuel;
    (destruct fuel as [|fuel]; [lia|]).
  - destruct Hbusy as [_ Hclear].
    replace (pos + 8 * 0)%nat with pos in Hclear by lia.
    cbn [status_polls]; rewrite app_nil_r.
    apply Shows_waitBusy_idle; assumption.
  - destruct (busy_for_next inp pos k Hbusy) as [Hnow Hlater].
    cbn [splasher.s25_waitBusy].
    change (status_polls inp pos (S (S k)))
      with ([Bus.Select; Bus.Sent 0x05; Bus.Received (Wire.byte_at inp pos);
             Bus.Deselect] ++ status_polls inp (pos + 8) (S k)).
    eapply Shows_eq.
    + eapply Shows_seq; [apply Shows_start, pins|].
      eapply Shows_seq; [apply Shows_tx_byte; [exact pins | apply command_byte_range]|].
      eapply Shows_bind; [apply Shows_rx_byte, pins|].
      cbv beta.
      eapply Shows_seq; [apply Shows_stop, pins|].
      destruct (Z.eqb_spec (Z.land (Wire.byte_at inp pos) 1) 0) as [E|_];
        [contradiction|].
      apply IH; [exact Hlater | lia].
    + reflexivity.
    + lia.
    + reflexivity.
Qed.

Lemma waitBusy_pending (spi : hwSPI.t) (fuel : nat) : forall w : World,
  (forall j, (j < fuel)%nat ->
     Z.land (Wire.byte_at (miso w) (nread w + 8 * j)) 1 <> 0) ->
  splasher.s25_waitBusy fuel spi w = None.
Proof.
  induction fuel as [|fuel IH]; intros w Hbusy; [reflexivity|].
  cbn [splasher.s25_waitBusy].
  erewrite bind_Run by apply Run_start.
  erewrite bind_Run by apply Run_tx_byte.
  erewrite bind_Run by apply Run_rx_byte.
  erewrite bind_Run by apply Run_stop.
  rewrite !advance_advance, status_byte_read.
  assert (H0 := Hbusy 0%nat ltac:(lia)).
  replace (nread w + 8 * 0)%nat with (nread w) in H0 by lia.
  destruct (Z.eqb_spec (Z.land (Wire.byte_at (miso w) (nread w)) 1) 0) as [E|_];
    [contradiction|].
  apply IH.
  intros j Hj; cbn [miso nread advance].
  specialize (Hbusy (S j) ltac:(lia)).
  match goal with |- Z.land (Wire.byte_at _ ?p) 1 <> 0 =>
    now replace p with (nread w + 8 * S j)%nat by lia end.
Qed.

(** X4: s25_waitBusy reads the status register once per transaction
    until the first status byte with bit 0 clear: when the chip is busy
    for k polls, the wait returns after exactly k + 1 status reads (the
    model gives the result with more than k units of fuel and none with
    k or fewer), and nothing else is put on the bus. *)
Theorem s25_waitBusy_polls_until_clear
        (spi : hwSPI.t) (k fuel : nat) (w : World) :
  default_pins spi -> busy_for (miso w) (nread w) k ->
  ((k < fuel)%nat ->
   exists w' : World,
     splasher.s25_waitBusy fuel spi w = Some (tt, w')
     /\ nread w' = (nread w + 8 * S k)%nat
     /\ Bus.bus_view (events_since w w') = status_polls (miso w) (nread w) (S k))
  /\ ((fuel <= k)%nat -> splasher.s25_waitBusy fuel spi w = None).
Proof.
  intros pins Hbusy; split; intro Hfuel.
  - exact (Shows_world _ w _ _ _
             (Shows_waitBusy spi (miso w) k pins fuel (nread w) Hbusy Hfuel)).
  - apply waitBusy_pending.
    intros j Hj; apply (proj1 Hbusy); lia.
Qed.

Lemma busy_for_two :
  busy_for (fun n => (n <? 16)%nat) 0 2.
Proof.
  split.
  - intros j Hj.
    destruct j as [|[|j]]; [vm_compute; discriminate | vm_compute; discriminate | lia].
  - reflexivity.
Qed.

Lemma s25_waitBusy_polls_until_clear_witness :
  default_pins dut0 /\
  busy_for (miso (mkWorld (fun n => (n <? 16)%nat) 0 [])) 0 2 /\
  exists w' : World,
    splasher.s25_waitBusy 3 dut0 (mkWorld (fun n => (n <? 16)%nat) 0 []) = Some (tt, w')
    /\ Bus.bus_view (trace w')
       = [Bus.Select; Bus.Sent 0x05; Bus.Received 0xFF; Bus.Deselect;
          Bus.Select; Bus.Sent 0x05; Bus.Received 0xFF; Bus.Deselect;
          Bus.Select; Bus.Sent 0x05; Bus.Received 0x00; Bus.Deselect].
Proof.
  split; [exact default_pins_dut0|].
  split; [exact busy_for_two|].
  destruct (proj1 (s25_waitBusy_polls_until_clear
                     dut0 2 3 (mkWorld (fun n => (n <? 16)%nat) 0 [])
                     default_pins_dut0 busy_for_two) ltac:(lia))
    as (w' & Hrun & _ & Hbus).
  exists w'; split; [exact Hrun|].
  cbn [events_since trace List.length skipn] in Hbus.
  exact Hbus.
Defined.



(** ** The erase of a range, sector by sector *)





(** ** The page program, page by page *)













(** X8: writeFileToFlash on a file that was not opened for reading
    writes its diagnostic to std::cerr and returns: no pin is touched,
    nothing is taken from the file, and nothing is written to
    std::cout. *)
Theorem writeFileToFlash_needs_read_mode
        (ulong_bits : Z) (fuel : nat) (dev : Device) (file : BinFile.t) (w : World) :
  interface dev = SPI -> protocol dev = S25 -> BinFile.readMode file = false ->
  exists w' : World,
    splasher.writeFileToFlash ulong_bits fuel dev file w = Some (file, w')
    /\ events_since w w' = [Cerr MsgWriteNeedsReadMode]
    /\ pin_accesses (events_since w w') = []
    /\ nread w' = nread w.
Proof.
  intros Hi Hp Hmode.
  exists (advance 0 [Cerr MsgWriteNeedsReadMode] w).
  rewrite events_since_advance.
  split; [|split; [reflexivity | split; [reflexivity | cbn [nread advance]; lia]]].
  unfold splasher.writeFileToFlash.
  rewrite (unsupported_false dev Hi Hp).
  unfold BinFile.isReadMode; rewrite Hmode; cbn [negb].
  rewrite <- (app_nil_r [Cerr MsgWriteNeedsReadMode]).
  apply Run_seq; [apply Run_emit | apply Run_ret].
Qed.

Lemma writeFileToFlash_needs_read_mode_witness :
  interface default_Device = SPI /\ protocol default_Device = S25 /\
  BinFile.readMode (opened_for_write "dump.bin") = false /\
  exists w' : World,
    splasher.writeFileToFlash 32 1 (with_range default_Device 512 0)
      (opened_for_write "dump.bin") quiet
    = Some (opened_for_write "dump.bin", w')
    /\ pin_accesses (events_since quiet w') = [].
Proof.
  split; [reflexivity|].
  split; [reflexivity|].
  split; [reflexivity|].
  destruct (writeFileToFlash_needs_read_mode 32 1 (with_range default_Device 512 0)
              (opened_for_write "dump.bin") quiet eq_refl eq_refl eq_refl)
    as (w' & Hrun & _ & Hpins & _).
  exists w'; split; [exact Hrun | exact Hpins].
Defined.

(** ** The identification on its own *)

(** X9: splasher::readJedecId looks at the interface only.  On SPI,
    whatever the protocol, it sends 0x9F and reads three bytes in one
    transaction, stores them in order as manufacturer, memory type and
    capacity, marks the identity valid and returns true; on any other
    interface it returns false, leaves the device as it was and touches
    no pin. *)
Theorem readJedecId_by_interface (dev : Device) (w : World) :
  match interface dev with
  | SPI =>
      exists w' : World,
        splasher.readJedecId dev w
        = Some ((true,
                 set_jedec dev
                   {| manufacturer := Wire.byte_at (miso w) (nread w);
                      memoryType := Wire.byte_at (miso w) (nread w + 8);
                      capacity := Wire.byte_at (miso w) (nread w + 16) |} true), w')
        /\ nread w' = (nread w + 24)%nat
        /\ Bus.bus_view (events_since w w')
           = [Bus.Deselect;
              Bus.Select; Bus.Sent 0x9F;
              Bus.Received (Wire.byte_at (miso w) (nread w));
              Bus.Received (Wire.byte_at (miso w) (nread w + 8));
              Bus.Received (Wire.byte_at (miso w) (nread w + 16));
              Bus.Deselect]
  | _ => splasher.readJedecId dev w = Some ((false, dev), w)
  end.
Proof.
  destruct (interface dev) eqn:Hi;
    try (unfold splasher.readJedecId; rewrite Hi; reflexivity).
  apply Shows_world.
  unfold splasher.readJedecId; rewrite Hi; cbn [IFACE_eqb negb].
  eapply Shows_eq.
  - eapply Shows_bind; [apply Shows_new_dut|].
    cbv beta zeta; fold (dut_of dev).
    eapply Shows_bind;
      [apply Shows_readJedecId, default_pins_dut_of|].
    cbv beta iota.
    apply Shows_ret.
  - rewrite !Nat.add_0_r; reflexivity.
  - reflexivity.
  - rewrite !Nat.add_0_r; reflexivity.
Qed.

(** ** The delays of a byte *)

Lemma delays_app (a b : list Event) : delays (a ++ b) = delays a ++ delays b.
Proof. apply flat_map_app. Qed.

Lemma delays_tr_delay (wait : Z) :
  delays (Wire.tr_delay wait) = if wait =? 0 then [] else [wait].
Proof. unfold Wire.tr_delay; destruct (wait =? 0); reflexivity. Qed.

Lemma delays_each {A} (f : A -> list Event) (d : list Z) (l : list A) :
  (forall a, delays (f a) = d) ->
  delays (flat_map f l) = flat_map (fun _ => d) l.
Proof.
  intro H; induction l as [|a l IH]; [reflexivity|].
  cbn [flat_map]; now rewrite delays_app, H, IH.
Qed.

Lemma setTiming_waits (spi : hwSPI.t) (khz : Z) :
  hwSPI.wait_clk (hwSPI.setTiming spi khz) = half_period khz
  /\ hwSPI.wait_bit (hwSPI.setTiming spi khz) = half_period khz
  /\ hwSPI.wait_byte (hwSPI.setTiming spi khz) = half_period khz.
Proof.
  unfold hwSPI.setTiming, half_period.
  destruct (khz =? 0); [repeat split|].
  cbv zeta.
  assert (E : (if 500 / khz <? 1 then 1 else 500 / khz) = Z.max 1 (500 / khz))
    by (destruct (Z.ltb_spec (500 / khz) 1); lia).
  rewrite E; repeat split.
Qed.

Lemma half_period_zero (khz : Z) : (half_period khz =? 0) = (khz =? 0).
Proof.
  unfold half_period.
  destruct (Z.eqb_spec khz 0) as [_|_]; [reflexivity|].
  apply Z.eqb_neq; lia.
Qed.

Section ByteDelays.
Variable spi : hwSPI.t.
Variable h : Z.
Hypothesis Hclk : hwSPI.wait_clk spi = h.
Hypothesis Hbit : hwSPI.wait_bit spi = h.
Hypothesis Hbyte : hwSPI.wait_byte spi = h.

Lemma delays_frame :
  delays (Wire.tr_start spi) = repeat h (if h =? 0 then 0 else 1)
  /\ delays (Wire.tr_stop spi) = repeat h (if h =? 0 then 0 else 1).
Proof.
  unfold Wire.tr_start, Wire.tr_stop.
  change (delays (?e :: ?l)) with (delays [e] ++ delays l).
  cbn [delays flat_map app].
  rewrite !delays_tr_delay, Hbyte.
  destruct (h =? 0); split; reflexivity.
Qed.

Lemma delays_tx_bit (level : Z) :
  delays (Wire.tr_tx_bit spi level) = repeat h (if h =? 0 then 0 else 3).
Proof.
  unfold Wire.tr_tx_bit, Wire.tr_pulse.
  change (delays (GpioWrite (hwSPI.io_MOSI spi) level :: ?l)) with (delays l).
  rewrite delays_app.
  change (delays (GpioWrite (hwSPI.io_SCLK spi) 1 :: ?l)) with (delays l).
  rewrite delays_app.
  change (delays (GpioWrite (hwSPI.io_SCLK spi) 0 :: ?l)) with (delays l).
  rewrite !delays_tr_delay, Hclk, Hbit.
  destruct (h =? 0); reflexivity.
Qed.

Lemma delays_rx_bit (level : bool) :
  delays (Wire.tr_rx_bit spi level) = repeat h (if h =? 0 then 0 else 3).
Proof.
  unfold Wire.tr_rx_bit, Wire.tr_pulse.
  change (delays (GpioRead ?p ?v :: ?l)) with (delays l).
  rewrite delays_app.
  change (delays (GpioWrite (hwSPI.io_SCLK spi) 1 :: ?l)) with (delays l).
  rewrite delays_app.
  change (delays (GpioWrite (hwSPI.io_SCLK spi) 0 :: ?l)) with (delays l).
  rewrite !delays_tr_delay, Hclk, Hbit.
  destruct (h =? 0); reflexivity.
Qed.

Lemma delays_tx (byte : Z) :
  delays (Wire.tr_tx spi byte) = repeat h (if h =? 0 then 0 else 25).
Proof.
  unfold Wire.tr_tx, Wire.tr_tx_bits.
  rewrite delays_app, delays_tr_delay, Hbyte.
  rewrite (delays_each _ _ _ (fun i => delays_tx_bit (Wire.bit byte i))).
  destruct (h =? 0); reflexivity.
Qed.

Lemma delays_rx (levels : list bool) :
  List.length levels = 8%nat ->
  delays (Wire.tr_rx spi levels) = repeat h (if h =? 0 then 0 else 25).
Proof.
  intro Hlen.
  unfold Wire.tr_rx.
  rewrite delays_app, delays_tr_delay, Hbyte.
  rewrite (delays_each _ _ _ delays_rx_bit).
  do 9 (destruct levels as [|? levels]; try discriminate Hlen).
  destruct (h =? 0); reflexivity.
Qed.

End ByteDelays.

(** X10: after setTiming(khz) every byte sent or received asks pigpio
    for 25 delays of the half period max(1, 500 / khz) microseconds:
    three for each bit (one after the data level, one with the clock
    high, one with the clock low) and one after the byte; start() and
    stop() ask for one each.  A bit so takes three half periods, not two.
    After setTiming(0) no delay is asked for at all. *)
Theorem byte_delays (spi : hwSPI.t) (khz byte : Z) (w : World) :
  let dut := hwSPI.setTiming spi khz in
  let quanta (n : nat) := List.repeat (half_period khz) (if khz =? 0 then 0 else n) in
  (exists w' : World,
      hwSPI.tx_byte dut byte w = Some (tt, w')
      /\ delays (events_since w w') = quanta 25%nat)
  /\ (exists (data : Z) (w' : World),
         hwSPI.rx_byte dut w = Some (data, w')
         /\ delays (events_since w w') = quanta 25%nat)
  /\ (exists w' : World,
         hwSPI.start dut w = Some (tt, w')
         /\ delays (events_since w w') = quanta 1%nat)
  /\ (exists w' : World,
         hwSPI.stop dut w = Some (tt, w')
         /\ delays (events_since w w') = quanta 1%nat).
Proof.
  intros dut quanta.
  destruct (setTiming_waits spi khz) as (Hclk & Hbit & Hbyte).
  fold dut in Hclk, Hbit, Hbyte.
  unfold quanta; rewrite <- half_period_zero.
  split; [|split; [|split]].
  - exists (advance 0 (Wire.tr_tx dut byte) w).
    split; [apply Run_tx_byte|].
    rewrite events_since_advance.
    apply delays_tx; assumption.
  - exists (Wire.byte_of_bits (samples w 0 8)),
           (advance 8 (Wire.tr_rx dut (samples w 0 8)) w).
    split; [apply Run_rx_byte|].
    rewrite events_since_advance.
    apply delays_rx; [assumption.. | apply samples_length].
  - exists (advance 0 (Wire.tr_start dut) w).
    split; [apply Run_start|].
    rewrite events_since_advance.
    apply (delays_frame dut _ Hbyte).
  - exists (advance 0 (Wire.tr_stop dut) w).
    split; [apply Run_stop|].
    rewrite events_since_advance.
    apply (delays_frame dut _ Hbyte).
Qed.

(** ** The address on the bus *)

Lemma address_bytes_wrap (a k : Z) :
  Z.land (Z.shiftr (a + k * 2 ^ 24) 16) 0xFF = Z.land (Z.shiftr a 16) 0xFF
  /\ Z.land (Z.shiftr (a + k * 2 ^ 24) 8) 0xFF = Z.land (Z.shiftr a 8) 0xFF
  /\ Z.land (a + k * 2 ^ 24) 0xFF = Z.land a 0xFF.
Proof.
  change 0xFF with (Z.ones 8).
  rewrite !Z.land_ones, !Z.shiftr_div_pow2 by lia.
  replace (a + k * 2 ^ 24) with (a + (k * 2 ^ 8) * 2 ^ 16) at 1 by lia.
  replace (a + k * 2 ^ 24) with (a + (k * 2 ^ 16) * 2 ^ 8) at 1 by lia.
  rewrite !Z.div_add by lia.
  replace (a / 2 ^ 16 + k * 2 ^ 8) with (a / 2 ^ 16 + k * 2 ^ 8) by lia.
  replace (a / 2 ^ 8 + k * 2 ^ 16) with (a / 2 ^ 8 + (k * 2 ^ 8) * 2 ^ 8) by lia.
  replace (a + k * 2 ^ 24) with (a + (k * 2 ^ 16) * 2 ^ 8) by lia.
  rewrite !Z_mod_plus_full; repeat split.
Qed.

(** X11: only the three low bytes of the offset go on the bus.  A dump
    from an offset of 16 MiB or more reads the same addresses as the
    dump from the offset reduced modulo 2^24: both runs put the same
    commands on the bus and leave the same bytes in the file. *)
Theorem dump_address_is_24_bits
        (ulong_bits : Z) (dev : Device) (k : Z) (file : BinFile.t) (w : World) :
  interface dev = SPI -> protocol dev = S25 ->
  0 <= bytes dev -> bytes dev + 1 < 2 ^ ulong_bits ->
  let far := with_range dev (bytes dev) (offset dev + k * 2 ^ 24) in
  exists (dev1 dev2 : Device) (file' : BinFile.t) (w1 w2 : World),
    splasher.dumpFlashToFile ulong_bits dev file w = Some ((dev1, file'), w1)
    /\ splasher.dumpFlashToFile ulong_bits far file w = Some ((dev2, file'), w2)
    /\ Bus.bus_view (events_since w w1) = Bus.bus_view (events_since w w2).
Proof.
  intros Hi Hp Hcount Hmax far.
  assert (Hsup := unsupported_false dev Hi Hp).
  assert (Hsup' : splasher.unsupported far = false)
    by (apply unsupported_false; assumption).
  destruct (Shows_world _ w _ _ _
              (Shows_dumpFlashToFile ulong_bits dev file (miso w) (nread w)
                 Hsup Hcount Hmax))
    as (w1 & Hrun1 & _ & Hbus1).
  destruct (Shows_world _ w _ _ _
              (Shows_dumpFlashToFile ulong_bits far file (miso w) (nread w)
                 Hsup' Hcount Hmax))
    as (w2 & Hrun2 & _ & Hbus2).
  do 2 eexists; exists (fold_left BinFile.pushByteToArray
                          (Wire.bytes_at (miso w) (nread w + 24) (Z.to_nat (bytes dev)))
                          file), w1, w2.
  split; [exact Hrun1|].
  split; [exact Hrun2|].
  rewrite Hbus1, Hbus2.
  unfold far; cbn [offset bytes with_range].
  destruct (address_bytes_wrap (offset dev) k) as (-> & -> & ->).
  reflexivity.
Qed.

Lemma dump_address_is_24_bits_witness :
  interface default_Device = SPI /\ protocol default_Device = S25 /\
  0 <= bytes (with_range default_Device 2 0x10) /\
  bytes (with_range default_Device 2 0x10) + 1 < 2 ^ 32 /\
  exists (dev1 dev2 : Device) (file' : BinFile.t) (w1 w2 : World),
    splasher.dumpFlashToFile 32 (with_range default_Device 2 0x10)
      (opened_for_write "dump.bin") quiet = Some ((dev1, file'), w1)
    /\ splasher.dumpFlashToFile 32 (with_range default_Device 2 0x1000010)
         (opened_for_write "dump.bin") quiet = Some ((dev2, file'), w2)
    /\ Bus.bus_view (events_since quiet w1) = Bus.bus_view (events_since quiet w2).
Proof.
  assert (Hcount : 0 <= bytes (with_range default_Device 2 0x10)) by (simpl; lia).
  assert (Hmax : bytes (with_range default_Device 2 0x10) + 1 < 2 ^ 32) by (simpl; lia).
  split; [reflexivity|].
  split; [reflexivity|].
  split; [exact Hcount|].
  split; [exact Hmax|].
  exact (dump_address_is_24_bits 32 (with_range default_Device 2 0x10) 1
           (opened_for_write "dump.bin") quiet eq_refl eq_refl Hcount Hmax).
Defined.

(** ** main.cpp: the byte count and the offset *)

Lemma find_digits (d : string) :
  all_digits d = true -> find_first_not_of_digits d = None.
Proof.
  induction d as [|c d IH]; [reflexivity|].
  cbn [all_digits find_first_not_of_digits].
  intro H; apply andb_prop in H; destruct H as [Hc Hd].
  rewrite Hc, (IH Hd); reflexivity.
Qed.

Lemma find_suffix (d : string) (c : ascii) :
  all_digits d = true -> is_digit c = false ->
  find_first_not_of_digits (String.append d (String c EmptyString))
  = Some (String.length d).
Proof.
  intros Hd Hc; induction d as [|x d IH].
  - cbn [String.append find_first_not_of_digits String.length]; now rewrite Hc.
  - cbn [all_digits] in Hd; apply andb_prop in Hd; destruct Hd as [Hx Hd].
    cbn [String.append find_first_not_of_digits String.length].
    rewrite Hx, (IH Hd); reflexivity.
Qed.

Lemma length_suffix (d : string) (c : ascii) :
  (String.length (String.append d (String c EmptyString)) - 1)%nat = String.length d.
Proof.
  assert (H : String.length (String.append d (String c EmptyString))
              = S (String.length d)).
  { induction d as [|x d IH]; [reflexivity|].
    cbn [String.append String.length]; now rewrite IH. }
  rewrite H; lia.
Qed.

Lemma get_suffix (d : string) (c : ascii) :
  String.get (String.length d) (String.append d (String c EmptyString)) = Some c.
Proof. induction d as [|x d IH]; [reflexivity | exact IH]. Qed.

Lemma substring_prefix (d s : string) :
  String.substring 0 (String.length d) (String.append d s) = d.
Proof.
  induction d as [|x d IH].
  - destruct s; reflexivity.
  - cbn [String.append String.length String.substring]; now rewrite IH.
Qed.

Lemma pop_back_suffix (d : string) (c : ascii) :
  pop_back (String.append d (String c EmptyString)) = d.
Proof. unfold pop_back; rewrite length_suffix; apply substring_prefix. Qed.

Lemma decimal_value_nonneg (d : string) :
  all_digits d = true -> forall acc, 0 <= acc -> 0 <= decimal_value d acc.
Proof.
  induction d as [|c d IH]; intros Hd acc Hacc; [exact Hacc|].
  cbn [all_digits] in Hd; apply andb_prop in Hd; destruct Hd as [Hc Hd].
  cbn [decimal_value]; apply (IH Hd).
  unfold is_digit in Hc; apply andb_prop in Hc; destruct Hc as [Hlo _].
  apply Nat.leb_le in Hlo; lia.
Qed.

Lemma stoi_digits (d : string) :
  d <> EmptyString -> decimal_value d 0 <= INT_MAX ->
  stoi d = Returned (decimal_value d 0).
Proof.
  intros Hd Hv; destruct d as [|c d]; [contradiction|].
  unfold stoi.
  destruct (Z.ltb_spec INT_MAX (decimal_value (String c d) 0)); [lia | reflexivity].
Qed.

(** What [convertBytes] does with [digits], [digits K] and [digits M]. *)
Lemma convertBytes_digits (d : string) :
  all_digits d = true ->
  convertBytes d = convert_digits d 1
  /\ convertBytes (String.append d "K") = convert_digits d 1024
  /\ convertBytes (String.append d "M") = convert_digits d 1048576.
Proof.
  intro Hd; unfold convertBytes.
  split; [rewrite (find_digits d Hd); reflexivity|].
  split.
  - rewrite (find_suffix d "K" Hd eq_refl), length_suffix, Nat.eqb_refl.
    cbn [negb]; rewrite get_suffix, pop_back_suffix; reflexivity.
  - rewrite (find_suffix d "M" Hd eq_refl), length_suffix, Nat.eqb_refl.
    cbn [negb]; rewrite get_suffix, pop_back_suffix; reflexivity.
Qed.

Lemma convert_digits_value (d : string) (multiplier : Z) :
  d <> EmptyString -> decimal_value d 0 <= INT_MAX ->
  convert_digits d multiplier
  = if 268435456 <? to_uint (decimal_value d 0 * multiplier)
    then ([bytesTooLarge], Returned 0)
    else ([], Returned (to_uint (decimal_value d 0 * multiplier))).
Proof.
  intros Hd Hv; unfold convert_digits; rewrite (stoi_digits d Hd Hv); reflexivity.
Qed.

(** No wrap-around and no diagnostic while the product is within the
    limit. *)
Lemma convert_digits_small (d : string) (m : Z) :
  all_digits d = true -> d <> EmptyString ->
  0 < m -> m * decimal_value d 0 <= 268435456 ->
  convert_digits d m = ([], Returned (m * decimal_value d 0)).
Proof.
  intros Hd Hne Hm Hle.
  assert (Hn : 0 <= decimal_value d 0)
    by (apply decimal_value_nonneg; [exact Hd | lia]).
  rewrite convert_digits_value by (try assumption; unfold INT_MAX; nia).
  unfold to_uint.
  rewrite Z.mod_small by nia.
  destruct (Z.ltb_spec 268435456 (decimal_value d 0 * m)); [nia|].
  do 2 f_equal; lia.
Qed.

(** X12: convertBytes reads a count with or without a suffix: for a
    non-empty string of digits of value n, the string itself gives n,
    followed by K it gives 1024 * n and followed by M it gives
    1048576 * n, with no diagnostic, whenever the product is at most
    268435456 (256 MiB). *)
Theorem convertBytes_in_range (d : string) :
  all_digits d = true -> d <> EmptyString ->
  let n := decimal_value d 0 in
  (n <= 268435456 -> convertBytes d = ([], Returned n))
  /\ (1024 * n <= 268435456 ->
      convertBytes (String.append d "K") = ([], Returned (1024 * n)))
  /\ (1048576 * n <= 268435456 ->
      convertBytes (String.append d "M") = ([], Returned (1048576 * n))).
Proof.
  intros Hd Hne n.
  destruct (convertBytes_digits d Hd) as (E1 & EK & EM).
  split; [|split]; intro Hle.
  - rewrite E1, (convert_digits_small d 1 Hd Hne) by (fold n; lia).
    fold n; do 2 f_equal; lia.
  - rewrite EK; apply (convert_digits_small d 1024 Hd Hne); fold n; lia.
  - rewrite EM; apply (convert_digits_small d 1048576 Hd Hne); fold n; lia.
Qed.

Lemma convertBytes_in_range_witness :
  all_digits "64" = true /\ "64"%string <> EmptyString /\
  convertBytes "64" = ([], Returned 64)
  /\ convertBytes "64K" = ([], Returned 65536)
  /\ convertBytes "64M" = ([], Returned 67108864).
Proof.
  assert (Hne : "64"%string <> EmptyString) by discriminate.
  split; [reflexivity|].
  split; [exact Hne|].
  destruct (convertBytes_in_range "64" eq_refl Hne) as (H1 & HK & HM).
  split; [apply H1; vm_compute; discriminate|].
  split; [apply HK; vm_compute; discriminate | apply HM; vm_compute; discriminate].
Defined.

(** X13: the product of the count and the multiplier is computed on 32
    bits, and the limit of 256 MiB is checked on what is left of it.  So
    a count of n M is taken for (n mod 4096) MiB and a count of n K for
    (n mod 4194304) KiB: a count of 4 GiB or more is not refused for
    being too large when what is left is 256 MiB or less (4097M is taken
    for 1 MiB), and a multiple of 4 GiB gives 0 with no diagnostic. *)
Theorem convertBytes_wraps (d : string) :
  all_digits d = true -> d <> EmptyString -> decimal_value d 0 <= INT_MAX ->
  let n := decimal_value d 0 in
  convertBytes (String.append d "M")
  = (if 256 <? n mod 4096 then ([bytesTooLarge], Returned 0)
     else ([], Returned (1048576 * (n mod 4096))))
  /\ convertBytes (String.append d "K")
     = (if 262144 <? n mod 4194304 then ([bytesTooLarge], Returned 0)
        else ([], Returned (1024 * (n mod 4194304)))).
Proof.
  intros Hd Hne Hmax n.
  destruct (convertBytes_digits d Hd) as (_ & EK & EM).
  rewrite EK, EM, !convert_digits_value by assumption.
  fold n; unfold to_uint.
  assert (HM : (n * 1048576) mod 2 ^ 32 = 1048576 * (n mod 4096)).
  { rewrite (Z.mul_comm n).
    change (2 ^ 32) with (1048576 * 4096).
    apply Zmult_mod_distr_l. }
  assert (HK : (n * 1024) mod 2 ^ 32 = 1024 * (n mod 4194304)).
  { rewrite (Z.mul_comm n).
    change (2 ^ 32) with (1024 * 4194304).
    apply Zmult_mod_distr_l. }
  rewrite HM, HK.
  split.
  - destruct (Z.ltb_spec 268435456 (1048576 * (n mod 4096)));
      destruct (Z.ltb_spec 256 (n mod 4096)); try reflexivity; lia.
  - destruct (Z.ltb_spec 268435456 (1024 * (n mod 4194304)));
      destruct (Z.ltb_spec 262144 (n mod 4194304)); try reflexivity; lia.
Qed.

Lemma convertBytes_wraps_witness :
  all_digits "4097" = true /\ "4097"%string <> EmptyString /\
  decimal_value "4097" 0 <= INT_MAX /\
  convertBytes "4097M" = ([], Returned 1048576).
Proof.
  assert (Hne : "4097"%string <> EmptyString) by discriminate.
  assert (Hmax : decimal_value "4097" 0 <= INT_MAX) by (vm_compute; discriminate).
  split; [reflexivity|].
  split; [exact Hne|].
  split; [exact Hmax|].
  exact (proj1 (convertBytes_wraps "4097" eq_refl Hne Hmax)).
Defined.

Lemma convert_digits_bound (s : string) (multiplier : Z) :
  match convert_digits s multiplier with
  | (said, Returned v) => 0 <= v <= 268435456 /\ (said <> [] -> v = 0)
  | (said, Thrown _) => said = []
  end.
Proof.
  unfold convert_digits.
  destruct (stoi s) as [v|e]; [|reflexivity].
  cbv zeta.
  destruct (Z.ltb_spec 268435456 (to_uint (v * multiplier))) as [_|Hle].
  - split; [lia | reflexivity].
  - split; [|intro H; now contradiction H].
    unfold to_uint in *.
    assert (Hm := Z.mod_pos_bound (v * multiplier) (2 ^ 32) ltac:(lia)).
    lia.
Qed.

(** Either the string is refused as it is, or its digits are converted. *)
Lemma convertBytes_cases (byteString : string) :
  convertBytes byteString = ([bytesNotValid], Returned 0)
  \/ exists (digits : string) (multiplier : Z),
       convertBytes byteString = convert_digits digits multiplier.
Proof.
  unfold convertBytes.
  destruct (find_first_not_of_digits byteString) as [i|];
    [|right; eexists _, _; reflexivity].
  destruct (negb (i =? String.length byteString - 1)%nat); [left; reflexivity|].
  destruct (String.get (String.length byteString - 1) byteString) as [c|];
    [|left; reflexivity].
  destruct (Ascii.eqb c "K"); [right; eexists _, _; reflexivity|].
  destruct (Ascii.eqb c "M"); [right; eexists _, _; reflexivity | left; reflexivity].
Qed.

(** X14: whatever the string, convertBytes returns a value between 0
    and 268435456, and 0 whenever it writes a diagnostic; when std::stoi
    throws, nothing has been written. *)
Theorem convertBytes_bound (byteString : string) :
  match convertBytes byteString with
  | (said, Returned v) => 0 <= v <= 268435456 /\ (said <> [] -> v = 0)
  | (said, Thrown _) => said = []
  end.
Proof.
  destruct (convertBytes_cases byteString) as [-> | (digits & multiplier & ->)].
  - split; [lia | reflexivity].
  - apply convert_digits_bound.
Qed.

(** X15: main goes on with a byte count or an offset given on the
    command line only when convertBytes returned a value from 1 to
    268435456; otherwise it exits with EXIT_FAILURE (for an offset,
    after message::offsetNotValid) or std::stoi has thrown. *)
Theorem main_values_in_range
        (Erase Write : bool) (arg : string) (unset : Z) :
  match main_bytes Erase Write (Some arg) unset with
  | (_, Continue byteVal) => 1 <= byteVal <= 268435456
  | (_, Exit status) => status = EXIT_FAILURE
  | (said, Uncaught _) => said = []
  end
  /\ match main_offset (Some arg) with
     | (_, Continue offsetVal) => 1 <= offsetVal <= 268435456
     | (said, Exit status) => status = EXIT_FAILURE /\ In offsetNotValid said
     | (said, Uncaught _) => said = []
     end.
Proof.
  assert (H : match convertBytes arg with
              | (said, Returned v) => 0 <= v <= 268435456 /\ (said <> [] -> v = 0)
              | (said, Thrown _) => said = []
              end).
  { destruct (convertBytes_cases arg) as [-> | (digits & multiplier & ->)].
    - split; [lia | reflexivity].
    - apply convert_digits_bound. }
  unfold main_bytes, main_offset.
  destruct (convertBytes arg) as [said [v|e]]; [|split; exact H].
  destruct H as [Hv _].
  destruct (Z.eqb_spec v 0) as [_|Hnz].
  - split; [reflexivity | split; [reflexivity | apply in_or_app; right; left; reflexivity]].
  - split; lia.
Qed.

(** X16: a count of zero is refused.  For a non-empty string of digits
    of value 0, alone or followed by K or M, main exits with
    EXIT_FAILURE: with no diagnostic at all when it is the byte count,
    and with message::offsetNotValid when it is the offset, although
    the offset is 0 when the argument is not given. *)
Theorem zero_is_refused (d : string) (Erase Write : bool) (unset : Z) :
  all_digits d = true -> d <> EmptyString -> decimal_value d 0 = 0 ->
  main_offset None = ([], Continue 0)
  /\ forall arg : string,
       arg = d \/ arg = String.append d "K" \/ arg = String.append d "M" ->
       main_bytes Erase Write (Some arg) unset = ([], Exit EXIT_FAILURE)
       /\ main_offset (Some arg) = ([offsetNotValid], Exit EXIT_FAILURE).
Proof.
  intros Hd Hne Hzero.
  split; [reflexivity|].
  destruct (convertBytes_digits d Hd) as (E1 & EK & EM).
  assert (Hnone : forall m, 0 < m -> convert_digits d m = ([], Returned 0)).
  { intros m Hm.
    rewrite (convert_digits_small d m Hd Hne Hm) by (rewrite Hzero; lia).
    rewrite Hzero, Z.mul_0_r; reflexivity. }
  intros arg [-> | [-> | ->]]; unfold main_bytes, main_offset.
  - rewrite E1, Hnone by lia; split; reflexivity.
  - rewrite EK, Hnone by lia; split; reflexivity.
  - rewrite EM, Hnone by lia; split; reflexivity.
Qed.

Lemma zero_is_refused_witness :
  all_digits "0" = true /\ "0"%string <> EmptyString /\ decimal_value "0" 0 = 0 /\
  main_bytes true false (Some "0"%string) 0 = ([], Exit EXIT_FAILURE)
  /\ main_offset (Some "0"%string) = ([offsetNotValid], Exit EXIT_FAILURE).
Proof.
  assert (Hne : "0"%string <> EmptyString) by discriminate.
  split; [reflexivity|].
  split; [exact Hne|].
  split; [reflexivity|].
  exact (proj2 (zero_is_refused "0" true false 0 eq_refl Hne eq_refl)
           "0"%string (or_introl eq_refl)).
Defined.

(** ** main.cpp: the interface and the dispatch *)


Lemma Run_refused {A} (m : Message) (a : A) (w : World) :
  Run (cerr m ;; ret a) w a 0 [Cerr m].
Proof.
  rewrite <- (app_nil_r [Cerr m]).
  apply Run_seq; [apply Run_emit | apply Run_ret].
Qed.

Lemma Run_terminate {A} (a : A) (w : World) :
  Run (gpioTerminate ;; ret a) w a 0 [GpioTerminate].
Proof.
  rewrite <- (app_nil_r [GpioTerminate]).
  apply Run_seq; [apply Run_emit | apply Run_ret].
Qed.





(** ** main.cpp: the speed *)

Lemma stoi_range (s : string) (v : Z) :
  all_digits s = true -> stoi s = Returned v -> 0 <= v <= INT_MAX.
Proof.
  intros Hd; unfold stoi.
  destruct s as [|c s]; [discriminate|].
  cbv zeta.
  destruct (Z.ltb_spec INT_MAX (decimal_value (String c s) 0)) as [|Hle];
    [discriminate|].
  intro H; injection H as <-.
  split; [apply (decimal_value_nonneg (String c s) Hd 0); lia | exact Hle].
Qed.

Lemma speed_refused (m : Message) (code : Z) (w : World) :
  code < 0 ->
  (r <- (cerr m ;; ret (Returned code)) ;
   match r with
   | Thrown e => ret (Uncaught e)
   | Returned KHzVal =>
       if KHzVal <? 0 then gpioTerminate ;; ret (Exit EXIT_FAILURE)
       else ret (Continue KHzVal)
   end) w
  = Some (@Exit Z EXIT_FAILURE, advance 0 [GpioTerminate] (advance 0 [Cerr m] w)).
Proof.
  intro Hcode.
  rewrite (bind_Run _ _ w _ _ _ (Run_refused m (Returned code) w)).
  destruct (Z.ltb_spec code 0) as [_|]; [|lia].
  apply Run_terminate.
Qed.

(** X19: the speed given on the command line.  main goes on only with
    a rate from 0 to 1000 KHz, and then nothing has been written or
    done; otherwise it writes one diagnostic to std::cerr, calls
    gpioTerminate and exits with EXIT_FAILURE, or std::stoi has thrown.
    A string of digits of value 0 is accepted and gives the rate 0, the
    one that max gives: no delay at all. *)
Theorem main_speed_in_range (speedString : string) (w : World) :
  match main_speed (Some speedString) w with
  | Some (Continue KHzVal, w') =>
      0 <= KHzVal <= 1000 /\ w' = w
      /\ (KHzVal = 0 <->
          speedString = "max"%string
          \/ (all_digits speedString = true /\ stoi speedString = Returned 0))
  | Some (Exit status, w') =>
      status = EXIT_FAILURE
      /\ exists m : Message, events_since w w' = [Cerr m; GpioTerminate]
  | Some (Uncaught _, w') => w' = w
  | None => False
  end.
Proof.
  assert (Hexit : forall m : Message,
            EXIT_FAILURE = EXIT_FAILURE
            /\ exists m0 : Message,
                 events_since w (advance 0 [GpioTerminate] (advance 0 [Cerr m] w))
                 = [Cerr m0; GpioTerminate]).
  { intro m; split; [reflexivity|].
    exists m; rewrite advance_advance, events_since_advance; reflexivity. }
  unfold main_speed, convertKHz.
  destruct (String.eqb_spec speedString "max") as [->|Hmax].
  - cbv [bind ret]; change (0 <? 0) with false; cbv iota.
    split; [lia | split; [reflexivity|]].
    split; [intros _; left; reflexivity | reflexivity].
  - destruct (all_digits speedString) eqn:Hd; cbn [negb];
      [|rewrite speed_refused by lia; apply Hexit].
    destruct (stoi speedString) as [v|e] eqn:Hs; [|reflexivity].
    destruct (stoi_range speedString v Hd Hs) as [Hv _].
    destruct (Z.ltb_spec 1000 v) as [_|Hle];
      [rewrite speed_refused by lia; apply Hexit|].
    cbv [bind ret].
    destruct (Z.ltb_spec v 0) as [|_]; [lia|].
    split; [lia | split; [reflexivity|]].
    split.
    + intros ->; right; split; reflexivity.
    + intros [E | [_ E]]; [contradiction | now injection E].
Qed.

(** ** The write-protect pin *)

Lemma events_since_app (w w' : World) (evs : list Event) :
  trace w' = trace w ++ evs -> events_since w w' = evs.
Proof.
  intro H; unfold events_since; rewrite H.
  rewrite skipn_app, skipn_all, Nat.sub_diag; reflexivity.
Qed.

Lemma Drives_ret {A} (pin : Z) (a : A) (post : A -> Prop) :
  post a -> Drives pin (ret a) [] post.
Proof.
  intros Hp w r w' H; unfold ret in H; injection H as <- <-.
  split; [exact Hp|].
  exists []; split; [now rewrite app_nil_r | reflexivity].
Qed.

Lemma Drives_bind {A B} (pin : Z) (m : M A) (f : A -> M B)
      (l1 l2 : list bool) (P : A -> Prop) (Q : B -> Prop) :
  Drives pin m l1 P -> (forall a, P a -> Drives pin (f a) l2 Q) ->
  Drives pin (bind m f) (l1 ++ l2) Q.
Proof.
  intros Hm Hf w r w'' H; unfold bind in H.
  destruct (m w) as [[a w1]|] eqn:E; [|discriminate].
  destruct (Hm w a w1 E) as (Ha & e1 & T1 & D1).
  destruct (Hf a Ha w1 r w'' H) as (Hr & e2 & T2 & D2).
  split; [exact Hr|].
  exists (e1 ++ e2); split.
  - rewrite T2, T1, app_assoc; reflexivity.
  - unfold Wire.driven in *; rewrite flat_map_app, D1, D2; reflexivity.
Qed.

(** A step that leaves the pin alone, followed by the rest. *)
Lemma Drives_after {A B} (pin : Z) (m : M A) (f : A -> M B)
      (l : list bool) (P : A -> Prop) (Q : B -> Prop) :
  Drives pin m [] P -> (forall a, P a -> Drives pin (f a) l Q) ->
  Drives pin (bind m f) l Q.
Proof. intros Hm Hf; exact (Drives_bind pin m f [] l P Q Hm Hf). Qed.

Lemma Drives_fail {A} (pin : Z) (l : list bool) (post : A -> Prop) :
  Drives pin out_of_fuel l post.
Proof. intros w r w' H; discriminate H. Qed.

Lemma Drives_emit (pin : Z) (e : Event) :
  Drives pin (emit e) (Wire.driven pin [e]) anything.
Proof.
  intros w r w' H; unfold emit in H; injection H as _ <-.
  split; [exact I|].
  exists [e]; split; reflexivity.
Qed.

Lemma Drives_gpioRead (pin p : Z) : Drives pin (gpioRead p) [] anything.
Proof.
  intros w r w' H; unfold gpioRead in H; cbv zeta in H; injection H as _ <-.
  split; [exact I|].
  eexists; split; reflexivity.
Qed.

Lemma Drives_gpioWrite (pin p level : Z) :
  p <> pin -> Drives pin (gpioWrite p level) [] anything.
Proof.
  intro Hp; apply Z.eqb_neq in Hp.
  intros w r w' H; unfold gpioWrite, emit in H; injection H as _ <-.
  split; [exact I|].
  exists [GpioWrite p level]; split; [reflexivity|].
  cbn [Wire.driven flat_map]; rewrite Hp; reflexivity.
Qed.

Lemma Drives_delay (pin wait : Z) : Drives pin (hwSPI.delay wait) [] anything.
Proof.
  unfold hwSPI.delay; destruct (wait =? 0).
  - apply Drives_ret; exact I.
  - exact (Drives_emit pin (GpioDelay wait)).
Qed.

Lemma Drives_cout (pin : Z) (m : Message) : Drives pin (cout m) [] anything.
Proof. exact (Drives_emit pin (Cout m)). Qed.

Section WriteProtect.
Import hwSPI.
Variable spi : hwSPI.t.
Hypothesis pins : default_pins spi.

Lemma other_pins :
  io_CS spi <> Pinout.SPI_WP /\ io_SCLK spi <> Pinout.SPI_WP
  /\ io_MOSI spi <> Pinout.SPI_WP.
Proof.
  destruct pins as (-> & -> & _ & -> & _).
  repeat split; vm_compute; discriminate.
Qed.

Ltac quiet :=
  repeat first
    [ assumption
    | apply Drives_ret; exact I
    | apply Drives_delay
    | apply Drives_gpioRead
    | apply Drives_cout
    | apply Drives_gpioWrite; apply other_pins
    | apply Drives_after with (P := anything); [|intros ? _] ].

Lemma Drives_start : Drives Pinout.SPI_WP (start spi) [] anything.
Proof. unfold start; quiet. Qed.

Lemma Drives_stop : Drives Pinout.SPI_WP (stop spi) [] anything.
Proof. unfold stop; quiet. Qed.

Lemma Drives_tx_byte (byte : Z) : Drives Pinout.SPI_WP (tx_byte spi byte) [] anything.
Proof.
  unfold tx_byte.
  assert (H : forall n, Drives Pinout.SPI_WP (tx_bits spi byte n) [] anything).
  { induction n as [|n IH]; cbn [tx_bits]; quiet. }
  quiet; apply H.
Qed.

Lemma Drives_rx_byte : Drives Pinout.SPI_WP (rx_byte spi) [] anything.
Proof.
  unfold rx_byte.
  assert (H : forall n data, Drives Pinout.SPI_WP (rx_bits spi n data) [] anything).
  { induction n as [|n IH]; intro data; cbn [rx_bits]; cbv zeta; quiet.
    apply IH. }
  apply Drives_after with (P := anything); [apply H | intros ? _; quiet].
Qed.

Lemma Drives_readJedecId (id : ChipId) :
  Drives Pinout.SPI_WP (readJedecId spi id) [] anything.
Proof.
  unfold readJedecId.
  apply Drives_after with (P := anything); [apply Drives_start | intros _ _].
  apply Drives_after with (P := anything); [apply Drives_tx_byte | intros _ _].
  apply Drives_after with (P := anything); [apply Drives_rx_byte | intros m _].
  apply Drives_after with (P := anything); [apply Drives_rx_byte | intros ty _].
  apply Drives_after with (P := anything); [apply Drives_rx_byte | intros c _].
  apply Drives_after with (P := anything); [apply Drives_stop | intros _ _].
  apply Drives_ret; exact I.
Qed.

Lemma Drives_waitBusy (fuel : nat) :
  Drives Pinout.SPI_WP (splasher.s25_waitBusy fuel spi) [] anything.
Proof.
  induction fuel as [|fuel IH]; cbn [splasher.s25_waitBusy];
    [apply Drives_fail|].
  apply Drives_after with (P := anything); [apply Drives_start | intros _ _].
  apply Drives_after with (P := anything); [apply Drives_tx_byte | intros _ _].
  apply Drives_after with (P := anything); [apply Drives_rx_byte | intros st _].
  apply Drives_after with (P := anything); [apply Drives_stop | intros _ _].
  destruct (Z.land st 1 =? 0); [apply Drives_ret; exact I | exact IH].
Qed.

Lemma Drives_page_data (n : nat) : forall file : BinFile.t,
  Drives Pinout.SPI_WP (splasher.page_data spi n file) [] anything.
Proof.
  induction n as [|n IH]; intro file; cbn [splasher.page_data];
    [apply Drives_ret; exact I|].
  destruct (BinFile.pullByteFromFile file) as [[ok b] file'].
  destruct ok; [|apply Drives_ret; exact I].
  apply Drives_after with (P := anything); [apply Drives_tx_byte | intros _ _].
  apply IH.
Qed.

Variable ulong_bits : Z.

Lemma Drives_dump_loop (n : nat) :
  forall (maxByte cByte KiBDone : Z) (file : BinFile.t),
    Drives Pinout.SPI_WP (splasher.dump_loop ulong_bits n spi maxByte cByte KiBDone file)
           [] anything.
Proof.
  induction n as [|n IH]; intros maxByte cByte KiBDone file;
    cbn [splasher.dump_loop]; destruct (cByte <? maxByte);
    try (apply Drives_ret; exact I); [apply Drives_fail|].
  apply Drives_after with (P := anything);
    [unfold readByte; apply Drives_rx_byte | intros b _].
  cbv zeta.
  destruct (cByte mod 1024 =? 0); [|apply IH].
  apply Drives_after with (P := anything); [apply Drives_cout | intros _ _].
  apply IH.
Qed.

Lemma Drives_write_loop (fuel n : nat) :
  forall (total addr remaining KiBDone : Z) (file : BinFile.t),
    Drives Pinout.SPI_WP (splasher.write_loop ulong_bits fuel n spi total addr remaining
                                   KiBDone file)
           [] anything.
Proof.
  induction n as [|n IH]; intros total addr remaining KiBDone file;
    cbn [splasher.write_loop]; destruct (0 <? remaining);
    try (apply Drives_ret; exact I); [apply Drives_fail|].
  cbv zeta.
  apply Drives_after with (P := anything); [apply Drives_start | intros _ _].
  apply Drives_after with (P := anything); [apply Drives_tx_byte | intros _ _].
  apply Drives_after with (P := anything); [apply Drives_stop | intros _ _].
  apply Drives_after with (P := anything); [apply Drives_start | intros _ _].
  apply Drives_after with (P := anything); [apply Drives_tx_byte | intros _ _].
  apply Drives_after with (P := anything); [apply Drives_tx_byte | intros _ _].
  apply Drives_after with (P := anything); [apply Drives_tx_byte | intros _ _].
  apply Drives_after with (P := anything); [apply Drives_tx_byte | intros _ _].
  apply Drives_after with (P := anything); [apply Drives_page_data | intros file' _].
  apply Drives_after with (P := anything); [apply Drives_stop | intros _ _].
  apply Drives_after with (P := anything); [apply Drives_waitBusy | intros _ _].
  match goal with |- Drives _ (if ?c then _ else _) _ _ => destruct c end;
    [|apply IH].
  apply Drives_after with (P := anything); [apply Drives_cout | intros _ _].
  apply IH.
Qed.

Lemma Drives_erase_loop (fuel n : nat) :
  forall (addr end_ : Z),
    Drives Pinout.SPI_WP (splasher.erase_loop ulong_bits fuel n spi addr end_) [] anything.
Proof.
  induction n as [|n IH]; intros addr end_;
    cbn [splasher.erase_loop]; destruct (addr <? end_);
    try (apply Drives_ret; exact I); [apply Drives_fail|].
  apply Drives_after with (P := anything); [apply Drives_start | intros _ _].
  apply Drives_after with (P := anything); [apply Drives_tx_byte | intros _ _].
  apply Drives_after with (P := anything); [apply Drives_stop | intros _ _].
  apply Drives_after with (P := anything); [apply Drives_start | intros _ _].
  apply Drives_after with (P := anything); [apply Drives_tx_byte | intros _ _].
  apply Drives_after with (P := anything); [apply Drives_tx_byte | intros _ _].
  apply Drives_after with (P := anything); [apply Drives_tx_byte | intros _ _].
  apply Drives_after with (P := anything); [apply Drives_tx_byte | intros _ _].
  apply Drives_after with (P := anything); [apply Drives_stop | intros _ _].
  apply Drives_after with (P := anything); [apply Drives_waitBusy | intros _ _].
  apply IH.
Qed.

End WriteProtect.

(** The constructor asserts write protection, once. *)
Lemma Drives_new_dut :
  Drives Pinout.SPI_WP splasher.new_dut [true] (fun dut => dut = dut0).
Proof.
  intros w r w' H.
  rewrite (Run_new_dut w) in H; injection H as <- <-.
  split; [reflexivity|].
  exists (Wire.tr_init dut0); split; reflexivity.
Qed.

Lemma Drives_release (dev : Device) :
  Drives Pinout.SPI_WP (splasher.initWrite dev (IfSPI (dut_of dev))) [false] anything.
Proof.
  unfold splasher.initWrite, hwSPI.setWriteProtect.
  assert (E : hwSPI.io_WP (dut_of dev) = Pinout.SPI_WP)
    by (apply (default_pins_dut_of dev)).
  rewrite E.
  exact (Drives_emit Pinout.SPI_WP (GpioWrite Pinout.SPI_WP 0)).
Qed.

Section WriteProtectOperations.
Variable ulong_bits : Z.
Variable dev : Device.
Hypothesis supported : splasher.unsupported dev = false.

Lemma Drives_dumpFlashToFile (file : BinFile.t) :
  Drives Pinout.SPI_WP (splasher.dumpFlashToFile ulong_bits dev file) [true] anything.
Proof.
  assert (pins := default_pins_dut_of dev).
  unfold splasher.dumpFlashToFile; rewrite supported.
  apply Drives_after with (P := anything); [apply Drives_cout | intros _ _].
  apply (Drives_bind _ _ _ [true] [] (fun dut => dut = dut0));
    [apply Drives_new_dut | intros dut ->].
  cbv zeta; fold (dut_of dev).
  apply Drives_after with (P := fun r => snd r = IfSPI (dut_of dev)).
  { unfold splasher.initRead, readId, hwSPI.readId.
    unfold dut_of at 1 2; rewrite setTiming_idempotent; fold (dut_of dev).
    apply Drives_after with (P := anything);
      [apply Drives_readJedecId, pins | intros [valid id] _].
    apply Drives_ret; reflexivity. }
  intros [dev' hw] Hhw; cbn [snd] in Hhw; subst hw.
  apply Drives_after with (P := anything); [apply Drives_start, pins | intros _ _].
  apply Drives_after with (P := anything); [apply Drives_tx_byte, pins | intros _ _].
  apply Drives_after with (P := anything); [apply Drives_tx_byte, pins | intros _ _].
  apply Drives_after with (P := anything); [apply Drives_tx_byte, pins | intros _ _].
  apply Drives_after with (P := anything); [apply Drives_tx_byte, pins | intros _ _].
  cbv zeta.
  apply Drives_after with (P := anything);
    [apply Drives_dump_loop, pins | intros file' _].
  apply Drives_after with (P := anything); [apply Drives_cout | intros _ _].
  apply Drives_after with (P := anything); [apply Drives_stop, pins | intros _ _].
  apply Drives_ret; exact I.
Qed.

Lemma Drives_writeFileToFlash (fuel : nat) (file : BinFile.t) :
  BinFile.readMode file = true ->
  Drives Pinout.SPI_WP (splasher.writeFileToFlash ulong_bits fuel dev file)
         [true; false] anything.
Proof.
  intro Hmode.
  assert (pins := default_pins_dut_of dev).
  unfold splasher.writeFileToFlash; rewrite supported.
  unfold BinFile.isReadMode; rewrite Hmode; cbn [negb].
  apply Drives_after with (P := anything); [apply Drives_cout | intros _ _].
  apply (Drives_bind _ _ _ [true] [false] (fun dut => dut = dut0));
    [apply Drives_new_dut | intros dut ->].
  cbv zeta; fold (dut_of dev).
  apply (Drives_bind _ _ _ [false] [] anything);
    [apply Drives_release | intros _ _].
  apply Drives_after with (P := anything);
    [apply Drives_write_loop, pins | intros file' _].
  apply Drives_after with (P := anything); [apply Drives_cout | intros _ _].
  apply Drives_ret; exact I.
Qed.

Lemma Drives_eraseFlash (fuel : nat) (byteCount : Z) :
  Drives Pinout.SPI_WP (splasher.eraseFlash ulong_bits fuel dev byteCount)
         [true; false] anything.
Proof.
  assert (pins := default_pins_dut_of dev).
  unfold splasher.eraseFlash; rewrite supported.
  apply (Drives_bind _ _ _ [true] [false] (fun dut => dut = dut0));
    [apply Drives_new_dut | intros dut ->].
  cbv zeta; fold (dut_of dev).
  apply (Drives_bind _ _ _ [false] [] anything);
    [apply Drives_release | intros _ _].
  apply Drives_after with (P := anything); [apply Drives_start, pins | intros _ _].
  apply Drives_after with (P := anything); [apply Drives_tx_byte, pins | intros _ _].
  apply Drives_after with (P := anything); [apply Drives_stop, pins | intros _ _].
  apply Drives_after with (P := anything); [apply Drives_start, pins | intros _ _].
  apply Drives_after with (P := anything); [|intros _ _; apply Drives_stop, pins].
  destruct (byteCount =? 0).
  - apply Drives_after with (P := anything);
      [apply Drives_tx_byte, pins | intros _ _; apply Drives_cout].
  - apply Drives_after with (P := anything);
      [apply Drives_erase_loop, pins | intros _ _; apply Drives_cout].
Qed.

End WriteProtectOperations.

(** X20: the write-protect pin.  Whenever an operation on the supported
    pairing returns, a dump has written the pin once, high, so the chip
    is write-protected for the whole of the read; a write and an erase
    have written it twice, high in the constructor of the transport and
    then low, and never bring it high again: the chip is left
    unprotected. *)
Theorem write_protect_levels
        (ulong_bits : Z) (fuel : nat) (dev : Device) (file : BinFile.t)
        (byteCount : Z) (w w' : World) :
  interface dev = SPI -> protocol dev = S25 ->
  (forall r, splasher.dumpFlashToFile ulong_bits dev file w = Some (r, w') ->
             Wire.driven Pinout.SPI_WP (events_since w w') = [true])
  /\ (forall r, BinFile.readMode file = true ->
                splasher.writeFileToFlash ulong_bits fuel dev file w = Some (r, w') ->
                Wire.driven Pinout.SPI_WP (events_since w w') = [true; false])
  /\ (forall r, splasher.eraseFlash ulong_bits fuel dev byteCount w = Some (r, w') ->
                Wire.driven Pinout.SPI_WP (events_since w w') = [true; false]).
Proof.
  intros Hi Hp.
  assert (Hsup := unsupported_false dev Hi Hp).
  split; [|split].
  - intros r H.
    destruct (Drives_dumpFlashToFile ulong_bits dev Hsup file w r w' H)
      as (_ & evs & Htrace & Hlevels).
    now rewrite (events_since_app w w' evs Htrace).
  - intros r Hmode H.
    destruct (Drives_writeFileToFlash ulong_bits dev Hsup fuel file Hmode w r w' H)
      as (_ & evs & Htrace & Hlevels).
    now rewrite (events_since_app w w' evs Htrace).
  - intros r H.
    destruct (Drives_eraseFlash ulong_bits dev Hsup fuel byteCount w r w' H)
      as (_ & evs & Htrace & Hlevels).
    now rewrite (events_since_app w w' evs Htrace).
Qed.

Lemma write_protect_levels_witness :
  interface default_Device = SPI /\ protocol default_Device = S25 /\
  exists w' : World,
    splasher.eraseFlash 32 1 default_Device 0 quiet = Some (tt, w')
    /\ Wire.driven Pinout.SPI_WP (events_since quiet w') = [true; false].
Proof.
  split; [reflexivity|].
  split; [reflexivity|].
  eexists; split; [vm_compute; reflexivity|].
  apply (proj2 (proj2 (write_protect_levels 32 1 default_Device
                         (opened_for_write "unused") 0 quiet _ eq_refl eq_refl)) tt).
  vm_compute; reflexivity.
Defined.
